(** * mcp-Archimate: validate, layout and XML export pipeline

    A shallow embedding of the TypeScript sources, followed by the
    properties proved about them.

    Definitions
    - [JS]: the runtime notions used below ([Error], completions, [Map],
      [Set], [join], ...);
    - [Archimate]: the enums of [src/models/archimate.ts];
    - [BaseElement], [Relationship]: [src/core];
    - [Validator]: [src/validator/validator.ts], [validation_matrix.ts];
    - [LayoutEngine]: [src/xml-export/layout-engine.ts];
    - [Str], [ColorTheme], [ViewXmlGenerator], [ElementXmlGenerator],
      [RelationshipXmlGenerator], [XmlExporter]: [src/xml-export].

    Properties
    - [ValidatorProofs], [LayoutProofs], [ViewProofs], [EscapeProofs],
      [RelationshipProofs], [ExporterProofs].

    Conventions.  JavaScript strings are [string] (sequences of code units);
    the numbers the layout computes are integers well inside the exactly
    representable range and are modelled by [Z]; the centre and bend-point
    arithmetic of the view generator halves them and is modelled by exact
    rationals [Q].  A [Map] is a [gmap], a [Set] a [gset].  A call that may
    throw returns a [Completion]. *)

From Stdlib Require Import ZArith QArith Qreals Reals Lia Lra String Ascii List
  DecimalString.
From stdpp Require Import gmap strings list fin_maps sorting.

Open Scope Z_scope.

Set Warnings "-clear-no-such-hyp".

(** ** JavaScript runtime helpers *)

Module JS.

(** A thrown [Error] object: only its [message] is observable here. *)
Record Error := mkError { message : string }.

#[global] Instance Error_eq_dec : EqDecision Error.
Proof. solve_decision. Defined.

(** The outcome of evaluating a call: a value, or a thrown error. *)
Inductive Completion (A : Type) : Type :=
| Normal (a : A)
| Throw (e : Error).
Arguments Normal {A} a.
Arguments Throw {A} e.

#[global] Instance Completion_ret : MRet Completion := fun A a => Normal a.

#[global] Instance Completion_bind : MBind Completion := fun A B k c =>
  match c with
  | Normal a => k a
  | Throw e => Throw e
  end.

(** [Array.prototype.map] with a callback that may throw: the first throw
    aborts the whole call. *)
Fixpoint mapM {A B} (f : A → Completion B) (l : list A) : Completion (list B) :=
  match l with
  | [] => Normal []
  | x :: l' =>
      y ← f x; ys ← mapM f l'; Normal (y :: ys)
  end.

(** [`${error}`] for an [Error] instance. *)
Definition Error_toString (e : Error) : string := "Error: " +:+ message e.

(** [n.toString()] for a natural number. *)
Definition Number_toString (n : nat) : string :=
  NilEmpty.string_of_uint (Nat.to_uint n).

(** [arr.join(sep)] on an array of strings. *)
Fixpoint join (sep : string) (l : list string) : string :=
  match l with
  | [] => ""
  | [x] => x
  | x :: l' => x +:+ sep +:+ join sep l'
  end.

(** [new Map(entries)]: entries are set left to right, so for a repeated
    key the last entry wins. *)
Definition Map_from `{Countable K} {V} (entries : list (K * V)) : gmap K V :=
  foldl (fun m kv => <[kv.1 := kv.2]> m) ∅ entries.

(** [for (const [k, v] of src) dst.set(k, v)]. *)
Definition Map_setAll `{Countable K} {V} (src dst : gmap K V) : gmap K V :=
  map_fold (fun k v acc => <[k := v]> acc) dst src.

(** [new Set(items)]. *)
Definition Set_from `{Countable K} (items : list K) : gset K :=
  foldl (fun s k => {[k]} ∪ s) ∅ items.

End JS.

Import JS.

(** ** [src/models/archimate.ts] *)

Module Archimate.

Inductive Layer :=
| MOTIVATION | STRATEGY | BUSINESS | APPLICATION | TECHNOLOGY | PHYSICAL
| IMPLEMENTATION.

Definition Layer_value (l : Layer) : string :=
  match l with
  | MOTIVATION => "Motivation"
  | STRATEGY => "Strategy"
  | BUSINESS => "Business"
  | APPLICATION => "Application"
  | TECHNOLOGY => "Technology"
  | PHYSICAL => "Physical"
  | IMPLEMENTATION => "Implementation"
  end.

Definition Layer_values : list Layer :=
  [MOTIVATION; STRATEGY; BUSINESS; APPLICATION; TECHNOLOGY; PHYSICAL;
   IMPLEMENTATION].

Inductive ElementType :=
(* Motivation *)
| STAKEHOLDER | DRIVER | ASSESSMENT | GOAL | OUTCOME | PRINCIPLE
| REQUIREMENT | CONSTRAINT | MEANING | VALUE
(* Strategy *)
| RESOURCE | CAPABILITY | COURSE_OF_ACTION | VALUE_STREAM
(* Business *)
| BUSINESS_ACTOR | BUSINESS_ROLE | BUSINESS_COLLABORATION
| BUSINESS_INTERFACE | BUSINESS_PROCESS | BUSINESS_FUNCTION
| BUSINESS_INTERACTION | BUSINESS_EVENT | BUSINESS_SERVICE
| BUSINESS_OBJECT | CONTRACT | REPRESENTATION | PRODUCT
(* Application *)
| APPLICATION_COMPONENT | APPLICATION_COLLABORATION
| APPLICATION_INTERFACE | APPLICATION_FUNCTION | APPLICATION_INTERACTION
| APPLICATION_PROCESS | APPLICATION_EVENT | APPLICATION_SERVICE
| DATA_OBJECT
(* Technology *)
| NODE | DEVICE | SYSTEM_SOFTWARE | TECHNOLOGY_COLLABORATION
| TECHNOLOGY_INTERFACE | PATH | COMMUNICATION_NETWORK
| TECHNOLOGY_FUNCTION | TECHNOLOGY_PROCESS | TECHNOLOGY_INTERACTION
| TECHNOLOGY_EVENT | TECHNOLOGY_SERVICE | ARTIFACT
(* Physical *)
| EQUIPMENT | FACILITY | DISTRIBUTION_NETWORK | MATERIAL | LOCATION
(* Implementation & Migration *)
| WORK_PACKAGE | DELIVERABLE | IMPLEMENTATION_EVENT | PLATEAU | GAP.

Definition ElementType_value (t : ElementType) : string :=
  match t with
  | STAKEHOLDER => "Stakeholder" | DRIVER => "Driver"
  | ASSESSMENT => "Assessment" | GOAL => "Goal" | OUTCOME => "Outcome"
  | PRINCIPLE => "Principle" | REQUIREMENT => "Requirement"
  | CONSTRAINT => "Constraint" | MEANING => "Meaning" | VALUE => "Value"
  | RESOURCE => "Resource" | CAPABILITY => "Capability"
  | COURSE_OF_ACTION => "CourseOfAction" | VALUE_STREAM => "ValueStream"
  | BUSINESS_ACTOR => "BusinessActor" | BUSINESS_ROLE => "BusinessRole"
  | BUSINESS_COLLABORATION => "BusinessCollaboration"
  | BUSINESS_INTERFACE => "BusinessInterface"
  | BUSINESS_PROCESS => "BusinessProcess"
  | BUSINESS_FUNCTION => "BusinessFunction"
  | BUSINESS_INTERACTION => "BusinessInteraction"
  | BUSINESS_EVENT => "BusinessEvent"
  | BUSINESS_SERVICE => "BusinessService"
  | BUSINESS_OBJECT => "BusinessObject" | CONTRACT => "Contract"
  | REPRESENTATION => "Representation" | PRODUCT => "Product"
  | APPLICATION_COMPONENT => "ApplicationComponent"
  | APPLICATION_COLLABORATION => "ApplicationCollaboration"
  | APPLICATION_INTERFACE => "ApplicationInterface"
  | APPLICATION_FUNCTION => "ApplicationFunction"
  | APPLICATION_INTERACTION => "ApplicationInteraction"
  | APPLICATION_PROCESS => "ApplicationProcess"
  | APPLICATION_EVENT => "ApplicationEvent"
  | APPLICATION_SERVICE => "ApplicationService"
  | DATA_OBJECT => "DataObject"
  | NODE => "Node" | DEVICE => "Device"
  | SYSTEM_SOFTWARE => "SystemSoftware"
  | TECHNOLOGY_COLLABORATION => "TechnologyCollaboration"
  | TECHNOLOGY_INTERFACE => "TechnologyInterface" | PATH => "Path"
  | COMMUNICATION_NETWORK => "CommunicationNetwork"
  | TECHNOLOGY_FUNCTION => "TechnologyFunction"
  | TECHNOLOGY_PROCESS => "TechnologyProcess"
  | TECHNOLOGY_INTERACTION => "TechnologyInteraction"
  | TECHNOLOGY_EVENT => "TechnologyEvent"
  | TECHNOLOGY_SERVICE => "TechnologyService" | ARTIFACT => "Artifact"
  | EQUIPMENT => "Equipment" | FACILITY => "Facility"
  | DISTRIBUTION_NETWORK => "DistributionNetwork"
  | MATERIAL => "Material" | LOCATION => "Location"
  | WORK_PACKAGE => "WorkPackage" | DELIVERABLE => "Deliverable"
  | IMPLEMENTATION_EVENT => "ImplementationEvent"
  | PLATEAU => "Plateau" | GAP => "Gap"
  end.

(** [Object.values(ElementType)], in declaration order. *)
Definition ElementType_values : list ElementType :=
  [STAKEHOLDER; DRIVER; ASSESSMENT; GOAL; OUTCOME; PRINCIPLE; REQUIREMENT;
   CONSTRAINT; MEANING; VALUE; RESOURCE; CAPABILITY; COURSE_OF_ACTION;
   VALUE_STREAM; BUSINESS_ACTOR; BUSINESS_ROLE; BUSINESS_COLLABORATION;
   BUSINESS_INTERFACE; BUSINESS_PROCESS; BUSINESS_FUNCTION;
   BUSINESS_INTERACTION; BUSINESS_EVENT; BUSINESS_SERVICE; BUSINESS_OBJECT;
   CONTRACT; REPRESENTATION; PRODUCT; APPLICATION_COMPONENT;
   APPLICATION_COLLABORATION; APPLICATION_INTERFACE; APPLICATION_FUNCTION;
   APPLICATION_INTERACTION; APPLICATION_PROCESS; APPLICATION_EVENT;
   APPLICATION_SERVICE; DATA_OBJECT; NODE; DEVICE; SYSTEM_SOFTWARE;
   TECHNOLOGY_COLLABORATION; TECHNOLOGY_INTERFACE; PATH;
   COMMUNICATION_NETWORK; TECHNOLOGY_FUNCTION; TECHNOLOGY_PROCESS;
   TECHNOLOGY_INTERACTION; TECHNOLOGY_EVENT; TECHNOLOGY_SERVICE; ARTIFACT;
   EQUIPMENT; FACILITY; DISTRIBUTION_NETWORK; MATERIAL; LOCATION;
   WORK_PACKAGE; DELIVERABLE; IMPLEMENTATION_EVENT; PLATEAU; GAP].

Inductive RelationshipType :=
(* Structural *)
| COMPOSITION | AGGREGATION | ASSIGNMENT | REALIZATION
(* Dependency *)
| SERVING | ACCESS | INFLUENCE
(* Dynamic *)
| TRIGGERING | FLOW
(* Other *)
| SPECIALIZATION | ASSOCIATION | JUNCTION.

Definition RelationshipType_value (t : RelationshipType) : string :=
  match t with
  | COMPOSITION => "Composition" | AGGREGATION => "Aggregation"
  | ASSIGNMENT => "Assignment" | REALIZATION => "Realization"
  | SERVING => "Serving" | ACCESS => "Access" | INFLUENCE => "Influence"
  | TRIGGERING => "Triggering" | FLOW => "Flow"
  | SPECIALIZATION => "Specialization" | ASSOCIATION => "Association"
  | JUNCTION => "Junction"
  end.

(** Decidable equality and countability of the three enums, through
    their (pairwise distinct) string values. *)

(** [Object.values(RelationshipType)], in declaration order. *)
Definition RelationshipType_values : list RelationshipType :=
  [COMPOSITION; AGGREGATION; ASSIGNMENT; REALIZATION; SERVING; ACCESS;
   INFLUENCE; TRIGGERING; FLOW; SPECIALIZATION; ASSOCIATION; JUNCTION].

Definition RelationshipType_of_value (s : string) : option RelationshipType :=
  find (fun t => String.eqb (RelationshipType_value t) s)
    RelationshipType_values.

Definition Layer_of_value (s : string) : option Layer :=
  find (fun l => String.eqb (Layer_value l) s) Layer_values.

Definition ElementType_of_value (s : string) : option ElementType :=
  find (fun t => String.eqb (ElementType_value t) s) ElementType_values.

#[global] Instance Layer_eq_dec : EqDecision Layer.
Proof. solve_decision. Defined.

#[global] Instance RelationshipType_eq_dec : EqDecision RelationshipType.
Proof. solve_decision. Defined.

#[global] Instance ElementType_eq_dec : EqDecision ElementType.
Proof. solve_decision. Defined.

#[global] Instance Layer_countable : Countable Layer.
Proof.
  refine (inj_countable Layer_value Layer_of_value _).
  intros l; destruct l; reflexivity.
Defined.

#[global] Instance RelationshipType_countable : Countable RelationshipType.
Proof.
  refine (inj_countable RelationshipType_value RelationshipType_of_value _).
  intros t; destruct t; reflexivity.
Defined.

#[global] Instance ElementType_countable : Countable ElementType.
Proof.
  refine (inj_countable ElementType_value ElementType_of_value _).
  intros t; destruct t; vm_compute; reflexivity.
Defined.

End Archimate.

Import Archimate.

(** ** [src/core/element.ts] and [src/core/relationship.ts] *)

(** [BaseElement]: the four read-only constructor fields. *)
Record BaseElement := mkElement {
  id : string;
  name : string;
  type : ElementType;
  layer : Layer;
}.

Record Relationship := mkRelationship {
  rel_id : string;
  source : string;
  target : string;
  rel_type : RelationshipType;
}.

#[global] Instance BaseElement_eq_dec : EqDecision BaseElement.
Proof. solve_decision. Defined.

#[global] Instance Relationship_eq_dec : EqDecision Relationship.
Proof. solve_decision. Defined.

(** The ids of an element array, in order. *)
Definition ids (elements : list BaseElement) : list string := map id elements.

(** ** [src/validator] *)

Module Validator.

(** [validation_matrix.ts]: the nested [Map] literal. *)
Definition validationMatrix
  : gmap ElementType (gmap ElementType (list RelationshipType)) :=
  Map_from [
    (BUSINESS_ACTOR, Map_from [
      (BUSINESS_ROLE, [ASSIGNMENT])
    ]);
    (APPLICATION_COMPONENT, Map_from [
      (APPLICATION_COMPONENT, [COMPOSITION; AGGREGATION])
    ]);
    (VALUE_STREAM, Map_from [
      (VALUE_STREAM, [COMPOSITION; AGGREGATION])
    ]);
    (LOCATION, Map_from [
      (LOCATION, [COMPOSITION; AGGREGATION])
    ])
  ].

(** [validation_error.ts] *)
Record ValidationError := mkValidationError {
  ve_message : string;
  ve_source : BaseElement;
  ve_target : BaseElement;
  ve_relationship : Relationship;
}.

(** [new Map(elements.map(e => [e.id, e]))] *)
Definition elementMap (elements : list BaseElement) : gmap string BaseElement :=
  Map_from (map (fun e => (id e, e)) elements).

(** [validationMatrix.get(source.type)?.get(target.type)] *)
Definition allowedRelationships (s t : ElementType)
  : option (list RelationshipType) :=
  match validationMatrix !! s with
  | Some row => row !! t
  | None => None
  end.

(** [Array.prototype.includes] on relationship types. *)
Definition includes (l : list RelationshipType) (r : RelationshipType) : bool :=
  bool_decide (r ∈ l).

Definition invalid_message (r : Relationship) (s t : BaseElement) : string :=
  "Invalid relationship type '" +:+ RelationshipType_value (rel_type r) +:+
  "' between '" +:+ ElementType_value (type s) +:+ "' and '" +:+
  ElementType_value (type t) +:+ "'".

(** One iteration of the loop of [validate]: the errors it pushes. *)
Definition validate_step (m : gmap string BaseElement) (r : Relationship)
  : list ValidationError :=
  match m !! source r, m !! target r with
  | Some s, Some t =>
      match allowedRelationships (type s) (type t) with
      | Some allowed =>
          if includes allowed (rel_type r) then []
          else [mkValidationError (invalid_message r s t) s t r]
      | None => [mkValidationError (invalid_message r s t) s t r]
      end
  | _, _ => [] (* continue *)
  end.

(** [Validator.validate] *)
Definition validate (elements : list BaseElement)
    (relationships : list Relationship) : list ValidationError :=
  let elementMap := elementMap elements in
  foldl (fun errors r => errors ++ validate_step elementMap r) []
    relationships.

End Validator.

(** ** The host environment

    Two services of the JavaScript host are inputs of the code and are kept
    abstract: the collation used by [String.prototype.localeCompare] and
    the file system read by [fs.readFileSync] (a template file name is
    mapped to its content, or to the error the read throws). *)

Class Host := {
  localeCompare : string → string → Z;
  readFileSync : string → Completion string;
}.

(** ** [src/xml-export/layout-engine.ts] *)

Module LayoutEngine.

Record Position := mkPosition { x : Z; y : Z }.

Record ElementDimensions := mkDimensions { width : Z; height : Z }.

Record LayoutConfiguration := mkConfiguration {
  gridSpacing : Z;
  layerVerticalSpacing : Z;
  elementSpacing : Z;
  defaultElementSize : ElementDimensions;
  layerOrder : list Layer;
  viewportPadding : Z;
}.

(** [Partial<LayoutConfiguration>] *)
Record PartialLayoutConfiguration := mkPartialConfiguration {
  p_gridSpacing : option Z;
  p_layerVerticalSpacing : option Z;
  p_elementSpacing : option Z;
  p_defaultElementSize : option ElementDimensions;
  p_layerOrder : option (list Layer);
  p_viewportPadding : option Z;
}.

Definition emptyPartial : PartialLayoutConfiguration :=
  mkPartialConfiguration None None None None None None.

Record ViewportSize := mkViewportSize { vp_width : Z; vp_height : Z }.

Record LayoutResult := mkLayoutResult {
  elementPositions : gmap string Position;
  elementDimensions : gmap string ElementDimensions;
  viewportSize : ViewportSize;
}.

#[global] Instance Position_eq_dec : EqDecision Position.
Proof. solve_decision. Defined.

#[global] Instance ElementDimensions_eq_dec : EqDecision ElementDimensions.
Proof. solve_decision. Defined.

(** The canonical layer order of the constructor's default. *)
Definition canonicalLayerOrder : list Layer :=
  [MOTIVATION; STRATEGY; BUSINESS; APPLICATION; TECHNOLOGY; PHYSICAL;
   IMPLEMENTATION].

(** [constructor(config = {})]: the defaults, overridden by [...config]. *)
Definition new (config : PartialLayoutConfiguration) : LayoutConfiguration :=
  {| gridSpacing := default 20 (p_gridSpacing config);
     layerVerticalSpacing := default 120 (p_layerVerticalSpacing config);
     elementSpacing := default 180 (p_elementSpacing config);
     defaultElementSize :=
       default (mkDimensions 120 55) (p_defaultElementSize config);
     layerOrder := default canonicalLayerOrder (p_layerOrder config);
     viewportPadding := default 60 (p_viewportPadding config) |}.

(** The [typeAdjustments] object literal of [getElementDimensions]. *)
Definition typeAdjustments : gmap string ElementDimensions :=
  Map_from [
    ("BusinessActor", mkDimensions 140 60);
    ("BusinessProcess", mkDimensions 160 60);
    ("ApplicationComponent", mkDimensions 150 70);
    ("ApplicationService", mkDimensions 140 60);
    ("DataObject", mkDimensions 100 50);
    ("Node", mkDimensions 130 65);
    ("Device", mkDimensions 120 55)
  ].

(** [getElementDimensions] *)
Definition getElementDimensions (config : LayoutConfiguration)
    (element : BaseElement) : ElementDimensions :=
  let baseSize := defaultElementSize config in
  let nameLength := Z.of_nat (String.length (name element)) in
  let baseSize :=
    if 15 <? nameLength
    then mkDimensions (Z.max (width baseSize) (nameLength * 8)) (height baseSize)
    else baseSize in
  match typeAdjustments !! ElementType_value (type element) with
  | Some typeAdjustment =>
      mkDimensions (Z.max (width baseSize) (width typeAdjustment))
                   (Z.max (height baseSize) (height typeAdjustment))
  | None => baseSize
  end.

(** [groupElementsByLayer] *)
Definition groupElementsByLayer (elements : list BaseElement)
  : gmap Layer (list BaseElement) :=
  foldl (fun grouped element =>
           let grouped :=
             match grouped !! layer element with
             | Some _ => grouped
             | None => <[layer element := []]> grouped
             end in
           alter (fun l => l ++ [element]) (layer element) grouped)
        ∅ elements.

(** [buildConnectionMap] *)
Definition buildConnectionMap (relationships : list Relationship)
  : gmap string (gset string) :=
  foldl (fun connections rel =>
           let connections :=
             match connections !! source rel with
             | Some _ => connections
             | None => <[source rel := ∅]> connections
             end in
           let connections :=
             match connections !! target rel with
             | Some _ => connections
             | None => <[target rel := ∅]> connections
             end in
           let connections :=
             alter (fun s => {[target rel]} ∪ s) (source rel) connections in
           alter (fun s => {[source rel]} ∪ s) (target rel) connections)
        ∅ relationships.

(** [optimizeForConnections]: [return new Map(positions)]. *)
Definition optimizeForConnections (positions : gmap string Position)
    (connections : gmap string (gset string))
    (dimensions : gmap string ElementDimensions) : gmap string Position :=
  Map_from (map_to_list positions).

(** [getElementCenter]; [None] is [null].  The halves are exact rationals. *)
Record Center := mkCenter { center_x : Q; center_y : Q }.

Definition getElementCenter (elementId : string) (layout : LayoutResult)
  : option Center :=
  match elementPositions layout !! elementId,
        elementDimensions layout !! elementId with
  | Some position, Some dimensions =>
      Some {| center_x := (inject_Z (x position) + inject_Z (width dimensions) / 2)%Q;
              center_y := (inject_Z (y position) + inject_Z (height dimensions) / 2)%Q |}
  | _, _ => None
  end.

Section WithHost.
Context `{Host}.

(** [[...elements].sort((a, b) => a.type.localeCompare(b.type))].  The
    sort is stable; for a consistent comparator every stable sort returns
    the list computed here by insertion. *)
Definition compareByType (a b : BaseElement) : Z :=
  localeCompare (ElementType_value (type a)) (ElementType_value (type b)).

Fixpoint sortInsert (a : BaseElement) (l : list BaseElement)
  : list BaseElement :=
  match l with
  | [] => [a]
  | b :: l' =>
      if compareByType a b <=? 0 then a :: b :: l' else b :: sortInsert a l'
  end.

Definition sortByType (elements : list BaseElement) : list BaseElement :=
  foldr sortInsert [] elements.

(** The local variables of [layoutLayer] that its loop updates. *)
Record LayerState := mkLayerState {
  positions : gmap string Position;
  dimensions : gmap string ElementDimensions;
  currentX : Z;
  maxHeight : Z;
}.

Record LayerLayout := mkLayerLayout {
  ll_positions : gmap string Position;
  ll_dimensions : gmap string ElementDimensions;
  nextY : Z;
  maxX : Z;
}.

Definition layoutLayer_step (config : LayoutConfiguration) (startY : Z)
    (st : LayerState) (element : BaseElement) : LayerState :=
  let elementDims := getElementDimensions config element in
  {| positions := <[id element := mkPosition (currentX st) startY]> (positions st);
     dimensions := <[id element := elementDims]> (dimensions st);
     currentX := currentX st + width elementDims + elementSpacing config;
     maxHeight := Z.max (maxHeight st) (height elementDims) |}.

(** [layoutLayer] *)
Definition layoutLayer (config : LayoutConfiguration)
    (elements : list BaseElement) (startY : Z) : LayerLayout :=
  let sortedElements := sortByType elements in
  let st :=
    foldl (layoutLayer_step config startY)
      (mkLayerState ∅ ∅ (viewportPadding config) 0) sortedElements in
  {| ll_positions := positions st;
     ll_dimensions := dimensions st;
     nextY := startY + maxHeight st + layerVerticalSpacing config;
     maxX := currentX st - elementSpacing config |}.

(** The local variables of [generateLayout] that its loop updates. *)
Record LayoutState := mkLayoutState {
  st_positions : gmap string Position;
  st_dimensions : gmap string ElementDimensions;
  currentY : Z;
  maxWidth : Z;
}.

Definition generateLayout_step (config : LayoutConfiguration)
    (elementsByLayer : gmap Layer (list BaseElement))
    (st : LayoutState) (layer : Layer) : LayoutState :=
  let layerElements := default [] (elementsByLayer !! layer) in
  if decide (length layerElements = 0%nat) then st (* continue *)
  else
    let layerLayout := layoutLayer config layerElements (currentY st) in
    {| st_positions := Map_setAll (ll_positions layerLayout) (st_positions st);
       st_dimensions := Map_setAll (ll_dimensions layerLayout) (st_dimensions st);
       currentY := nextY layerLayout;
       maxWidth := Z.max (maxWidth st) (maxX layerLayout) |}.

(** [generateLayout] *)
Definition generateLayout (config : LayoutConfiguration)
    (elements : list BaseElement) (relationships : list Relationship)
  : LayoutResult :=
  let elementsByLayer := groupElementsByLayer elements in
  let st :=
    foldl (generateLayout_step config elementsByLayer)
      (mkLayoutState ∅ ∅ (viewportPadding config) 0) (layerOrder config) in
  {| elementPositions := st_positions st;
     elementDimensions := st_dimensions st;
     viewportSize :=
       {| vp_width := maxWidth st + viewportPadding config;
          vp_height := currentY st + viewportPadding config |} |}.

(** [generateRelationshipAwareLayout] *)
Definition generateRelationshipAwareLayout (config : LayoutConfiguration)
    (elements : list BaseElement) (relationships : list Relationship)
  : LayoutResult :=
  let basicLayout := generateLayout config elements relationships in
  let connectionMap := buildConnectionMap relationships in
  let optimizedPositions :=
    optimizeForConnections (elementPositions basicLayout) connectionMap
      (elementDimensions basicLayout) in
  {| elementPositions := optimizedPositions;
     elementDimensions := elementDimensions basicLayout;
     viewportSize := viewportSize basicLayout |}.

End WithHost.

End LayoutEngine.

(** ** String operations shared by the generators *)

Module Str.

(** [s.replace(/c/g, repl)] for a one-character pattern [c] and a
    replacement without [$] patterns. *)
Fixpoint replaceAllChar (c : ascii) (repl : string) (s : string) : string :=
  match s with
  | EmptyString => EmptyString
  | String d s' =>
      if Ascii.eqb d c then repl +:+ replaceAllChar c repl s'
      else String d (replaceAllChar c repl s')
  end.

(** [GetSubstitution] of the language specification for a string pattern
    (no capture groups): [$$], [$&], [$`] and [$'] are expanded, every
    other character is copied. *)
Fixpoint GetSubstitution (matched before after template : string) : string :=
  match template with
  | EmptyString => EmptyString
  | String "$" (String "$" r) =>
      String "$" (GetSubstitution matched before after r)
  | String "$" (String "&" r) =>
      matched +:+ GetSubstitution matched before after r
  | String "$" (String "`" r) =>
      before +:+ GetSubstitution matched before after r
  | String "$" (String "'" r) =>
      after +:+ GetSubstitution matched before after r
  | String c r => String c (GetSubstitution matched before after r)
  end.

Fixpoint dropChars (n : nat) (s : string) : string :=
  match n, s with
  | S n', String _ s' => dropChars n' s'
  | _, _ => s
  end.

(** [s.startsWith(pat)] *)
Fixpoint startsWith (pat s : string) : bool :=
  match pat, s with
  | EmptyString, _ => true
  | String a pat', String b s' => Ascii.eqb a b && startsWith pat' s'
  | String _ _, EmptyString => false
  end.

(** The first occurrence of [pat] in [s]: the text before it and the text
    after it. [before] accumulates the characters already skipped. *)
Fixpoint splitAtFirst (pat before s : string) : option (string * string) :=
  if startsWith pat s then Some (before, dropChars (String.length pat) s)
  else
    match s with
    | EmptyString => None
    | String c s' => splitAtFirst pat (before +:+ String c EmptyString) s'
    end.

(** [s.replace(pat, repl)] with a string pattern: only the first
    occurrence is replaced. *)
Definition replace (pat repl s : string) : string :=
  match splitAtFirst pat EmptyString s with
  | Some (before, after) =>
      before +:+ GetSubstitution pat before after repl +:+ after
  | None => s
  end.

(** [toUpperCase] on the unaccented Latin letters, which is all the enum
    values contain. *)
Definition upperChar (c : ascii) : ascii :=
  let n := nat_of_ascii c in
  if (97 <=? n)%nat && (n <=? 122)%nat then ascii_of_nat (n - 32) else c.

Fixpoint toUpperCase (s : string) : string :=
  match s with
  | EmptyString => EmptyString
  | String c s' => String (upperChar c) (toUpperCase s')
  end.

(** White space in the sense of [String.prototype.trim], among the
    code units below 256. *)
Definition isWhiteSpace (c : ascii) : bool :=
  let n := nat_of_ascii c in
  ((9 <=? n)%nat && (n <=? 13)%nat) || (n =? 32)%nat || (n =? 160)%nat.

Fixpoint allWhiteSpace (s : string) : bool :=
  match s with
  | EmptyString => true
  | String c s' => isWhiteSpace c && allWhiteSpace s'
  end.

(** The escaping of the five markup-significant characters, in the order
    the chained [replace] calls apply it; [apos] is what an apostrophe
    becomes. *)
Definition escapeXmlWith (apos : string) (text : string) : string :=
  replaceAllChar "'" apos
    (replaceAllChar "034" "&quot;"
       (replaceAllChar ">" "&gt;"
          (replaceAllChar "<" "&lt;"
             (replaceAllChar "&" "&amp;" text)))).

End Str.

(** ** [src/xml-export/color-theme.ts] *)

Module ColorTheme.

Record ColorMapping := mkColors {
  fillColor : string;
  lineColor : string;
  textColor : string;
}.

(** The class has one field, [colorMappings]. *)
Record t := mkTheme { colorMappings : gmap ElementType ColorMapping }.

Definition DEFAULT_COLORS : list (ElementType * ColorMapping) :=
  map (fun ty => (ty, mkColors "#E6D3FF" "#8B66CC" "#000000"))
    [STAKEHOLDER; DRIVER; ASSESSMENT; GOAL; OUTCOME; PRINCIPLE; REQUIREMENT;
     CONSTRAINT] ++
  map (fun ty => (ty, mkColors "#D1E7FF" "#5B9BD5" "#000000"))
    [RESOURCE; CAPABILITY; VALUE_STREAM; COURSE_OF_ACTION] ++
  map (fun ty => (ty, mkColors "#FFFACD" "#FFD700" "#000000"))
    [BUSINESS_ACTOR; BUSINESS_ROLE; BUSINESS_COLLABORATION;
     BUSINESS_INTERFACE; BUSINESS_PROCESS; BUSINESS_FUNCTION;
     BUSINESS_INTERACTION; BUSINESS_EVENT; BUSINESS_SERVICE;
     BUSINESS_OBJECT; CONTRACT; REPRESENTATION; PRODUCT] ++
  map (fun ty => (ty, mkColors "#E6FFE6" "#70AD47" "#000000"))
    [APPLICATION_COMPONENT; APPLICATION_COLLABORATION;
     APPLICATION_INTERFACE; APPLICATION_FUNCTION; APPLICATION_INTERACTION;
     APPLICATION_PROCESS; APPLICATION_EVENT; APPLICATION_SERVICE;
     DATA_OBJECT] ++
  map (fun ty => (ty, mkColors "#FFE6CC" "#C5504B" "#000000"))
    [NODE; DEVICE; SYSTEM_SOFTWARE; TECHNOLOGY_COLLABORATION;
     TECHNOLOGY_INTERFACE; TECHNOLOGY_FUNCTION; TECHNOLOGY_PROCESS;
     TECHNOLOGY_INTERACTION; TECHNOLOGY_EVENT; TECHNOLOGY_SERVICE; PATH;
     COMMUNICATION_NETWORK; ARTIFACT] ++
  map (fun ty => (ty, mkColors "#F2F2F2" "#7F7F7F" "#000000"))
    [EQUIPMENT; FACILITY; DISTRIBUTION_NETWORK; MATERIAL] ++
  map (fun ty => (ty, mkColors "#FFCCCB" "#FF6B6B" "#000000"))
    [WORK_PACKAGE; DELIVERABLE; IMPLEMENTATION_EVENT; PLATEAU; GAP].

(** [constructor(customMappings?)]: the defaults, then the overrides. *)
Definition new (customMappings : list (ElementType * ColorMapping)) : t :=
  mkTheme (foldl (fun m kv => <[kv.1 := kv.2]> m) (Map_from DEFAULT_COLORS)
             customMappings).

Definition getColorsForElement (theme : t) (elementType : ElementType)
  : ColorMapping :=
  default (mkColors "#FFFFFF" "#000000" "#000000")
    (colorMappings theme !! elementType).

Definition createArchiMateTheme : t := new [].

Definition createMonochromeTheme : t :=
  new (map (fun ty => (ty, mkColors "#F5F5F5" "#333333" "#000000"))
         ElementType_values).

Definition createHighContrastTheme : t :=
  new (map (fun ty => (ty, mkColors "#FFFFFF" "#000000" "#000000"))
         ElementType_values).

End ColorTheme.

(** ** [src/xml-export/view-xml-generator.ts] *)

Module ViewXmlGenerator.

Import LayoutEngine.

Record VisualElement := mkVisualElement {
  ve_id : string;
  elementRef : string;
  ve_x : Z;
  ve_y : Z;
  ve_width : Z;
  ve_height : Z;
  ve_fillColor : string;
  ve_lineColor : string;
  ve_textColor : string;
}.

Record BendPoint := mkBendPoint { bx : Q; by_ : Q }.

Record VisualConnection := mkVisualConnection {
  vc_id : string;
  relationshipRef : string;
  vc_source : string;
  vc_target : string;
  bendpoints : option (list BendPoint);
  vc_lineColor : string;
  vc_lineWidth : Z;
}.

(** The instance state of the generator. *)
Record t := mkGenerator {
  layoutEngine : LayoutConfiguration;
  colorTheme : ColorTheme.t;
}.

(** [createVisualElements] *)
Definition createVisualElements (self : t) (elements : list BaseElement)
    (layoutResult : LayoutResult) : list VisualElement :=
  map (fun element =>
         let position :=
           default (mkPosition 100 100)
             (elementPositions layoutResult !! id element) in
         let dimensions :=
           default (mkDimensions 120 55)
             (elementDimensions layoutResult !! id element) in
         let colors :=
           ColorTheme.getColorsForElement (colorTheme self) (type element) in
         {| ve_id := "visual-" +:+ id element;
            elementRef := id element;
            ve_x := x position;
            ve_y := y position;
            ve_width := width dimensions;
            ve_height := height dimensions;
            ve_fillColor := ColorTheme.fillColor colors;
            ve_lineColor := ColorTheme.lineColor colors;
            ve_textColor := ColorTheme.textColor colors |})
      elements.

(** The centre of a shape, [{x + width / 2, y + height / 2}]. *)
Definition centerX (v : VisualElement) : Q :=
  (inject_Z (ve_x v) + inject_Z (ve_width v) / 2)%Q.

Definition centerY (v : VisualElement) : Q :=
  (inject_Z (ve_y v) + inject_Z (ve_height v) / 2)%Q.

(** The argument of [Math.sqrt] in [calculateBendpoints]. *)
Definition squaredDistance (source target : VisualElement) : Q :=
  ((centerX target - centerX source) * (centerX target - centerX source) +
   (centerY target - centerY source) * (centerY target - centerY source))%Q.

(** [Math.sqrt(v) > limit] for a non-negative [limit], decided without
    computing the root: the root exceeds [limit] exactly when [v] exceeds
    its square. *)
Definition sqrtExceeds (v limit : Q) : bool :=
  negb (Qle_bool v (limit * limit)).

(** [calculateBendpoints]; [None] is [undefined]. *)
Definition calculateBendpoints (source target : VisualElement)
  : option (list BendPoint) :=
  if sqrtExceeds (squaredDistance source target) 200
  then Some [ {| bx := ((centerX source + centerX target) / 2)%Q;
                 by_ := ((centerY source + centerY target) / 2)%Q |} ]
  else None.

(** [escapeXml] of the view generator: the apostrophe becomes the named
    entity. *)
Definition escapeXml (text : string) : string :=
  Str.escapeXmlWith "&apos;" text.

(** [visualElements.forEach(ve => elementMap.set(ve.elementRef, ve))] *)
Definition visualElementMap (visualElements : list VisualElement)
  : gmap string VisualElement :=
  foldl (fun m ve => <[elementRef ve := ve]> m) ∅ visualElements.

Definition createVisualConnection (elementMap : gmap string VisualElement)
    (relationship : Relationship) : Completion VisualConnection :=
  match elementMap !! source relationship, elementMap !! target relationship with
  | Some sourceVisual, Some targetVisual =>
      Normal {| vc_id := "connection-" +:+ rel_id relationship;
                relationshipRef := rel_id relationship;
                vc_source := ve_id sourceVisual;
                vc_target := ve_id targetVisual;
                vc_lineColor := "#000000";
                vc_lineWidth := 1;
                bendpoints := calculateBendpoints sourceVisual targetVisual |}
  | _, _ =>
      Throw (mkError ("Missing visual elements for relationship " +:+
                      rel_id relationship))
  end.

(** [createVisualConnections] *)
Definition createVisualConnections (relationships : list Relationship)
    (visualElements : list VisualElement) : Completion (list VisualConnection) :=
  mapM (createVisualConnection (visualElementMap visualElements)) relationships.

Section WithHost.
Context `{Host}.

(** [generateViewXml] up to the point where the templates are filled in:
    the layout, the visual elements and the visual connections. *)
Definition generateView (self : t) (elements : list BaseElement)
    (relationships : list Relationship)
  : Completion (list VisualElement * list VisualConnection) :=
  let layoutResult := generateLayout (layoutEngine self) elements relationships in
  let visualElements := createVisualElements self elements layoutResult in
  visualConnections ← createVisualConnections relationships visualElements;
  Normal (visualElements, visualConnections).

(** [generateViewStatistics] (the unused layout statistics left out). *)
Record ViewStatistics := mkViewStatistics {
  elementCount : nat;
  relationshipCount : nat;
  layerDistribution : gmap string nat;
  estimatedDimensions : ViewportSize;
}.

Definition generateViewStatistics (self : t) (elements : list BaseElement)
    (relationships : list Relationship) : ViewStatistics :=
  let layoutResult := generateLayout (layoutEngine self) elements relationships in
  {| elementCount := length elements;
     relationshipCount := length relationships;
     layerDistribution :=
       foldl (fun d element =>
                let l := Layer_value (layer element) in
                <[l := (default 0 (d !! l) + 1)%nat]> d) ∅ elements;
     estimatedDimensions := viewportSize layoutResult |}.

End WithHost.

End ViewXmlGenerator.

(** ** [src/xml-export/element-xml-generator.ts] *)

Module ElementXmlGenerator.

Record ElementGenerationOptions := mkElementOptions {
  includeDocumentation : bool;
  documentationTemplate : option string;
  groupByLayer : bool;
}.

(** [escapeXml]: the apostrophe becomes a numeric character reference. *)
Definition escapeXml (text : string) : string :=
  Str.escapeXmlWith "&#39;" text.

Definition layerDescriptions (l : Layer) : string :=
  match l with
  | MOTIVATION => "represents the context or change drivers for the enterprise"
  | STRATEGY => "represents the strategic direction and choices of the enterprise"
  | BUSINESS => "represents business processes, functions, events, and actors"
  | APPLICATION => "represents application components, services, and interfaces"
  | TECHNOLOGY => "represents technology infrastructure and platforms"
  | PHYSICAL => "represents physical elements like equipment and facilities"
  | IMPLEMENTATION => "represents implementation and migration planning elements"
  end.

Definition generateContextualDocumentation (element : BaseElement) : string :=
  ElementType_value (type element) +:+ " '" +:+ name element +:+ "' " +:+
  layerDescriptions (layer element) +:+ " in the " +:+
  Layer_value (layer element) +:+ " layer".

(** [generateDocumentation]; an empty template string is falsy. *)
Definition generateDocumentation (element : BaseElement)
    (options : ElementGenerationOptions) : string :=
  if negb (includeDocumentation options)
  then ElementType_value (type element) +:+ " element: " +:+ name element
  else
    match documentationTemplate options with
    | Some template =>
        if decide (template = "") then generateContextualDocumentation element
        else
          Str.replace "{{ELEMENT_LAYER}}" (Layer_value (layer element))
            (Str.replace "{{ELEMENT_NAME}}" (name element)
               (Str.replace "{{ELEMENT_TYPE}}"
                  (ElementType_value (type element)) template))
    | None => generateContextualDocumentation element
    end.

Section WithHost.
Context `{Host}.

Definition loadTemplate (templateName : string) : Completion string :=
  match readFileSync templateName with
  | Normal content => Normal content
  | Throw error =>
      Throw (mkError ("Failed to load template " +:+ templateName +:+ ": " +:+
                      Error_toString error))
  end.

(** [generateElement] *)
Definition generateElement (element : BaseElement)
    (options : ElementGenerationOptions) : Completion string :=
  template ← loadTemplate "element-template.xml";
  let documentation := generateDocumentation element options in
  Normal
    (Str.replace "{{ELEMENT_DOCUMENTATION}}" (escapeXml documentation)
       (Str.replace "{{ELEMENT_ID}}" (escapeXml (id element))
          (Str.replace "{{ELEMENT_NAME}}" (escapeXml (name element))
             (Str.replace "{{ELEMENT_TYPE}}"
                (ElementType_value (type element)) template)))).

(** [groupElementsByLayer] *)
Definition groupElementsByLayer (elements : list BaseElement)
  : gmap Layer (list BaseElement) :=
  foldl (fun grouped element =>
           let layer := layer element in
           let grouped :=
             match grouped !! layer with
             | Some _ => grouped
             | None => <[layer := []]> grouped
             end in
           alter (fun l => l ++ [element]) layer grouped)
        ∅ elements.

Definition layerOrder : list Layer :=
  [MOTIVATION; STRATEGY; BUSINESS; APPLICATION; TECHNOLOGY; PHYSICAL;
   IMPLEMENTATION].

(** The loop [for (const element of es) result += generateElement(...) + '\n']. *)
Fixpoint appendElements (result : string) (es : list BaseElement)
    (options : ElementGenerationOptions) : Completion string :=
  match es with
  | [] => Normal result
  | element :: es' =>
      xml ← generateElement element options;
      appendElements (result +:+ xml +:+ String "010" "") es' options
  end.

(** The loop over [layerOrder]; a layer's array is sorted by type, with
    the comparator and the stable sort of the layout engine, before its
    elements are generated. *)
Fixpoint appendLayers (result : string) (layers : list Layer)
    (elementsByLayer : gmap Layer (list BaseElement))
    (options : ElementGenerationOptions) : Completion string :=
  match layers with
  | [] => Normal result
  | layer :: layers' =>
      match elementsByLayer !! layer with
      | Some (e :: es) =>
          let result :=
            result +:+ String "010" "  <!-- " +:+
            Str.toUpperCase (Layer_value layer) +:+
            " LAYER ELEMENTS -->" +:+ String "010" "" in
          result ← appendElements result (LayoutEngine.sortByType (e :: es))
                     options;
          appendLayers result layers' elementsByLayer options
      | _ => appendLayers result layers' elementsByLayer options
      end
  end.

(** [generateElementsGroupedByLayer] *)
Definition generateElementsGroupedByLayer (elements : list BaseElement)
    (options : ElementGenerationOptions) : Completion string :=
  let elementsByLayer := groupElementsByLayer elements in
  let result := String "010" "  <!-- ELEMENTS -->" +:+ String "010" "" in
  appendLayers result layerOrder elementsByLayer options.

(** [generateElements] *)
Definition generateElements (elements : list BaseElement)
    (options : ElementGenerationOptions) : Completion string :=
  match elements with
  | [] => Normal ""
  | _ =>
      if groupByLayer options
      then generateElementsGroupedByLayer elements options
      else
        appendElements (String "010" "  <!-- ELEMENTS -->" +:+ String "010" "")
          elements options
  end.

End WithHost.

(** [getElementStatistics] *)
Record ElementStatistics := mkElementStatistics {
  totalElements : nat;
  elementsByLayer : gmap Layer nat;
  elementsByType : gmap ElementType nat;
}.

Definition getElementStatistics (elements : list BaseElement)
  : ElementStatistics :=
  let '(byLayer, byType) :=
    foldl (fun '(byLayer, byType) element =>
             (<[layer element := (default 0 (byLayer !! layer element) + 1)%nat]> byLayer,
              <[type element := (default 0 (byType !! type element) + 1)%nat]> byType))
          (∅, ∅) elements in
  {| totalElements := length elements;
     elementsByLayer := byLayer;
     elementsByType := byType |}.

End ElementXmlGenerator.

(** ** [src/xml-export/relationship-xml-generator.ts] *)

Module RelationshipXmlGenerator.

Record RelationshipGenerationOptions := mkRelationshipOptions {
  includeNames : bool;
  validateReferences : bool;
  groupByType : bool;
  includeDocumentation : bool;
}.

Definition escapeXml (text : string) : string :=
  Str.escapeXmlWith "&#39;" text.

(** [getRelationshipVerb] *)
Definition getRelationshipVerb (ty : RelationshipType) : string :=
  match ty with
  | COMPOSITION => "composes"
  | AGGREGATION => "aggregates"
  | ASSIGNMENT => "is assigned to"
  | REALIZATION => "realizes"
  | SERVING => "serves"
  | ACCESS => "accesses"
  | INFLUENCE => "influences"
  | TRIGGERING => "triggers"
  | FLOW => "flows to"
  | SPECIALIZATION => "specializes"
  | ASSOCIATION => "associates with"
  | JUNCTION => "joins with"
  end.

(** [elements.find(e => e.id === i)] *)
Definition findById (elements : list BaseElement) (i : string)
  : option BaseElement :=
  find (fun e => bool_decide (id e = i)) elements.

(** [generateRelationshipName]; [elements] is [None] when the optional
    argument is omitted. *)
Definition generateRelationshipName (relationship : Relationship)
    (options : RelationshipGenerationOptions)
    (elements : option (list BaseElement)) : string :=
  if negb (includeNames options) then ""
  else
    let fallback :=
      RelationshipType_value (rel_type relationship) +:+ " relationship" in
    match elements with
    | Some elements =>
        match findById elements (source relationship),
              findById elements (target relationship) with
        | Some sourceElement, Some targetElement =>
            name sourceElement +:+ " " +:+
            getRelationshipVerb (rel_type relationship) +:+ " " +:+
            name targetElement
        | _, _ => fallback
        end
    | None => fallback
    end.

(** [validateRelationshipReferences]; the value returned is [void]. *)
Definition validateRelationshipReferences (relationship : Relationship)
    (elements : list BaseElement) : Completion unit :=
  let elementIds : gset string := Set_from (map id elements) in
  if negb (bool_decide (source relationship ∈ elementIds)) then
    Throw (mkError ("Relationship " +:+ rel_id relationship +:+
                    " references non-existent source element: " +:+
                    source relationship))
  else if negb (bool_decide (target relationship ∈ elementIds)) then
    Throw (mkError ("Relationship " +:+ rel_id relationship +:+
                    " references non-existent target element: " +:+
                    target relationship))
  else Normal ().

(** [findOrphanedRelationships] *)
Definition findOrphanedRelationships (relationships : list Relationship)
    (elements : list BaseElement) : list string :=
  let elementIds : gset string := Set_from (map id elements) in
  foldl (fun orphaned relationship =>
           if negb (bool_decide (source relationship ∈ elementIds)) ||
              negb (bool_decide (target relationship ∈ elementIds))
           then orphaned ++ [rel_id relationship]
           else orphaned)
        [] relationships.

(** [groupRelationshipsByType] *)
Definition groupRelationshipsByType (relationships : list Relationship)
  : gmap RelationshipType (list Relationship) :=
  foldl (fun grouped relationship =>
           let ty := rel_type relationship in
           let grouped :=
             match grouped !! ty with
             | Some _ => grouped
             | None => <[ty := []]> grouped
             end in
           alter (fun l => l ++ [relationship]) ty grouped)
        ∅ relationships.

Definition typeOrder : list RelationshipType :=
  [COMPOSITION; AGGREGATION; ASSIGNMENT; REALIZATION; SERVING; ACCESS;
   INFLUENCE; TRIGGERING; FLOW; SPECIALIZATION; ASSOCIATION; JUNCTION].

(** [getRelationshipStatistics] *)
Record RelationshipStatistics := mkRelationshipStatistics {
  totalRelationships : nat;
  relationshipsByType : gmap RelationshipType nat;
  uniqueElements : gset string;
}.

Definition getRelationshipStatistics (relationships : list Relationship)
  : RelationshipStatistics :=
  let '(byType, unique) :=
    foldl (fun '(byType, unique) relationship =>
             (<[rel_type relationship :=
                  (default 0 (byType !! rel_type relationship) + 1)%nat]> byType,
              {[target relationship]} ∪ ({[source relationship]} ∪ unique)))
          (∅, ∅) relationships in
  {| totalRelationships := length relationships;
     relationshipsByType := byType;
     uniqueElements := unique |}.

Section WithHost.
Context `{Host}.

Definition loadTemplate (templateName : string) : Completion string :=
  match readFileSync templateName with
  | Normal content => Normal content
  | Throw error =>
      Throw (mkError ("Failed to load template " +:+ templateName +:+ ": " +:+
                      Error_toString error))
  end.

(** [generateRelationship] *)
Definition generateRelationship (relationship : Relationship)
    (options : RelationshipGenerationOptions)
    (elements : option (list BaseElement)) : Completion string :=
  template ← loadTemplate "relationship-template.xml";
  _ ← match elements with
      | Some elements =>
          if validateReferences options
          then validateRelationshipReferences relationship elements
          else Normal ()
      | None => Normal ()
      end;
  let relationshipName :=
    generateRelationshipName relationship options elements in
  Normal
    (Str.replace "{{TARGET_ID}}" (escapeXml (target relationship))
       (Str.replace "{{SOURCE_ID}}" (escapeXml (source relationship))
          (Str.replace "{{RELATIONSHIP_ID}}" (escapeXml (rel_id relationship))
             (Str.replace "{{RELATIONSHIP_NAME}}" (escapeXml relationshipName)
                (Str.replace "{{RELATIONSHIP_TYPE}}"
                   (RelationshipType_value (rel_type relationship))
                   template))))).

(** The loop [for (const relationship of rs) result += generate(...) + '\n']. *)
Fixpoint appendRelationships (result : string) (rs : list Relationship)
    (options : RelationshipGenerationOptions)
    (elements : option (list BaseElement)) : Completion string :=
  match rs with
  | [] => Normal result
  | relationship :: rs' =>
      xml ← generateRelationship relationship options elements;
      appendRelationships (result +:+ xml +:+ String "010" "") rs' options
        elements
  end.

Fixpoint appendGroups (result : string) (types : list RelationshipType)
    (relationshipsByType : gmap RelationshipType (list Relationship))
    (options : RelationshipGenerationOptions)
    (elements : option (list BaseElement)) : Completion string :=
  match types with
  | [] => Normal result
  | ty :: types' =>
      match relationshipsByType !! ty with
      | Some (r :: rs) =>
          let result :=
            result +:+ String "010" "  <!-- " +:+
            Str.toUpperCase (RelationshipType_value ty) +:+
            " RELATIONSHIPS -->" +:+ String "010" "" in
          result ← appendRelationships result (r :: rs) options elements;
          appendGroups result types' relationshipsByType options elements
      | _ => appendGroups result types' relationshipsByType options elements
      end
  end.

(** [generateRelationshipsGroupedByType] *)
Definition generateRelationshipsGroupedByType
    (relationships : list Relationship)
    (options : RelationshipGenerationOptions)
    (elements : option (list BaseElement)) : Completion string :=
  let relationshipsByType := groupRelationshipsByType relationships in
  let result := String "010" "  <!-- RELATIONSHIPS -->" +:+ String "010" "" in
  appendGroups result typeOrder relationshipsByType options elements.

(** [generateRelationships] *)
Definition generateRelationships (relationships : list Relationship)
    (options : RelationshipGenerationOptions)
    (elements : option (list BaseElement)) : Completion string :=
  match relationships with
  | [] => Normal ""
  | _ =>
      if groupByType options
      then generateRelationshipsGroupedByType relationships options elements
      else
        appendRelationships
          (String "010" "  <!-- RELATIONSHIPS -->" +:+ String "010" "")
          relationships options elements
  end.

End WithHost.

End RelationshipXmlGenerator.

(** ** [src/xml-export/xml-exporter.ts] *)

Module XmlExporter.

Import LayoutEngine.

(** [ColorTheme | 'archimate' | 'monochrome' | 'high-contrast'] *)
Inductive ThemeChoice :=
| ThemeName (theme : string)
| ThemeObject (theme : ColorTheme.t).

Record ViewOptions := mkViewOptions { viewName : option string }.

Record XmlExportOptions := mkExportOptions {
  modelId : option string;
  modelName : option string;
  modelPurpose : option string;
  includeViews : option bool;
  viewOptions : option ViewOptions;
  colorTheme : option ThemeChoice;
  layoutConfiguration : option PartialLayoutConfiguration;
  validateModel : bool;
  strictValidation : bool;
  includeStatistics : bool;
}.

(** [ModelExportOptions] of [model-xml-generator.ts], as built by
    [buildModelOptions]. *)
Record ModelExportOptions := mkModelOptions {
  mo_modelId : option string;
  mo_modelName : option string;
  mo_modelPurpose : option string;
  mo_includeViews : bool;
  mo_viewName : option string;
  mo_viewDocumentation : option string;
}.

Record Statistics := mkStatistics {
  st_elements : ElementXmlGenerator.ElementStatistics;
  st_relationships : RelationshipXmlGenerator.RelationshipStatistics;
  st_views : option ViewXmlGenerator.ViewStatistics;
}.

Record XmlExportResult := mkResult {
  xml : string;
  statistics : option Statistics;
  warnings : list string;
  errors : list string;
}.

(** The mutable fields of an exporter; the view generator holds the same
    theme and layout engine. *)
Record t := mkExporter {
  exporterTheme : ColorTheme.t;
  exporterLayout : LayoutConfiguration;
}.

(** [constructor(colorTheme?, layoutConfig?)] *)
Definition new (colorTheme : option ColorTheme.t)
    (layoutConfig : option PartialLayoutConfiguration) : t :=
  {| exporterTheme := default ColorTheme.createArchiMateTheme colorTheme;
     exporterLayout := LayoutEngine.new (default emptyPartial layoutConfig) |}.

Definition viewGenerator (self : t) : ViewXmlGenerator.t :=
  ViewXmlGenerator.mkGenerator (exporterLayout self) (exporterTheme self).

(** [setColorTheme] *)
Definition setColorTheme (self : t) (theme : ThemeChoice) : Completion t :=
  match theme with
  | ThemeName theme =>
      if decide (theme = "archimate") then
        Normal (mkExporter ColorTheme.createArchiMateTheme (exporterLayout self))
      else if decide (theme = "monochrome") then
        Normal (mkExporter ColorTheme.createMonochromeTheme (exporterLayout self))
      else if decide (theme = "high-contrast") then
        Normal (mkExporter ColorTheme.createHighContrastTheme (exporterLayout self))
      else Throw (mkError ("Unknown color theme: " +:+ theme))
  | ThemeObject theme => Normal (mkExporter theme (exporterLayout self))
  end.

(** [setLayoutConfiguration] *)
Definition setLayoutConfiguration (self : t)
    (config : PartialLayoutConfiguration) : t :=
  mkExporter (exporterTheme self) (LayoutEngine.new config).

(** [configureVisualization]; an empty theme name is falsy. *)
Definition configureVisualization (self : t) (options : XmlExportOptions)
  : Completion t :=
  self ← match colorTheme options with
         | Some (ThemeName "") | None => Normal self
         | Some theme => setColorTheme self theme
         end;
  match layoutConfiguration options with
  | Some config => Normal (setLayoutConfiguration self config)
  | None => Normal self
  end.

(** [buildModelOptions]; an empty view name is falsy. *)
Definition buildModelOptions (options : XmlExportOptions) : ModelExportOptions :=
  let viewName := viewOptions options ≫= viewName in
  {| mo_modelId := modelId options;
     mo_modelName := modelName options;
     mo_modelPurpose := modelPurpose options;
     mo_includeViews := default true (includeViews options);
     mo_viewName := viewName;
     mo_viewDocumentation :=
       match viewName with
       | Some "" | None => None
       | Some n => Some ("Generated view: " +:+ n)
       end |}.

(** The duplicate scan shared by the element-id and relationship-id
    checks: [seen] is the [Set], the result the ids pushed as duplicates. *)
Definition duplicates (ids : list string) : list string :=
  (foldl (fun '(seen, dups) i =>
            if bool_decide (i ∈ (seen : gset string))
            then (seen, dups ++ [i])
            else ({[i]} ∪ seen, dups))
         (∅, []) ids).2.

(** [!e.name || e.name.trim() === ''] *)
Definition unnamed (e : BaseElement) : bool :=
  bool_decide (name e = "") || Str.allWhiteSpace (name e).

(** [validateModelInputs]: the pair [(warnings, errors)]. *)
Definition validateModelInputs (elements : list BaseElement)
    (relationships : list Relationship) (strict : bool)
  : list string * list string :=
  let warnings : list string := [] in
  let errors : list string := [] in
  (* Check for empty model *)
  let '(warnings, errors) :=
    if decide (length elements = 0%nat) then
      if strict then (warnings, errors ++ ["Model contains no elements"])
      else (warnings ++ ["Model contains no elements"], errors)
    else (warnings, errors) in
  (* Check for orphaned relationships *)
  let orphanedRelationships :=
    RelationshipXmlGenerator.findOrphanedRelationships relationships elements in
  let '(warnings, errors) :=
    if decide (0 < length orphanedRelationships)%nat then
      let message :=
        "Found " +:+ Number_toString (length orphanedRelationships) +:+
        " orphaned relationships: " +:+ join ", " orphanedRelationships in
      if strict then (warnings, errors ++ [message])
      else (warnings ++ [message], errors)
    else (warnings, errors) in
  (* Check for duplicate element IDs *)
  let duplicateIds := duplicates (map id elements) in
  let errors :=
    if decide (0 < length duplicateIds)%nat
    then errors ++ ["Duplicate element IDs found: " +:+ join ", " duplicateIds]
    else errors in
  (* Check for duplicate relationship IDs *)
  let duplicateRelIds := duplicates (map rel_id relationships) in
  let errors :=
    if decide (0 < length duplicateRelIds)%nat
    then errors ++
         ["Duplicate relationship IDs found: " +:+ join ", " duplicateRelIds]
    else errors in
  (* Check for elements without names *)
  let unnamedElements := filter (fun e => unnamed e = true) elements in
  let warnings :=
    if decide (0 < length unnamedElements)%nat
    then warnings ++
         ["Found " +:+ Number_toString (length unnamedElements) +:+
          " elements without names"]
    else warnings in
  (warnings, errors).

(** [Partial<RelationshipGenerationOptions>], as [exportRelationshipsOnly]
    takes it. *)
Record PartialRelationshipOptions := mkPartialRelationshipOptions {
  p_includeNames : option bool;
  p_validateReferences : option bool;
  p_groupByType : option bool;
  p_includeDocumentation : option bool;
}.

(** The argument of [createXmlExporter]. *)
Record CreateOptions := mkCreateOptions {
  co_colorTheme : option ThemeChoice;
  co_layoutConfig : option PartialLayoutConfiguration;
}.

(** [createXmlExporter]; an empty theme name is falsy. *)
Definition createXmlExporter (options : option CreateOptions) : t :=
  let colorTheme :=
    match options ≫= co_colorTheme with
    | Some (ThemeName "") | None => None
    | Some (ThemeName _) => Some ColorTheme.createArchiMateTheme
    | Some (ThemeObject theme) => Some theme
    end in
  new colorTheme (options ≫= co_layoutConfig).

Section PartialExports.
Context `{Host}.


(** [exportRelationshipsOnly]: the defaults [groupByType: true],
    [validateReferences: true], [includeNames: false], overridden by
    [...options]. *)
Definition exportRelationshipsOnly (relationships : list Relationship)
    (elements : option (list BaseElement))
    (options : PartialRelationshipOptions) : Completion string :=
  RelationshipXmlGenerator.generateRelationships relationships
    {| RelationshipXmlGenerator.groupByType :=
         default true (p_groupByType options);
       RelationshipXmlGenerator.validateReferences :=
         default true (p_validateReferences options);
       RelationshipXmlGenerator.includeNames :=
         default false (p_includeNames options);
       RelationshipXmlGenerator.includeDocumentation :=
         default false (p_includeDocumentation options) |}
    elements.

End PartialExports.

Section WithHost.
Context `{Host}.

(** [ModelXmlGenerator.generate] of [model-xml-generator.ts], whose source
    is not part of the files at hand: the document it returns, or the
    error it throws. *)
Variable modelGenerator_generate :
  list BaseElement → list Relationship → ModelExportOptions → Completion string.

(** [collectStatistics]; [options.includeViews] is tested for truthiness. *)
Definition collectStatistics (self : t) (elements : list BaseElement)
    (relationships : list Relationship) (options : XmlExportOptions)
  : Statistics :=
  {| st_elements := ElementXmlGenerator.getElementStatistics elements;
     st_relationships :=
       RelationshipXmlGenerator.getRelationshipStatistics relationships;
     st_views :=
       if default false (includeViews options)
       then Some (ViewXmlGenerator.generateViewStatistics (viewGenerator self)
                    elements relationships)
       else None |}.

(** How control leaves the [try] block of [exportModel]: by [return
    result], or by a throw that the [catch] clause receives together with
    the value the local [result] has at that moment. *)
Inductive TryOutcome :=
| Returned (result : XmlExportResult)
| Caught (result : XmlExportResult) (error : Error).

(** The [try] block of [exportModel], with the exporter state it leaves. *)
Definition exportModel_try (self : t) (elements : list BaseElement)
    (relationships : list Relationship) (options : XmlExportOptions)
  : TryOutcome * t :=
  let result := mkResult "" None [] [] in
  (* Step 1: Validate inputs if requested *)
  let result :=
    if validateModel options then
      let validationResult :=
        validateModelInputs elements relationships (strictValidation options) in
      mkResult (xml result) (statistics result) validationResult.1
        validationResult.2
    else result in
  if validateModel options &&
     bool_decide (0 < length (errors result))%nat && strictValidation options
  then
    (Caught result
       (mkError ("Model validation failed: " +:+ join ", " (errors result))),
     self)
  else
    (* Step 2: Setup themes and layout *)
    match configureVisualization self options with
    | Throw error => (Caught result error, self)
    | Normal self =>
        (* Step 3: Generate XML *)
        let modelOptions := buildModelOptions options in
        match modelGenerator_generate elements relationships modelOptions with
        | Throw error => (Caught result error, self)
        | Normal document =>
            let result :=
              mkResult document (statistics result) (warnings result)
                (errors result) in
            (* Step 4: Collect statistics if requested *)
            let result :=
              if includeStatistics options then
                mkResult (xml result)
                  (Some (collectStatistics self elements relationships options))
                  (warnings result) (errors result)
              else result in
            (Returned result, self)
        end
    end.

(** The [catch] clause: it appends to [result.errors] and rethrows
    [error].  Both the updated local [result] and the completion of the
    call are returned here, so that what the clause writes and what the
    caller receives can be told apart. *)
Definition exportModel_catch (result : XmlExportResult) (error : Error)
  : XmlExportResult * Completion XmlExportResult :=
  let result :=
    mkResult (xml result) (statistics result) (warnings result)
      (errors result ++ ["Export failed: " +:+ message error]) in
  (result, Throw error).

(** [exportModel]: what the caller observes (the settled promise) and the
    exporter state afterwards. *)
Definition exportModel (self : t) (elements : list BaseElement)
    (relationships : list Relationship) (options : XmlExportOptions)
  : Completion XmlExportResult * t :=
  match exportModel_try self elements relationships options with
  | (Returned result, self) => (Normal result, self)
  | (Caught result error, self) => ((exportModel_catch result error).2, self)
  end.

(** [exportToXml], the convenience function, on a given exporter. *)
Definition exportToXml (self : t) (elements : list BaseElement)
    (relationships : list Relationship) (options : XmlExportOptions)
  : Completion string :=
  result ← (exportModel self elements relationships options).1;
  if bool_decide (0 < length (errors result))%nat
  then Throw (mkError ("Export failed: " +:+ join ", " (errors result)))
  else Normal (xml result).

End WithHost.

End XmlExporter.

(** ** [src/xml-export/xml-validator.ts] *)

Module XmlValidator.

Inductive ErrorType :=
| schema | structure | reference | namespace | uniqueness.

Inductive WarningType := best_practice | compatibility | performance.

Record ValidationError := mkValidationError {
  ve_type : ErrorType;
  ve_line : option Z;
  ve_column : option Z;
  ve_message : string;
  ve_element : option string;
  ve_details : option string;
}.

Record ValidationWarning := mkValidationWarning {
  vw_type : WarningType;
  vw_line : option Z;
  vw_message : string;
  vw_suggestion : option string;
}.

Record ValidationResult := mkValidationResult {
  isValid : bool;
  errors : list ValidationError;
  warnings : list ValidationWarning;
}.

(** [result.errors.push(error); result.isValid = false] *)
Definition reject (result : ValidationResult) (error : ValidationError)
  : ValidationResult :=
  {| isValid := false;
     errors := errors result ++ [error];
     warnings := warnings result |}.

(** [validateModel(elements, relationships)] *)
Definition validateModel (elements : list BaseElement)
    (relationships : list Relationship) : ValidationResult :=
  let result := mkValidationResult true [] [] in
  (* Check element ID uniqueness *)
  let '(elementIds, result) :=
    foldl (fun '(elementIds, result) element =>
             if bool_decide (id element ∈ (elementIds : gset string))
             then (elementIds,
                   reject result
                     (mkValidationError uniqueness None None
                        ("Duplicate element ID: " +:+ id element)
                        (Some (name element)) None))
             else ({[id element]} ∪ elementIds, result))
          (∅, result) elements in
  (* Check relationship ID uniqueness *)
  let '(relationshipIds, result) :=
    foldl (fun '(relationshipIds, result) relationship =>
             if bool_decide (rel_id relationship ∈ (relationshipIds : gset string))
             then (relationshipIds,
                   reject result
                     (mkValidationError uniqueness None None
                        ("Duplicate relationship ID: " +:+ rel_id relationship)
                        None None))
             else ({[rel_id relationship]} ∪ relationshipIds, result))
          (∅, result) relationships in
  (* Check relationship references *)
  foldl (fun result relationship =>
           let result :=
             if negb (bool_decide (source relationship ∈ elementIds)) then
               reject result
                 (mkValidationError reference None None
                    ("Relationship references unknown source element: " +:+
                     source relationship)
                    (Some (rel_id relationship)) None)
             else result in
           if negb (bool_decide (target relationship ∈ elementIds)) then
             reject result
               (mkValidationError reference None None
                  ("Relationship references unknown target element: " +:+
                   target relationship)
                  (Some (rel_id relationship)) None)
           else result)
        result relationships.

End XmlValidator.

(** ** [src/server.ts]: reading the type names of a request *)

Module Server.

(** The keys of the two enums, as [Object.entries] lists them. *)
Definition ElementType_key (t : ElementType) : string :=
  match t with
  | STAKEHOLDER => "STAKEHOLDER"
  | DRIVER => "DRIVER"
  | ASSESSMENT => "ASSESSMENT"
  | GOAL => "GOAL"
  | OUTCOME => "OUTCOME"
  | PRINCIPLE => "PRINCIPLE"
  | REQUIREMENT => "REQUIREMENT"
  | CONSTRAINT => "CONSTRAINT"
  | MEANING => "MEANING"
  | VALUE => "VALUE"
  | RESOURCE => "RESOURCE"
  | CAPABILITY => "CAPABILITY"
  | COURSE_OF_ACTION => "COURSE_OF_ACTION"
  | VALUE_STREAM => "VALUE_STREAM"
  | BUSINESS_ACTOR => "BUSINESS_ACTOR"
  | BUSINESS_ROLE => "BUSINESS_ROLE"
  | BUSINESS_COLLABORATION => "BUSINESS_COLLABORATION"
  | BUSINESS_INTERFACE => "BUSINESS_INTERFACE"
  | BUSINESS_PROCESS => "BUSINESS_PROCESS"
  | BUSINESS_FUNCTION => "BUSINESS_FUNCTION"
  | BUSINESS_INTERACTION => "BUSINESS_INTERACTION"
  | BUSINESS_EVENT => "BUSINESS_EVENT"
  | BUSINESS_SERVICE => "BUSINESS_SERVICE"
  | BUSINESS_OBJECT => "BUSINESS_OBJECT"
  | CONTRACT => "CONTRACT"
  | REPRESENTATION => "REPRESENTATION"
  | PRODUCT => "PRODUCT"
  | APPLICATION_COMPONENT => "APPLICATION_COMPONENT"
  | APPLICATION_COLLABORATION => "APPLICATION_COLLABORATION"
  | APPLICATION_INTERFACE => "APPLICATION_INTERFACE"
  | APPLICATION_FUNCTION => "APPLICATION_FUNCTION"
  | APPLICATION_INTERACTION => "APPLICATION_INTERACTION"
  | APPLICATION_PROCESS => "APPLICATION_PROCESS"
  | APPLICATION_EVENT => "APPLICATION_EVENT"
  | APPLICATION_SERVICE => "APPLICATION_SERVICE"
  | DATA_OBJECT => "DATA_OBJECT"
  | NODE => "NODE"
  | DEVICE => "DEVICE"
  | SYSTEM_SOFTWARE => "SYSTEM_SOFTWARE"
  | TECHNOLOGY_COLLABORATION => "TECHNOLOGY_COLLABORATION"
  | TECHNOLOGY_INTERFACE => "TECHNOLOGY_INTERFACE"
  | PATH => "PATH"
  | COMMUNICATION_NETWORK => "COMMUNICATION_NETWORK"
  | TECHNOLOGY_FUNCTION => "TECHNOLOGY_FUNCTION"
  | TECHNOLOGY_PROCESS => "TECHNOLOGY_PROCESS"
  | TECHNOLOGY_INTERACTION => "TECHNOLOGY_INTERACTION"
  | TECHNOLOGY_EVENT => "TECHNOLOGY_EVENT"
  | TECHNOLOGY_SERVICE => "TECHNOLOGY_SERVICE"
  | ARTIFACT => "ARTIFACT"
  | EQUIPMENT => "EQUIPMENT"
  | FACILITY => "FACILITY"
  | DISTRIBUTION_NETWORK => "DISTRIBUTION_NETWORK"
  | MATERIAL => "MATERIAL"
  | LOCATION => "LOCATION"
  | WORK_PACKAGE => "WORK_PACKAGE"
  | DELIVERABLE => "DELIVERABLE"
  | IMPLEMENTATION_EVENT => "IMPLEMENTATION_EVENT"
  | PLATEAU => "PLATEAU"
  | GAP => "GAP"
  end.

Definition RelationshipType_key (t : RelationshipType) : string :=
  match t with
  | COMPOSITION => "COMPOSITION"
  | AGGREGATION => "AGGREGATION"
  | ASSIGNMENT => "ASSIGNMENT"
  | REALIZATION => "REALIZATION"
  | SERVING => "SERVING"
  | ACCESS => "ACCESS"
  | INFLUENCE => "INFLUENCE"
  | TRIGGERING => "TRIGGERING"
  | FLOW => "FLOW"
  | SPECIALIZATION => "SPECIALIZATION"
  | ASSOCIATION => "ASSOCIATION"
  | JUNCTION => "JUNCTION"
  end.

(** The characters the pattern [/[_\s-]/g] matches, among the code units
    below 256. *)
Definition isSeparator (c : ascii) : bool :=
  Ascii.eqb c "_" || Str.isWhiteSpace c || Ascii.eqb c "-".

(** [s.replace(/[_\s-]/g, '')] *)
Fixpoint removeSeparators (s : string) : string :=
  match s with
  | EmptyString => EmptyString
  | String c s' =>
      if isSeparator c then removeSeparators s'
      else String c (removeSeparators s')
  end.

(** [toLowerCase] on the code units below 256: the unaccented and the
    accented Latin capitals. *)
Definition lowerChar (c : ascii) : ascii :=
  let n := nat_of_ascii c in
  if ((65 <=? n)%nat && (n <=? 90)%nat) ||
     ((192 <=? n)%nat && (n <=? 222)%nat && negb (n =? 215)%nat)
  then ascii_of_nat (n + 32) else c.

Fixpoint toLowerCase (s : string) : string :=
  match s with
  | EmptyString => EmptyString
  | String c s' => String (lowerChar c) (toLowerCase s')
  end.

(** [type.replace(/[_\s-]/g, '').toLowerCase()] *)
Definition normalize (type : string) : string :=
  toLowerCase (removeSeparators type).

(** [levenshteinDistance].  The matrix is addressed as [matrix[j][i]];
    a cell that holds [null] is absent from the map, and [null] counts as
    [0] in the sums. *)

Definition cell (matrix : gmap (nat * nat) nat) (j i : nat) : nat :=
  default 0%nat (matrix !! (j, i)).

Definition levenshteinDistance (a b : string) : nat :=
  let matrix : gmap (nat * nat) nat := ∅ in
  let matrix :=
    foldl (fun matrix i => <[(0%nat, i) := i]> matrix) matrix
      (seq 0 (String.length a + 1)) in
  let matrix :=
    foldl (fun matrix j => <[(j, 0%nat) := j]> matrix) matrix
      (seq 0 (String.length b + 1)) in
  let matrix :=
    foldl (fun matrix j =>
             foldl (fun matrix i =>
                      let cost :=
                        if bool_decide (String.get (i - 1) a =
                                        String.get (j - 1) b)
                        then 0%nat else 1%nat in
                      <[(j, i) :=
                          Nat.min (cell matrix j (i - 1) + 1)
                            (Nat.min (cell matrix (j - 1) i + 1)
                               (cell matrix (j - 1) (i - 1) + cost))]> matrix)
                   matrix (seq 1 (String.length a)))
          matrix (seq 1 (String.length b)) in
  cell matrix (String.length b) (String.length a).

Section Parse.

(** [findSimilarElementTypes] and [findSimilarRelationshipTypes] rank the
    type names by a floating-point score; the suggestions they return
    only enter the message of the error. *)
Variable findSimilarElementTypes : string → list string.
Variable findSimilarRelationshipTypes : string → list string.

Definition didYouMean (suggestions : list string) : string :=
  if bool_decide (0 < length suggestions)%nat
  then "Did you mean: " +:+ join ", " suggestions +:+ "? "
  else "".

(** [parseElementType] *)
Definition parseElementType (type : string) : Completion ElementType :=
  let normalizedType := normalize type in
  match find (fun value =>
                String.eqb (normalize (ElementType_value value)) normalizedType ||
                String.eqb (toLowerCase (ElementType_key value)) normalizedType)
             ElementType_values with
  | Some value => Normal value
  | None =>
      let suggestions := findSimilarElementTypes type in
      let availableTypes :=
        join ", " (map ElementType_value (take 5 ElementType_values)) in
      Throw (mkError
               ("Unknown element type: " +:+ String "034" type +:+
                String "034" ". " +:+ didYouMean suggestions +:+
                "Use the list_archimate_elements tool to see all " +:+
                Number_toString (length ElementType_values) +:+
                " available types. " +:+
                "Popular types include: " +:+ availableTypes +:+ "..."))
  end.

(** [parseRelationshipType] *)
Definition parseRelationshipType (type : string)
  : Completion RelationshipType :=
  let normalizedType := normalize type in
  match find (fun value =>
                String.eqb (normalize (RelationshipType_value value))
                  normalizedType ||
                String.eqb (toLowerCase (RelationshipType_key value))
                  normalizedType)
             RelationshipType_values with
  | Some value => Normal value
  | None =>
      let suggestions := findSimilarRelationshipTypes type in
      let availableTypes :=
        join ", "
          (map RelationshipType_value (take 5 RelationshipType_values)) in
      Throw (mkError
               ("Unknown relationship type: " +:+ String "034" type +:+
                String "034" ". " +:+ didYouMean suggestions +:+
                "Use the list_archimate_relationships tool to see all " +:+
                Number_toString (length RelationshipType_values) +:+
                " available types. " +:+
                "Common types include: " +:+ availableTypes +:+ "..."))
  end.

End Parse.

End Server.

(** ** Concrete inputs used to exercise the definitions *)

Module Examples.

(** A host whose collation compares code units and whose template
    directory holds one-line templates. *)
Definition codeUnitCompare (a b : string) : Z :=
  match String.compare a b with
  | Lt => -1
  | Eq => 0
  | Gt => 1
  end.

Definition templates (templateName : string) : Completion string :=
  if decide (templateName = "element-template.xml") then
    Normal "<element xsi:type={{ELEMENT_TYPE}} name={{ELEMENT_NAME}} id={{ELEMENT_ID}}>{{ELEMENT_DOCUMENTATION}}</element>"
  else if decide (templateName = "relationship-template.xml") then
    Normal "<element xsi:type={{RELATIONSHIP_TYPE}} name={{RELATIONSHIP_NAME}} id={{RELATIONSHIP_ID}} source={{SOURCE_ID}} target={{TARGET_ID}}/>"
  else Throw (mkError ("ENOENT: no such file or directory, open " +:+ templateName)).

Definition host : Host :=
  {| localeCompare := codeUnitCompare; readFileSync := templates |}.

Definition customer : BaseElement :=
  mkElement "a" "Customer" BUSINESS_ACTOR BUSINESS.

Definition orderProcessing : BaseElement :=
  mkElement "b" "Order Processing" BUSINESS_PROCESS BUSINESS.

Definition satisfaction : BaseElement :=
  mkElement "g" "Customer satisfaction" GOAL MOTIVATION.

Definition billing : BaseElement :=
  mkElement "c" "Billing" APPLICATION_COMPONENT APPLICATION.

Definition triggers : Relationship := mkRelationship "r1" "a" "b" TRIGGERING.

Definition dangling : Relationship := mkRelationship "r2" "a" "zz" SERVING.

(** Two elements of different layers that share the id [x]. *)
Definition goalX : BaseElement := mkElement "x" "Goal" GOAL MOTIVATION.

Definition actorX : BaseElement := mkElement "x" "Actor" BUSINESS_ACTOR BUSINESS.

(** The name [A & B <C> "D" 'E']. *)
Definition markupName : string :=
  "A & B <C> " +:+ String "034" "D" +:+ String "034" " 'E'".

(** Export options: every optional field absent, validation as named. *)
Definition exportOptions (validate strict : bool) : XmlExporter.XmlExportOptions :=
  XmlExporter.mkExportOptions None None None None None None None
    validate strict false.

(** A model generator whose template cannot be read. *)
Definition failingGenerate (elements : list BaseElement)
    (relationships : list Relationship)
    (options : XmlExporter.ModelExportOptions) : Completion string :=
  Throw (mkError "Failed to load template model-template.xml: Error: ENOENT").

End Examples.

(** * Properties *)

(** ** JavaScript maps and sets *)

Section MapFacts.
Context `{Countable K} {V : Type}.

Lemma foldl_set_lookup_Some (entries : list (K * V)) (m0 : gmap K V) k v :
  foldl (fun m kv => <[kv.1 := kv.2]> m) m0 entries !! k = Some v →
  (k, v) ∈ entries ∨ m0 !! k = Some v.
Proof.
  revert m0. induction entries as [|[k' v'] entries IH]; intros m0; simpl.
  - by right.
  - intros Hl. destruct (IH _ Hl) as [Hin|Hm].
    + left. by right.
    + destruct (decide (k' = k)) as [->|Hne].
      * rewrite lookup_insert_eq in Hm. injection Hm as ->. left. by left.
      * rewrite lookup_insert_ne in Hm by done. by right.
Qed.

Lemma foldl_set_lookup_is_Some (entries : list (K * V)) (m0 : gmap K V) k :
  is_Some (foldl (fun m kv => <[kv.1 := kv.2]> m) m0 entries !! k) ↔
  k ∈ entries.*1 ∨ is_Some (m0 !! k).
Proof.
  revert m0. induction entries as [|[k' v'] entries IH]; intros m0; simpl.
  - rewrite elem_of_nil. tauto.
  - rewrite IH, elem_of_cons, lookup_insert_is_Some. simpl.
    destruct (decide (k' = k)); naive_solver.
Qed.

Lemma Map_from_lookup_Some (entries : list (K * V)) k v :
  Map_from entries !! k = Some v → (k, v) ∈ entries.
Proof.
  intros Hl. apply foldl_set_lookup_Some in Hl as [?|Hl]; [done|].
  by rewrite lookup_empty in Hl.
Qed.

Lemma Map_from_lookup_is_Some (entries : list (K * V)) k :
  is_Some (Map_from entries !! k) ↔ k ∈ entries.*1.
Proof.
  unfold Map_from. rewrite foldl_set_lookup_is_Some, lookup_empty.
  split; [intros [?|[? ?]]; done | by left].
Qed.

Lemma Map_setAll_lookup (src dst : gmap K V) k :
  Map_setAll src dst !! k = union_with (fun a _ => Some a) (src !! k) (dst !! k).
Proof.
  unfold Map_setAll.
  induction src as [|i a src Hi Hfold IH] using map_first_key_ind.
  - rewrite map_fold_empty, lookup_empty. by destruct (dst !! k).
  - rewrite map_fold_insert_first_key by done.
    destruct (decide (i = k)) as [->|Hne].
    + rewrite !lookup_insert_eq. by destruct (dst !! k).
    + by rewrite !lookup_insert_ne.
Qed.

Lemma Map_from_map_to_list (m : gmap K V) : Map_from (map_to_list m) = m.
Proof.
  apply map_eq. intros k. apply option_eq. intros v. split.
  - intros Hl%Map_from_lookup_Some. by apply elem_of_map_to_list.
  - intros Hl.
    assert (is_Some (Map_from (map_to_list m) !! k)) as [v' Hv'].
    { apply Map_from_lookup_is_Some, list_elem_of_fmap.
      exists (k, v). split; [done|]. by apply elem_of_map_to_list. }
    rewrite Hv'. apply Map_from_lookup_Some, elem_of_map_to_list in Hv'.
    congruence.
Qed.

End MapFacts.

Lemma Set_from_elem_of `{Countable K} (items : list K) k :
  k ∈ Set_from items ↔ k ∈ items.
Proof.
  unfold Set_from.
  assert (∀ s0 : gset K, k ∈ foldl (fun s k => {[k]} ∪ s) s0 items ↔
                         k ∈ items ∨ k ∈ s0) as Hgen.
  { induction items as [|i items IH]; intros s0; simpl.
    - rewrite elem_of_nil. tauto.
    - rewrite IH, elem_of_cons. set_solver. }
  rewrite Hgen. set_solver.
Qed.

(** ** The validator *)

Module ValidatorProofs.

Import Validator.

(** The id [i] resolves to [e]: [e] is the element of the input that
    carries the id [i] and, where several carry it, the last of them. *)
Definition resolves (elements : list BaseElement) (i : string)
    (e : BaseElement) : Prop :=
  last (filter (fun e => id e = i) elements) = Some e.

(** The Compatibility Matrix as the table it is: one entry per ordered
    pair of a source type and a target type, with the relationship types
    allowed from the one to the other.  The table is written down here
    from [validation_matrix.ts] a second time, as a plain list, so that
    what [validate] makes of its nested maps can be compared with it. *)
Definition matrixEntries
  : list (ElementType * ElementType * list RelationshipType) :=
  [ (BUSINESS_ACTOR, BUSINESS_ROLE, [ASSIGNMENT]);
    (APPLICATION_COMPONENT, APPLICATION_COMPONENT, [COMPOSITION; AGGREGATION]);
    (VALUE_STREAM, VALUE_STREAM, [COMPOSITION; AGGREGATION]);
    (LOCATION, LOCATION, [COMPOSITION; AGGREGATION]) ].

(** The matrix has the entry [allowed] for the ordered pair [(s, t)]. *)
Definition entryFor (s t : ElementType) (allowed : list RelationshipType)
  : Prop :=
  (s, t, allowed) ∈ matrixEntries.

(** The matrix denies [r] between [s] and [t]: it has no entry for the
    ordered pair, or its entry does not list [r]. *)
Definition denied (s t : ElementType) (r : RelationshipType) : Prop :=
  (∀ allowed, ¬ entryFor s t allowed) ∨
  ∃ allowed, entryFor s t allowed ∧ r ∉ allowed.

(** The entry of the table for a pair, found by scanning the list. *)
Definition entryOf (s t : ElementType) : option (list RelationshipType) :=
  snd <$> find (fun entry => bool_decide (entry.1 = (s, t))) matrixEntries.

Lemma entryOf_Some s t allowed :
  entryOf s t = Some allowed ↔ entryFor s t allowed.
Proof.
  unfold entryOf, entryFor, matrixEntries. cbn [find fst snd].
  repeat case_bool_decide; simplify_eq; cbn [fmap option_fmap option_map];
    rewrite ?elem_of_cons, ?elem_of_nil;
    (split; [intros [= <-]; tauto | intros Hin; destruct_or?; simplify_eq; done]).
Qed.

Lemma entryOf_None s t :
  entryOf s t = None ↔ ∀ allowed, ¬ entryFor s t allowed.
Proof.
  split.
  - intros Hnone allowed Hin%entryOf_Some. congruence.
  - intros Hno. destruct (entryOf s t) as [allowed|] eqn:He; [|done].
    apply entryOf_Some in He. by destruct (Hno allowed).
Qed.

Lemma every_type_listed (ty : ElementType) : ty ∈ ElementType_values.
Proof. apply (bool_decide_unpack _). destruct ty; by vm_compute. Qed.

(** What the nested lookup of [validate] returns is the entry of the
    table, for each of the 59 x 59 ordered pairs of types. *)
Lemma allowedRelationships_entryOf s t :
  allowedRelationships s t = entryOf s t.
Proof.
  assert (Forall (fun s => Forall (fun t => allowedRelationships s t = entryOf s t)
                             ElementType_values) ElementType_values) as Hall.
  { apply (bool_decide_unpack _). by vm_compute. }
  rewrite Forall_forall in Hall. specialize (Hall s (every_type_listed s)).
  rewrite Forall_forall in Hall. apply Hall, every_type_listed.
Qed.

Lemma elementMap_last elements i :
  Validator.elementMap elements !! i =
  last (filter (fun e => id e = i) elements).
Proof.
  unfold Validator.elementMap, Map_from.
  induction elements as [|e es IH] using rev_ind; [done|].
  rewrite map_app, foldl_app, filter_app. simpl.
  destruct (decide (id e = i)) as [Heq|Hne].
  - rewrite filter_cons_True, filter_nil by done.
    rewrite last_snoc. rewrite <- Heq. by rewrite lookup_insert_eq.
  - rewrite filter_cons_False, filter_nil, app_nil_r by done.
    by rewrite lookup_insert_ne.
Qed.

(** [elementMap.get(i)] is the element the id resolves to. *)
Lemma resolves_lookup elements i e :
  resolves elements i e ↔ elementMap elements !! i = Some e.
Proof. unfold resolves. by rewrite elementMap_last. Qed.

Lemma resolves_elem_of elements i e :
  resolves elements i e → e ∈ elements ∧ id e = i.
Proof.
  intros Hr%resolves_lookup%Map_from_lookup_Some.
  apply list_elem_of_fmap in Hr as (e' & [= -> ->] & Hin). done.
Qed.

Lemma resolves_iff_known elements i :
  (∃ e, resolves elements i e) ↔ i ∈ ids elements.
Proof.
  transitivity (is_Some (elementMap elements !! i)).
  { unfold is_Some. by setoid_rewrite resolves_lookup. }
  unfold elementMap, ids.
  change (is_Some (Map_from ((fun e => (id e, e)) <$> elements) !! i) ↔
          i ∈ id <$> elements).
  rewrite Map_from_lookup_is_Some, <- list_fmap_compose. done.
Qed.

Lemma validate_flat elements relationships :
  validate elements relationships =
  concat (map (validate_step (elementMap elements)) relationships).
Proof.
  unfold validate.
  assert (∀ acc, foldl (fun errors r =>
                          errors ++ validate_step (elementMap elements) r)
                   acc relationships =
                 acc ++ concat (map (validate_step (elementMap elements))
                                  relationships)) as Hgen.
  { induction relationships as [|r rs IH]; intros acc; simpl.
    - by rewrite app_nil_r.
    - by rewrite IH, app_assoc. }
  apply Hgen.
Qed.

Lemma validate_step_length m r : (length (validate_step m r) ≤ 1)%nat.
Proof.
  unfold validate_step.
  repeat (case_match; simpl; try lia).
Qed.

Lemma validate_step_resolved m r s t :
  m !! source r = Some s → m !! target r = Some t →
  (validate_step m r = [mkValidationError (invalid_message r s t) s t r] ∧
   denied (type s) (type t) (rel_type r)) ∨
  (validate_step m r = [] ∧ ¬ denied (type s) (type t) (rel_type r)).
Proof.
  intros Hs Ht. unfold validate_step, denied, includes. rewrite Hs, Ht.
  rewrite allowedRelationships_entryOf.
  destruct (entryOf (type s) (type t)) as [allowed|] eqn:Ha.
  - case_bool_decide as Hin.
    + right. split; [done|]. apply entryOf_Some in Ha as Hentry.
      intros [Hno|(a' & Ha'%entryOf_Some & Hn)]; [by destruct (Hno allowed)|].
      congruence.
    + left. split; [done|]. right. exists allowed.
      by apply entryOf_Some in Ha.
  - left. split; [done|]. left. by apply entryOf_None.
Qed.

(** C1. In [validate(elements, relationships)], each relationship [r]
    contributes its own segment of the returned list, of length at most
    one.  When the source and target ids of [r] are ids of input
    elements, they resolve to elements [s] and [t] of the input (the last
    ones carrying these ids) and the segment holds exactly one violation
    (about [s], [t] and [r]) if and only if the Compatibility Matrix, read
    as the table of its entries, has no entry for the ordered pair
    [(s.type, t.type)] or its entry does not list [r.type]; when the source
    or the target id is not the id of any input element, the segment is
    empty. *)
Theorem validate_reports_iff_denied
    (elements : list BaseElement) (before after : list Relationship)
    (r : Relationship) :
  ∃ contribution : list ValidationError,
    validate elements (before ++ r :: after) =
      validate elements before ++ contribution ++ validate elements after ∧
    (length contribution ≤ 1)%nat ∧
    (source r ∈ ids elements → target r ∈ ids elements →
     ∃ s t, resolves elements (source r) s ∧ resolves elements (target r) t ∧
            s ∈ elements ∧ t ∈ elements ∧
            (length contribution = 1%nat ↔
               denied (type s) (type t) (rel_type r)) ∧
            (denied (type s) (type t) (rel_type r) →
             contribution =
               [mkValidationError (invalid_message r s t) s t r])) ∧
    (source r ∉ ids elements ∨ target r ∉ ids elements →
     contribution = []).
Proof.
  exists (validate_step (elementMap elements) r). split; [|split; [|split]].
  - rewrite !validate_flat, map_app, concat_app. simpl. done.
  - apply validate_step_length.
  - intros [s Hs]%resolves_iff_known [t Ht]%resolves_iff_known.
    exists s, t. split; [done|]. split; [done|].
    split; [by apply resolves_elem_of in Hs as [? _]|].
    split; [by apply resolves_elem_of in Ht as [? _]|].
    apply resolves_lookup in Hs, Ht.
    destruct (validate_step_resolved _ r s t Hs Ht) as [[-> Hd]|[-> Hd]].
    + split; [done|]. done.
    + split; [|done]. simpl. split; [lia | done].
  - intros Hun. unfold validate_step.
    destruct (elementMap elements !! source r) as [s|] eqn:Hs; [|done].
    destruct (elementMap elements !! target r) as [t|] eqn:Ht; [|done].
    apply resolves_lookup in Hs, Ht.
    destruct Hun as [Hun|Hun]; exfalso; apply Hun, resolves_iff_known;
      eexists; eassumption.
Qed.

(** The matrix has no entry for (BusinessActor, BusinessProcess): the
    triggering relationship of the two-element model is reported; the
    assignment of an actor to a role is not. *)
Example validate_triggering_example :
  map ve_message
    (validate [Examples.customer; Examples.orderProcessing]
       [Examples.triggers; Examples.dangling]) =
  ["Invalid relationship type 'Triggering' between 'BusinessActor' and 'BusinessProcess'"].
Proof. by vm_compute. Qed.

Example validate_assignment_example :
  validate [Examples.customer; mkElement "r" "Clerk" BUSINESS_ROLE BUSINESS]
    [mkRelationship "r1" "a" "r" ASSIGNMENT] = [].
Proof. by vm_compute. Qed.

End ValidatorProofs.

(** ** The layout engine *)

Module LayoutProofs.

Import LayoutEngine.

Section WithHost.
Context `{Host}.

(** *** Grouping by layer *)

Lemma groupElementsByLayer_lookup (elements : list BaseElement) (l : Layer) :
  default [] (groupElementsByLayer elements !! l) =
  filter (fun e => layer e = l) elements.
Proof.
  unfold groupElementsByLayer.
  induction elements as [|e elements IH] using rev_ind; [done|].
  rewrite foldl_app, filter_app. simpl.
  set (g := foldl _ ∅ elements) in *.
  rewrite lookup_alter.
  destruct (decide (layer e = l)) as [Heq|Hne].
  - rewrite filter_cons_True, filter_nil by done. subst l.
    destruct (g !! layer e) as [old|] eqn:Hg.
    + rewrite Hg. simpl in *. by rewrite IH.
    + rewrite lookup_insert_eq. simpl in *. by rewrite <- IH.
  - rewrite filter_cons_False, filter_nil, app_nil_r by done.
    destruct (g !! layer e); [done|]. by rewrite lookup_insert_ne.
Qed.

(** *** Sorting *)

Lemma sortInsert_perm a l : sortInsert a l ≡ₚ a :: l.
Proof.
  induction l as [|b l IH]; simpl; [done|].
  case_match; [done|]. rewrite IH. apply Permutation_swap.
Qed.

Lemma sortByType_perm elements : sortByType elements ≡ₚ elements.
Proof.
  induction elements as [|a l IH]; simpl; [done|].
  by rewrite sortInsert_perm, IH.
Qed.

(** *** One layer *)

Lemma layer_fold_keys config y0 (es : list BaseElement) st i :
  is_Some (positions (foldl (layoutLayer_step config y0) st es) !! i) ↔
  i ∈ ids es ∨ is_Some (positions st !! i).
Proof.
  revert st. induction es as [|e es IH]; intros st; simpl.
  - rewrite elem_of_nil. tauto.
  - rewrite IH, elem_of_cons. simpl. rewrite lookup_insert_is_Some.
    destruct (decide (id e = i)); naive_solver.
Qed.


Lemma layer_fold_maxHeight config y0 (es : list BaseElement) st :
  maxHeight st ≤ maxHeight (foldl (layoutLayer_step config y0) st es).
Proof.
  revert st. induction es as [|e es IH]; intros st; simpl; [lia|].
  etrans; [|apply IH]. simpl. lia.
Qed.

Lemma layoutLayer_keys config es y0 i :
  is_Some (ll_positions (layoutLayer config es y0) !! i) ↔ i ∈ ids es.
Proof.
  unfold layoutLayer. simpl. rewrite layer_fold_keys. simpl.
  rewrite lookup_empty. unfold ids. rewrite (sortByType_perm es).
  split; [intros [?|[? ?]]; done | by left].
Qed.


Lemma layoutLayer_nextY config es y0 :
  y0 + layerVerticalSpacing config ≤ nextY (layoutLayer config es y0).
Proof.
  unfold layoutLayer. simpl.
  pose proof (layer_fold_maxHeight config y0 (sortByType es)
                (mkLayerState ∅ ∅ (viewportPadding config) 0)) as Hm.
  simpl in Hm. lia.
Qed.

(** *** The loop over the layers *)

Section Loop.
Variable config : LayoutConfiguration.
Variable elements : list BaseElement.
Hypothesis spacing_pos : 0 < layerVerticalSpacing config.

Let step := generateLayout_step config (groupElementsByLayer elements).

Lemma step_currentY st l : currentY st ≤ currentY (step st l).
Proof.
  unfold step, generateLayout_step. case_decide; [lia|]. cbn [currentY].
  pose proof (layoutLayer_nextY config
    (default [] (groupElementsByLayer elements !! l)) (currentY st)). lia.
Qed.

Lemma loop_currentY ls st : currentY st ≤ currentY (foldl step st ls).
Proof.
  revert st. induction ls as [|l ls IH]; intros st; simpl; [lia|].
  etrans; [apply (step_currentY st l)|apply IH].
Qed.




Hypothesis ids_distinct : NoDup (ids elements).

Lemma same_id_same_element e e' :
  e ∈ elements → e' ∈ elements → id e = id e' → e = e'.
Proof.
  intros He He' Hid.
  apply list_elem_of_lookup in He as [i Hi].
  apply list_elem_of_lookup in He' as [j Hj].
  assert (i = j) as ->; [|congruence].
  eapply NoDup_lookup; [exact ids_distinct| |];
    unfold ids; rewrite list_lookup_fmap; [by rewrite Hi|].
  by rewrite Hj, Hid.
Qed.



End Loop.






(** The relationships are not even read by the basic layout. *)
Lemma generateLayout_ignores_relationships config elements rs1 rs2 :
  generateLayout config elements rs1 = generateLayout config elements rs2.
Proof. reflexivity. Qed.


(** C5. The connection-aware entry point returns exactly what the basic
    layout returns on the same input: the same positions, the same
    dimensions and the same viewport size. *)
Theorem relationshipAware_equals_basic
    (config : LayoutConfiguration) (elements : list BaseElement)
    (relationships : list Relationship) :
  optimizeForConnections
    (elementPositions (generateLayout config elements relationships))
    (buildConnectionMap relationships)
    (elementDimensions (generateLayout config elements relationships)) =
    elementPositions (generateLayout config elements relationships) ∧
  generateRelationshipAwareLayout config elements relationships =
    generateLayout config elements relationships.
Proof.
  assert (∀ positions connections dimensions,
            optimizeForConnections positions connections dimensions
            = positions) as Hnoop.
  { intros. unfold optimizeForConnections. apply Map_from_map_to_list. }
  split; [apply Hnoop|].
  unfold generateRelationshipAwareLayout. rewrite Hnoop.
  by destruct (generateLayout config elements relationships).
Qed.

End WithHost.

Example generateLayout_example :
  map_to_list (elementPositions
    (generateLayout (H := Examples.host) (new emptyPartial)
       [Examples.customer; Examples.orderProcessing; Examples.satisfaction]
       [Examples.triggers])) ≡ₚ
  [("g", mkPosition 60 60); ("a", mkPosition 60 235);
   ("b", mkPosition 380 235)] ∧
  viewportSize
    (generateLayout (H := Examples.host) (new emptyPartial)
       [Examples.customer; Examples.orderProcessing; Examples.satisfaction]
       [Examples.triggers]) = mkViewportSize 600 475.
Proof. split; by vm_compute. Qed.




End LayoutProofs.

(** ** The view generator *)

Module ViewProofs.

Import LayoutEngine ViewXmlGenerator.

(** *** Geometry over the reals *)












(** *** Visual elements *)

Lemma visualElementMap_lookup_Some (ves : list VisualElement) i v :
  visualElementMap ves !! i = Some v → v ∈ ves ∧ elementRef v = i.
Proof.
  unfold visualElementMap.
  assert (∀ m0 : gmap string VisualElement,
            foldl (fun m ve => <[elementRef ve := ve]> m) m0 ves !! i = Some v →
            (v ∈ ves ∧ elementRef v = i) ∨ m0 !! i = Some v) as Hgen.
  { induction ves as [|w ves IH]; intros m0; simpl; [by right|].
    intros [[Hin Href]|Hm]%IH.
    - left. split; [by right|done].
    - destruct (decide (elementRef w = i)) as [Heq|Hne].
      + rewrite <- Heq, lookup_insert_eq in Hm. injection Hm as <-.
        left. split; [by left|done].
      + rewrite lookup_insert_ne in Hm by done. by right. }
  intros [?|Hm]%Hgen; [done|]. by rewrite lookup_empty in Hm.
Qed.

Lemma visualElementMap_is_Some (ves : list VisualElement) i :
  is_Some (visualElementMap ves !! i) ↔ i ∈ map elementRef ves.
Proof.
  unfold visualElementMap.
  assert (∀ m0 : gmap string VisualElement,
            is_Some (foldl (fun m ve => <[elementRef ve := ve]> m) m0 ves !! i) ↔
            i ∈ map elementRef ves ∨ is_Some (m0 !! i)) as Hgen.
  { induction ves as [|w ves IH]; intros m0; simpl.
    - rewrite elem_of_nil. tauto.
    - rewrite IH, elem_of_cons, lookup_insert_is_Some.
      destruct (decide (elementRef w = i)); naive_solver. }
  rewrite Hgen, lookup_empty. split; [intros [?|[? ?]]; done | by left].
Qed.

Lemma createVisualElements_refs self elements layoutResult :
  map elementRef (createVisualElements self elements layoutResult) =
  ids elements.
Proof.
  unfold createVisualElements, ids. rewrite map_map. done.
Qed.

(** *** Visual connections *)

Lemma mapM_Normal {A B} (f : A → Completion B) (l : list A) (ys : list B) :
  mapM f l = Normal ys ↔ Forall2 (fun a b => f a = Normal b) l ys.
Proof.
  revert ys. induction l as [|a l IH]; intros ys; simpl.
  - split; [intros [= <-]; constructor | by inversion 1].
  - destruct (f a) as [b|e] eqn:Hf; simpl.
    + destruct (mapM f l) as [bs|e] eqn:Hm; simpl.
      * split.
        -- intros [= <-]. constructor; [done|]. by apply IH.
        -- inversion 1 as [|? b' ? bs' Hb Hbs]; subst.
           apply IH in Hbs. congruence.
      * split; [done|]. inversion 1 as [|? b' ? bs' Hb Hbs]; subst.
        apply IH in Hbs. done.
    + split; [done|]. inversion 1; congruence.
Qed.

Lemma mapM_Throw {A B} (f : A → Completion B) (l : list A) (e : Error) :
  mapM f l = Throw e ↔
  ∃ before a after, l = before ++ a :: after ∧
                    Forall (fun a' => ∃ b, f a' = Normal b) before ∧
                    f a = Throw e.
Proof.
  induction l as [|a l IH].
  - split; [done|]. intros (before & a & after & Hl & _).
    by destruct before.
  - assert (mapM f (a :: l) =
            match f a with
            | Normal b =>
                match mapM f l with
                | Normal bs => Normal (b :: bs)
                | Throw e' => Throw e'
                end
            | Throw e' => Throw e'
            end) as -> by (simpl; destruct (f a); [destruct (mapM f l)|]; done).
    split.
    + destruct (f a) as [b|e'] eqn:Hf.
      * destruct (mapM f l) as [bs|e'] eqn:Hm; [done|].
        intros [= ->].
        destruct (proj1 IH eq_refl) as (before & a' & after & -> & Hall & Ha').
        exists (a :: before), a', after. split; [done|].
        split; [constructor; eauto|done].
      * intros [= ->]. exists [], a, l. by repeat split.
    + intros (before & a' & after & Hl & Hall & Ha').
      destruct before as [|a0 before]; simpl in Hl; injection Hl as <- ->.
      * by rewrite Ha'.
      * apply Forall_cons in Hall as [[b Hb] Hall]. rewrite Hb.
        assert (mapM f (before ++ a' :: after) = Throw e) as ->; [|done].
        apply IH. eauto 6.
Qed.



(** The relationship's two ends are ids of input elements. *)
Definition endsKnown (elements : list BaseElement) (r : Relationship) : Prop :=
  source r ∈ ids elements ∧ target r ∈ ids elements.

Definition missingVisualError (r : Relationship) : Error :=
  mkError ("Missing visual elements for relationship " +:+ rel_id r).

Lemma createVisualConnection_cases self elements layoutResult r :
  (endsKnown elements r ∧
   ∃ c, createVisualConnection
          (visualElementMap (createVisualElements self elements layoutResult))
          r = Normal c) ∨
  (¬ endsKnown elements r ∧
   createVisualConnection
     (visualElementMap (createVisualElements self elements layoutResult))
     r = Throw (missingVisualError r)).
Proof.
  set (elementMap :=
         visualElementMap (createVisualElements self elements layoutResult)).
  unfold createVisualConnection, endsKnown.
  pose proof (visualElementMap_is_Some
                (createVisualElements self elements layoutResult)) as Hsome.
  setoid_rewrite createVisualElements_refs in Hsome. fold elementMap in Hsome.
  destruct (elementMap !! source r) as [s|] eqn:Hs.
  - destruct (elementMap !! target r) as [t|] eqn:Ht.
    + left. split; [|by eexists].
      split; apply Hsome; [by rewrite Hs | by rewrite Ht].
    + right. split; [|done]. intros [_ Hin%Hsome].
      rewrite Ht in Hin. by destruct Hin.
  - right. split; [|done]. intros [Hin%Hsome _].
    rewrite Hs in Hin. by destruct Hin.
Qed.

(** C10. [createVisualElements] gives every element of the input array,
    in order, exactly one visual shape; where the layout has no position
    for the element's id the shape is placed at (100, 100), and where it
    has no dimensions the shape is 120 by 55.  Consequently the callback of
    [createVisualConnections] throws its "Missing visual elements" error
    for a relationship if and only if the relationship's source or target
    id is not the id of any input element, and the whole call throws
    exactly when some relationship is in that case, with the error of the
    first one. *)
Theorem shapes_and_missing_visuals
    (self : ViewXmlGenerator.t) (elements : list BaseElement)
    (layoutResult : LayoutResult) (relationships : list Relationship) :
  let visualElements := createVisualElements self elements layoutResult in
  Forall2 (fun e v =>
             elementRef v = id e ∧
             (ve_x v, ve_y v) =
               match elementPositions layoutResult !! id e with
               | Some p => (x p, y p)
               | None => (100, 100)
               end ∧
             (ve_width v, ve_height v) =
               match elementDimensions layoutResult !! id e with
               | Some d => (width d, height d)
               | None => (120, 55)
               end)
          elements visualElements ∧
  (∀ r, (∃ e, createVisualConnection (visualElementMap visualElements) r
              = Throw e) ↔
        (source r ∉ ids elements ∨ target r ∉ ids elements)) ∧
  (∀ r e, createVisualConnection (visualElementMap visualElements) r = Throw e →
          e = missingVisualError r) ∧
  (∀ e, createVisualConnections relationships visualElements = Throw e ↔
        ∃ before r after,
          relationships = before ++ r :: after ∧
          Forall (endsKnown elements) before ∧
          ¬ endsKnown elements r ∧
          e = missingVisualError r).
Proof.
  intros visualElements. unfold visualElements. clear visualElements.
  split; [|split; [|split]].
  - unfold createVisualElements.
    induction elements as [|e es IH]; simpl; constructor; [|done].
    split; [done|].
    by destruct (elementPositions layoutResult !! id e),
                (elementDimensions layoutResult !! id e).
  - intros r.
    destruct (createVisualConnection_cases self elements layoutResult r)
      as [[[Hs Ht] [c Hc]]|[Hn Hthrow]].
    + rewrite Hc. split; [by intros [? ?]|]. intros [?|?]; done.
    + split; [|by eexists]. intros _. unfold endsKnown in Hn.
      destruct (decide (source r ∈ ids elements)); [|by left].
      right. intros ?. by apply Hn.
  - intros r e He.
    destruct (createVisualConnection_cases self elements layoutResult r)
      as [[_ [c Hc]]|[_ Hthrow]]; congruence.
  - intros e. unfold createVisualConnections. rewrite mapM_Throw. split.
    + intros (before & r & after & -> & Hall & Hr).
      exists before, r, after. split; [done|]. split; [|split].
      * eapply Forall_impl; [exact Hall|]. intros r' [c Hc]. simpl in Hc.
        destruct (createVisualConnection_cases self elements layoutResult r')
          as [[Hk _]|[_ Hthrow]]; [done|congruence].
      * destruct (createVisualConnection_cases self elements layoutResult r)
          as [[_ [c Hc]]|[Hn _]]; [congruence|done].
      * destruct (createVisualConnection_cases self elements layoutResult r)
          as [[_ [c Hc]]|[_ Hthrow]]; congruence.
    + intros (before & r & after & -> & Hall & Hn & ->).
      exists before, r, after. split; [done|]. split.
      * eapply Forall_impl; [exact Hall|]. intros r' Hk. simpl.
        destruct (createVisualConnection_cases self elements layoutResult r')
          as [[_ Hc]|[Hn' _]]; done.
      * destruct (createVisualConnection_cases self elements layoutResult r)
          as [[Hk _]|[_ Hthrow]]; done.
Qed.

End ViewProofs.

(** ** XML escaping *)

Module EscapeProofs.

Import Str.

Lemma append_nil (b : string) : "" +:+ b = b.
Proof. reflexivity. Qed.

Lemma append_cons x (a b : string) : String x a +:+ b = String x (a +:+ b).
Proof. reflexivity. Qed.

Lemma append_nil_r (a : string) : a +:+ "" = a.
Proof. induction a as [|x a IH]; [done|]. by rewrite append_cons, IH. Qed.

Lemma string_app_assoc (a b c : string) : (a +:+ b) +:+ c = a +:+ (b +:+ c).
Proof.
  induction a as [|x a IH]; [done|]. by rewrite !append_cons, IH.
Qed.

Lemma replaceAllChar_app c repl a b :
  replaceAllChar c repl (a +:+ b) =
  replaceAllChar c repl a +:+ replaceAllChar c repl b.
Proof.
  induction a as [|x a IH]; [done|]. rewrite append_cons. simpl.
  destruct (Ascii.eqb x c); rewrite IH; [|done].
  by rewrite string_app_assoc.
Qed.

(** What one character becomes. *)
Definition escapeChar (apos : string) (c : ascii) : string :=
  if Ascii.eqb c "&" then "&amp;"
  else if Ascii.eqb c "<" then "&lt;"
  else if Ascii.eqb c ">" then "&gt;"
  else if Ascii.eqb c "034" then "&quot;"
  else if Ascii.eqb c "'" then apos
  else String c "".

Lemma escapeXmlWith_app apos a b :
  escapeXmlWith apos (a +:+ b) = escapeXmlWith apos a +:+ escapeXmlWith apos b.
Proof. unfold escapeXmlWith. by rewrite !replaceAllChar_app. Qed.

Lemma escapeXmlWith_char apos c :
  escapeXmlWith apos (String c "") = escapeChar apos c.
Proof.
  unfold escapeXmlWith, escapeChar. simpl.
  destruct (Ascii.eqb_spec c "&") as [->|H1]; [done|]. simpl.
  destruct (Ascii.eqb_spec c "<") as [->|H2]; [done|]. simpl.
  destruct (Ascii.eqb_spec c ">") as [->|H3]; [done|]. simpl.
  destruct (Ascii.eqb_spec c "034") as [->|H4]; [done|]. simpl.
  destruct (Ascii.eqb_spec c "'") as [->|H5]; simpl; [|done].
  apply append_nil_r.
Qed.

(** The chained replacements escape the text character by character. *)
Lemma escapeXmlWith_cons apos c text :
  escapeXmlWith apos (String c text) =
  escapeChar apos c +:+ escapeXmlWith apos text.
Proof.
  change (String c text) with (String c "" +:+ text).
  by rewrite escapeXmlWith_app, escapeXmlWith_char.
Qed.

(** *** Decoding

    The standard decoding of XML references in character data: the five
    predefined entities and decimal or hexadecimal character references
    (those below 256, the range of the characters modelled); a reference
    that is not recognised, or not terminated, is left as it is. *)

Definition digitValue (base : nat) (c : ascii) : option nat :=
  let n := nat_of_ascii c in
  let v :=
    if (48 <=? n)%nat && (n <=? 57)%nat then Some (n - 48)%nat
    else if (97 <=? n)%nat && (n <=? 102)%nat then Some (n - 87)%nat
    else if (65 <=? n)%nat && (n <=? 70)%nat then Some (n - 55)%nat
    else None in
  match v with
  | Some d => if (d <? base)%nat then Some d else None
  | None => None
  end.

Fixpoint numeralValue (base : nat) (acc : nat) (digits : string) : option nat :=
  match digits with
  | EmptyString => Some acc
  | String c digits' =>
      match digitValue base c with
      | Some d => numeralValue base (acc * base + d)%nat digits'
      | None => None
      end
  end.

Definition charOfCode (n : option nat) : option ascii :=
  match n with
  | Some n => if (n <? 256)%nat then Some (ascii_of_nat n) else None
  | None => None
  end.

(** The character a reference body (the text between [&] and [;]) denotes. *)
Definition referenceValue (body : string) : option ascii :=
  if String.eqb body "amp" then Some "&"%char
  else if String.eqb body "lt" then Some "<"%char
  else if String.eqb body "gt" then Some ">"%char
  else if String.eqb body "quot" then Some "034"%char
  else if String.eqb body "apos" then Some "'"%char
  else
    match body with
    | String "#" (String "x" (String d ds)) =>
        charOfCode (numeralValue 16 0 (String d ds))
    | String "#" (String d ds) => charOfCode (numeralValue 10 0 (String d ds))
    | _ => None
    end.

(** [pending] is the body read so far of a reference that has been opened
    by [&] and not yet closed by [;]. *)
Fixpoint decodeFrom (pending : option string) (s : string) : string :=
  match s, pending with
  | EmptyString, None => EmptyString
  | EmptyString, Some body => String "&" body
  | String c s', None =>
      if Ascii.eqb c "&" then decodeFrom (Some EmptyString) s'
      else String c (decodeFrom None s')
  | String c s', Some body =>
      if Ascii.eqb c ";" then
        match referenceValue body with
        | Some d => String d (decodeFrom None s')
        | None => String "&" body +:+ String ";" (decodeFrom None s')
        end
      else decodeFrom (Some (body +:+ String c "")) s'
  end.

Definition decodeEntities (s : string) : string := decodeFrom None s.

(** No raw markup: the characters [<], [>], the double quote and the
    apostrophe do not occur, and every [&] opens one of the references
    [&amp;], [&lt;], [&gt;], [&quot;], [&#39;], [&apos;]. *)
Definition opensReference (rest : string) : bool :=
  startsWith "amp;" rest || startsWith "lt;" rest ||
  startsWith "gt;" rest || startsWith "quot;" rest ||
  startsWith "#39;" rest || startsWith "apos;" rest.

Fixpoint noRawMarkup (s : string) : bool :=
  match s with
  | EmptyString => true
  | String c s' =>
      if Ascii.eqb c "<" || Ascii.eqb c ">" || Ascii.eqb c "034" ||
         Ascii.eqb c "'"
      then false
      else if Ascii.eqb c "&" then opensReference s' && noRawMarkup s'
      else noRawMarkup s'
  end.

Lemma noRawMarkup_no_special s c :
  noRawMarkup s = true → c ∈ list_ascii_of_string s →
  c ≠ "<"%char ∧ c ≠ ">"%char ∧ c ≠ "034"%char ∧ c ≠ "'"%char.
Proof.
  induction s as [|d s IH]; simpl; [by intros _ ?%elem_of_nil|].
  intros Hs [->|Hin]%elem_of_cons.
  - destruct (Ascii.eqb_spec d "<"), (Ascii.eqb_spec d ">"),
      (Ascii.eqb_spec d "034"), (Ascii.eqb_spec d "'"); done.
  - apply IH; [|done].
    destruct (_ || _); [done|].
    destruct (Ascii.eqb d "&"); [by apply andb_prop in Hs as [_ ?]|done].
Qed.

(** One escaped character in front of a text decodes to the character in
    front of the decoded text, and is free of raw markup when the text is. *)
Lemma decode_escapeChar c rest :
  decodeEntities (escapeChar "&#39;" c +:+ rest) =
  String c (decodeEntities rest).
Proof.
  unfold escapeChar, decodeEntities.
  destruct (Ascii.eqb_spec c "&") as [->|H1]; [reflexivity|].
  destruct (Ascii.eqb_spec c "<") as [->|H2]; [reflexivity|].
  destruct (Ascii.eqb_spec c ">") as [->|H3]; [reflexivity|].
  destruct (Ascii.eqb_spec c "034") as [->|H4]; [reflexivity|].
  destruct (Ascii.eqb_spec c "'") as [->|H5]; [reflexivity|].
  rewrite append_cons, append_nil. simpl.
  by destruct (Ascii.eqb_spec c "&").
Qed.

Lemma noRawMarkup_escapeChar c rest :
  noRawMarkup (escapeChar "&#39;" c +:+ rest) = noRawMarkup rest.
Proof.
  unfold escapeChar.
  destruct (Ascii.eqb_spec c "&") as [->|H1]; [reflexivity|].
  destruct (Ascii.eqb_spec c "<") as [->|H2]; [reflexivity|].
  destruct (Ascii.eqb_spec c ">") as [->|H3]; [reflexivity|].
  destruct (Ascii.eqb_spec c "034") as [->|H4]; [reflexivity|].
  destruct (Ascii.eqb_spec c "'") as [->|H5]; [reflexivity|].
  rewrite append_cons, append_nil. simpl.
  destruct (Ascii.eqb_spec c "<"), (Ascii.eqb_spec c ">"),
    (Ascii.eqb_spec c "034"), (Ascii.eqb_spec c "'"),
    (Ascii.eqb_spec c "&"); done.
Qed.

(** C8. The element generator's escaping round-trips: for every text the
    escaped form holds no raw markup-significant character, and decoding
    its references gives back exactly the text; in particular for the
    name [A & B <C> "D" 'E']. *)
Theorem escapeXml_round_trip :
  (∀ text : string,
     noRawMarkup (ElementXmlGenerator.escapeXml text) = true ∧
     decodeEntities (ElementXmlGenerator.escapeXml text) = text) ∧
  ElementXmlGenerator.escapeXml Examples.markupName =
    "A &amp; B &lt;C&gt; &quot;D&quot; &#39;E&#39;" ∧
  decodeEntities (ElementXmlGenerator.escapeXml Examples.markupName) =
    Examples.markupName.
Proof.
  split; [|split; vm_compute; reflexivity].
  intros text. unfold ElementXmlGenerator.escapeXml.
  induction text as [|c text [IHraw IHdec]]; [done|].
  rewrite escapeXmlWith_cons, noRawMarkup_escapeChar, decode_escapeChar.
  by rewrite IHdec.
Qed.

(** The fragment of the element named [A & B <C> "D" 'E']. *)
Example generateElement_markup_example :
  ElementXmlGenerator.generateElement (H := Examples.host)
    (mkElement "e1" Examples.markupName BUSINESS_OBJECT BUSINESS)
    (ElementXmlGenerator.mkElementOptions false None false) =
  Normal ("<element xsi:type=BusinessObject " +:+
          "name=A &amp; B &lt;C&gt; &quot;D&quot; &#39;E&#39; id=e1>" +:+
          "BusinessObject element: " +:+
          "A &amp; B &lt;C&gt; &quot;D&quot; &#39;E&#39;</element>").
Proof. by vm_compute. Qed.

(** [String.prototype.replace] with a string pattern replaces the first
    occurrence only and expands the [$] patterns of the replacement. *)
Example replace_first_example :
  replace "{{X}}" "v" "a{{X}}b{{X}}" = "avb{{X}}".
Proof. reflexivity. Qed.

Example replace_dollar_example :
  replace "{{X}}" "[$&|$$]" "a{{X}}b" = "a[{{X}}|$]b".
Proof. reflexivity. Qed.

End EscapeProofs.

(** ** The relationship generator *)

Module RelationshipProofs.

Import RelationshipXmlGenerator.

(** The error [validateRelationshipReferences] throws for a relationship
    with a dangling end: it names the relationship and the id that is
    missing, the source being checked first. *)
Definition danglingError (r : Relationship) (elements : list BaseElement)
  : Error :=
  if decide (source r ∈ ids elements) then
    mkError ("Relationship " +:+ rel_id r +:+
             " references non-existent target element: " +:+ target r)
  else
    mkError ("Relationship " +:+ rel_id r +:+
             " references non-existent source element: " +:+ source r).

Lemma validateRelationshipReferences_spec r elements :
  validateRelationshipReferences r elements =
  if decide (source r ∈ ids elements ∧ target r ∈ ids elements)
  then Normal ()
  else Throw (danglingError r elements).
Proof.
  unfold validateRelationshipReferences, danglingError.
  change (map id elements) with (ids elements).
  repeat case_bool_decide; repeat case_decide; simpl;
    rewrite ?Set_from_elem_of in *; try done; tauto.
Qed.

Section WithHost.
Context `{Host}.

Lemma loadTemplate_spec templateName :
  match readFileSync templateName with
  | Normal content => loadTemplate templateName = Normal content
  | Throw error =>
      loadTemplate templateName =
      Throw (mkError ("Failed to load template " +:+ templateName +:+ ": " +:+
                      Error_toString error))
  end.
Proof. unfold loadTemplate. by destruct (readFileSync templateName). Qed.

Lemma generateRelationship_dangling r options els :
  validateReferences options = true →
  source r ∉ ids els ∨ target r ∉ ids els →
  match readFileSync "relationship-template.xml" with
  | Normal _ =>
      generateRelationship r options (Some els) = Throw (danglingError r els)
  | Throw error =>
      generateRelationship r options (Some els) =
      Throw (mkError ("Failed to load template relationship-template.xml: " +:+
                      Error_toString error))
  end.
Proof.
  intros Hv Hdangling. unfold generateRelationship, loadTemplate.
  rewrite Hv, validateRelationshipReferences_spec.
  rewrite decide_False by tauto.
  by destruct (readFileSync _).
Qed.

Lemma generateRelationship_unchecked r options elements :
  validateReferences options = false ∨ elements = None →
  match readFileSync "relationship-template.xml" with
  | Normal _ => ∃ fragment, generateRelationship r options elements
                            = Normal fragment
  | Throw error =>
      generateRelationship r options elements =
      Throw (mkError ("Failed to load template relationship-template.xml: " +:+
                      Error_toString error))
  end.
Proof.
  intros Hoff. unfold generateRelationship, loadTemplate.
  destruct (readFileSync _) as [template|error]; [|done].
  destruct Hoff as [->| ->]; [destruct elements|]; by eexists.
Qed.

(** C7. With [validateReferences] requested and an element set supplied,
    a relationship whose source or target id is not the id of any supplied
    element makes [generateRelationship] throw instead of returning a
    fragment, and, the template file being readable, the error thrown is
    the one naming the relationship and the missing id.  When
    [validateReferences] is not requested or no element set is supplied,
    the call throws only if the template cannot be read: no reference
    error is raised. *)
Theorem dangling_reference_fails_hard
    (r : Relationship) (options : RelationshipGenerationOptions)
    (elements : option (list BaseElement)) :
  (∀ els, validateReferences options = true → elements = Some els →
          source r ∉ ids els ∨ target r ∉ ids els →
          (∃ e, generateRelationship r options elements = Throw e) ∧
          (∀ template,
             readFileSync "relationship-template.xml" = Normal template →
             generateRelationship r options elements =
             Throw (danglingError r els))) ∧
  (validateReferences options = false ∨ elements = None →
   match readFileSync "relationship-template.xml" with
   | Normal _ => ∃ fragment, generateRelationship r options elements
                             = Normal fragment
   | Throw error =>
       generateRelationship r options elements =
       Throw (mkError ("Failed to load template relationship-template.xml: " +:+
                       Error_toString error))
   end).
Proof.
  split.
  - intros els Hv -> Hdangling.
    pose proof (generateRelationship_dangling r options els Hv Hdangling) as Hg.
    destruct (readFileSync _) as [template|error].
    + split; [by eexists|]. by intros ? _.
    + split; [by eexists|]. by intros ? [=].
  - apply generateRelationship_unchecked.
Qed.

(** With the references validated and both ends known, a fragment is
    produced. *)
Lemma known_references_pass r options els template :
  readFileSync "relationship-template.xml" = Normal template →
  source r ∈ ids els → target r ∈ ids els →
  ∃ fragment, generateRelationship r options (Some els) = Normal fragment.
Proof.
  intros Ht Hs Htg. unfold generateRelationship, loadTemplate. rewrite Ht.
  rewrite validateRelationshipReferences_spec, decide_True by done.
  destruct (validateReferences options); by eexists.
Qed.

(** *** Generating several relationships

    The same holds for [generateRelationships], grouped or not: one
    dangling relationship anywhere in the array aborts the whole call. *)

Lemma appendRelationships_throws result rs options els r :
  validateReferences options = true → r ∈ rs →
  source r ∉ ids els ∨ target r ∉ ids els →
  ∃ e, appendRelationships result rs options (Some els) = Throw e.
Proof.
  intros Hv Hin Hdangling. revert result.
  induction rs as [|r0 rs IH]; intros result; [by apply elem_of_nil in Hin|].
  simpl. destruct (generateRelationship r0 options (Some els)) as [xml|e] eqn:Hg;
    [|by eexists].
  simpl. apply elem_of_cons in Hin as [->|Hin]; [|by apply IH].
  pose proof (generateRelationship_dangling r0 options els Hv Hdangling) as Hd.
  destruct (readFileSync _); congruence.
Qed.

Lemma groupRelationshipsByType_lookup (relationships : list Relationship) ty :
  default [] (groupRelationshipsByType relationships !! ty) =
  filter (fun r => rel_type r = ty) relationships.
Proof.
  unfold groupRelationshipsByType.
  induction relationships as [|r rs IH] using rev_ind; [done|].
  rewrite foldl_app, filter_app. simpl.
  set (g := foldl _ ∅ rs) in *.
  rewrite lookup_alter.
  destruct (decide (rel_type r = ty)) as [Heq|Hne].
  - rewrite filter_cons_True, filter_nil by done. subst ty.
    destruct (g !! rel_type r) as [old|] eqn:Hg.
    + rewrite Hg. simpl in *. by rewrite IH.
    + rewrite lookup_insert_eq. simpl in *. by rewrite <- IH.
  - rewrite filter_cons_False, filter_nil, app_nil_r by done.
    destruct (g !! rel_type r); [done|]. by rewrite lookup_insert_ne.
Qed.

Lemma appendGroups_cons result ty types groups options elements :
  appendGroups result (ty :: types) groups options elements =
  match groups !! ty with
  | Some (r :: rs) =>
      result' ← appendRelationships
                  (result +:+ String "010" "  <!-- " +:+
                   Str.toUpperCase (RelationshipType_value ty) +:+
                   " RELATIONSHIPS -->" +:+ String "010" "")
                  (r :: rs) options elements;
      appendGroups result' types groups options elements
  | _ => appendGroups result types groups options elements
  end.
Proof. reflexivity. Qed.

Lemma appendGroups_throws result types groups options els r :
  validateReferences options = true →
  rel_type r ∈ types → r ∈ default [] (groups !! rel_type r) →
  source r ∉ ids els ∨ target r ∉ ids els →
  ∃ e, appendGroups result types groups options (Some els) = Throw e.
Proof.
  intros Hv Hty Hin Hdangling. revert result.
  induction types as [|ty types IH]; intros result;
    [by apply elem_of_nil in Hty|].
  rewrite appendGroups_cons.
  destruct (decide (rel_type r = ty)) as [<-|Hne].
  - destruct (groups !! rel_type r) as [[|r0 rs]|]; simpl in Hin;
      try by apply elem_of_nil in Hin.
    match goal with
    | |- context [appendRelationships ?res (r0 :: rs) options (Some els)] =>
        destruct (appendRelationships_throws res (r0 :: rs) options els r
                    Hv Hin Hdangling) as [e He]
    end.
    rewrite He. by eexists.
  - apply elem_of_cons in Hty as [?|Hty]; [done|].
    destruct (groups !! ty) as [[|r0 rs]|]; try by apply IH.
    destruct (appendRelationships _ (r0 :: rs) options (Some els));
      [by apply IH | by eexists].
Qed.

Lemma generateRelationships_throws relationships options els r :
  validateReferences options = true → r ∈ relationships →
  source r ∉ ids els ∨ target r ∉ ids els →
  ∃ e, generateRelationships relationships options (Some els) = Throw e.
Proof.
  intros Hv Hin Hdangling. unfold generateRelationships.
  destruct relationships as [|r0 rs]; [by apply elem_of_nil in Hin|].
  destruct (groupByType options).
  - unfold generateRelationshipsGroupedByType.
    apply (appendGroups_throws _ _ _ _ _ r); try done.
    + unfold typeOrder. destruct (rel_type r); set_solver.
    + rewrite groupRelationshipsByType_lookup. by apply list_elem_of_filter.
  - by apply (appendRelationships_throws _ _ _ _ r).
Qed.

End WithHost.

Example dangling_target_example :
  generateRelationship (H := Examples.host) Examples.dangling
    (mkRelationshipOptions false true false false)
    (Some [Examples.customer; Examples.orderProcessing]) =
  Throw (mkError "Relationship r2 references non-existent target element: zz").
Proof. by vm_compute. Qed.

Example unchecked_dangling_example :
  generateRelationship (H := Examples.host) Examples.dangling
    (mkRelationshipOptions false false false false)
    (Some [Examples.customer; Examples.orderProcessing]) =
  Normal "<element xsi:type=Serving name= id=r2 source=a target=zz/>".
Proof. by vm_compute. Qed.

End RelationshipProofs.

(** ** The exporter *)

Module ExporterProofs.

Import XmlExporter.

(** *** The five checks, each with the message it produces *)

Definition emptyIssue (elements : list BaseElement) : list string :=
  if decide (length elements = 0%nat) then ["Model contains no elements"]
  else [].

Definition orphanIssue (elements : list BaseElement)
    (relationships : list Relationship) : list string :=
  let orphaned :=
    RelationshipXmlGenerator.findOrphanedRelationships relationships elements in
  if decide (0 < length orphaned)%nat
  then ["Found " +:+ Number_toString (length orphaned) +:+
        " orphaned relationships: " +:+ join ", " orphaned]
  else [].

Definition duplicateElementIssue (elements : list BaseElement) : list string :=
  let dups := duplicates (map id elements) in
  if decide (0 < length dups)%nat
  then ["Duplicate element IDs found: " +:+ join ", " dups]
  else [].

Definition duplicateRelationshipIssue (relationships : list Relationship)
  : list string :=
  let dups := duplicates (map rel_id relationships) in
  if decide (0 < length dups)%nat
  then ["Duplicate relationship IDs found: " +:+ join ", " dups]
  else [].

Definition blankNameIssue (elements : list BaseElement) : list string :=
  let blank := filter (fun e => unnamed e = true) elements in
  if decide (0 < length blank)%nat
  then ["Found " +:+ Number_toString (length blank) +:+
        " elements without names"]
  else [].

Lemma validateModelInputs_classified elements relationships strict :
  validateModelInputs elements relationships strict =
  ((if strict then [] else emptyIssue elements ++ orphanIssue elements relationships)
     ++ blankNameIssue elements,
   (if strict then emptyIssue elements ++ orphanIssue elements relationships
    else [])
     ++ duplicateElementIssue elements
     ++ duplicateRelationshipIssue relationships).
Proof.
  unfold validateModelInputs, emptyIssue, orphanIssue, duplicateElementIssue,
    duplicateRelationshipIssue, blankNameIssue.
  destruct strict; repeat case_decide; simpl; rewrite ?app_nil_r; done.
Qed.


Section WithHost.
Context `{Host}.
Variable generate :
  list BaseElement → list Relationship → ModelExportOptions → Completion string.




(** *** Failure of the document generation *)

Lemma exportModel_step3_throw self self' elements relationships options error :
  validateModel options && strictValidation options = false →
  configureVisualization self options = Normal self' →
  generate elements relationships (buildModelOptions options) = Throw error →
  exportModel generate self elements relationships options =
  (Throw error, self').
Proof.
  intros Hvs Hc Hg. unfold exportModel, exportModel_try.
  destruct (validateModel options), (strictValidation options);
    simpl in Hvs; try done; cbn [andb]; rewrite ?andb_false_r;
    by rewrite Hc, Hg.
Qed.

(** A failed generation never yields a result: partial documents are not
    returned. *)
Lemma failed_generation_returns_nothing self elements relationships options
    error :
  generate elements relationships (buildModelOptions options) = Throw error →
  ∃ e, (exportModel generate self elements relationships options).1 = Throw e.
Proof.
  intros Hg. unfold exportModel, exportModel_try.
  destruct (_ && _ && _); [by eexists|].
  destruct (configureVisualization self options); [|by eexists].
  rewrite Hg. by eexists.
Qed.

End WithHost.


(** The classification on a model with an orphaned relationship, a
    duplicate id and a blank name. *)
Lemma validation_classification_example :
  validateModelInputs
    [Examples.goalX; Examples.actorX; mkElement "n" "  " NODE TECHNOLOGY]
    [Examples.dangling] false =
  (["Found 1 orphaned relationships: r2"; "Found 1 elements without names"],
   ["Duplicate element IDs found: x"]) ∧
  validateModelInputs
    [Examples.goalX; Examples.actorX; mkElement "n" "  " NODE TECHNOLOGY]
    [Examples.dangling] true =
  (["Found 1 elements without names"],
   ["Found 1 orphaned relationships: r2"; "Duplicate element IDs found: x"]).
Proof. split; by vm_compute. Qed.

(** C9 at a failing input.  The model generator throws; the [catch]
    clause records ["Export failed: ..."] in the local [result], which is
    then dropped, and the caller receives the generator's error unchanged:
    its message carries no export-failed context. *)
Theorem step3_error_is_rethrown_unchanged :
  (exportModel (H := Examples.host) Examples.failingGenerate
     (XmlExporter.new None None) [Examples.customer] []
     (Examples.exportOptions true false)).1 =
    Throw (mkError "Failed to load template model-template.xml: Error: ENOENT") ∧
  ∃ result,
    (exportModel_try (H := Examples.host) Examples.failingGenerate
       (XmlExporter.new None None) [Examples.customer] []
       (Examples.exportOptions true false)).1 =
      Caught result
        (mkError "Failed to load template model-template.xml: Error: ENOENT") ∧
    errors (exportModel_catch result
              (mkError "Failed to load template model-template.xml: Error: ENOENT")).1 =
      ["Export failed: Failed to load template model-template.xml: Error: ENOENT"].
Proof.
  split; [by vm_compute|]. eexists. split; by vm_compute.
Qed.

End ExporterProofs.

(** * Further properties *)

(** ** The layout engine: coverage, rows and the viewport *)

Module LayoutExtra.

Import LayoutEngine LayoutProofs.


(** *** Dimensions of one element *)

Lemma getElementDimensions_bounds config e :
  width (defaultElementSize config) ≤ width (getElementDimensions config e) ∧
  height (defaultElementSize config) ≤ height (getElementDimensions config e) ∧
  (15 < Z.of_nat (String.length (name e)) →
   Z.of_nat (String.length (name e)) * 8 ≤ width (getElementDimensions config e)).
Proof.
  unfold getElementDimensions.
  destruct (15 <? Z.of_nat (String.length (name e))) eqn:Hlong;
    destruct (typeAdjustments !! ElementType_value (type e)); simpl;
    repeat split; try lia; intros Hlt;
    apply Z.ltb_ge in Hlong; lia.
Qed.

Section WithHost.
Context `{Host}.

(** *** One layer *)

(** The horizontal room the elements of [es] take, spacing included. *)
Definition advance (config : LayoutConfiguration) (es : list BaseElement) : Z :=
  foldr (fun e acc =>
           width (getElementDimensions config e) + elementSpacing config + acc)
        0 es.

Lemma advance_app config l1 l2 :
  advance config (l1 ++ l2) = advance config l1 + advance config l2.
Proof. induction l1 as [|e l1 IH]; simpl; lia. Qed.


Lemma layer_fold_currentX config y0 es st :
  currentX (foldl (layoutLayer_step config y0) st es) =
  currentX st + advance config es.
Proof.
  revert st. induction es as [|e es IH]; intros st; simpl; [lia|].
  rewrite IH. simpl. lia.
Qed.

Lemma layer_fold_other config y0 es st i :
  i ∉ ids es →
  positions (foldl (layoutLayer_step config y0) st es) !! i = positions st !! i ∧
  dimensions (foldl (layoutLayer_step config y0) st es) !! i = dimensions st !! i.
Proof.
  revert st. induction es as [|e es IH]; intros st Hi; simpl; [done|].
  apply not_elem_of_cons in Hi as [Hne Hi].
  destruct (IH (layoutLayer_step config y0 st e) Hi) as [-> ->]. simpl.
  by rewrite !lookup_insert_ne.
Qed.

Lemma layer_fold_at config y0 l1 e l2 st :
  id e ∉ ids l2 →
  positions (foldl (layoutLayer_step config y0) st (l1 ++ e :: l2)) !! id e =
    Some (mkPosition (currentX st + advance config l1) y0) ∧
  dimensions (foldl (layoutLayer_step config y0) st (l1 ++ e :: l2)) !! id e =
    Some (getElementDimensions config e).
Proof.
  intros Hfresh. rewrite foldl_app. simpl.
  destruct (layer_fold_other config y0 l2
              (layoutLayer_step config y0
                 (foldl (layoutLayer_step config y0) st l1) e)
              (id e) Hfresh) as [-> ->].
  simpl. rewrite !lookup_insert_eq, layer_fold_currentX. done.
Qed.

Lemma layer_fold_height config y0 es st e :
  e ∈ es →
  height (getElementDimensions config e) ≤
  maxHeight (foldl (layoutLayer_step config y0) st es).
Proof.
  revert st. induction es as [|e' es IH]; intros st Hin;
    [by apply elem_of_nil in Hin|].
  simpl. apply elem_of_cons in Hin as [->|Hin]; [|by apply IH].
  etrans; [|apply layer_fold_maxHeight]. simpl. lia.
Qed.

Lemma sortByType_NoDup es : NoDup (ids es) → NoDup (ids (sortByType es)).
Proof. unfold ids. by rewrite (sortByType_perm es). Qed.

(** Where [layoutLayer] puts an element of a layer whose ids are distinct:
    after the elements sorted before it, in the row [startY], with the
    dimensions [getElementDimensions] gives it. *)
Lemma layoutLayer_at config es startY e :
  NoDup (ids es) → e ∈ es →
  ∃ l1 l2,
    sortByType es = l1 ++ e :: l2 ∧
    ll_positions (layoutLayer config es startY) !! id e =
      Some (mkPosition (viewportPadding config + advance config l1) startY) ∧
    ll_dimensions (layoutLayer config es startY) !! id e =
      Some (getElementDimensions config e) ∧
    maxX (layoutLayer config es startY) =
      viewportPadding config + advance config l1 +
      width (getElementDimensions config e) + advance config l2 ∧
    startY + height (getElementDimensions config e) +
      layerVerticalSpacing config ≤ nextY (layoutLayer config es startY).
Proof.
  intros Hnd Hin.
  assert (e ∈ sortByType es) as Hs by (by rewrite sortByType_perm).
  apply list_elem_of_split in Hs as (l1 & l2 & Hsplit).
  exists l1, l2. split; [done|].
  pose proof (sortByType_NoDup es Hnd) as Hnd'. rewrite Hsplit in Hnd'.
  unfold ids in Hnd'. rewrite fmap_app, fmap_cons in Hnd'.
  apply NoDup_app in Hnd' as (_ & _ & Hnd'). apply NoDup_cons in Hnd' as [Hfresh _].
  unfold layoutLayer. cbn [ll_positions ll_dimensions maxX nextY]. rewrite Hsplit.
  destruct (layer_fold_at config startY l1 e l2
              (mkLayerState ∅ ∅ (viewportPadding config) 0) Hfresh) as [Hp Hd].
  cbn [currentX] in Hp. split; [done|]. split; [done|]. split.
  - rewrite layer_fold_currentX, advance_app. simpl. lia.
  - assert (e ∈ l1 ++ e :: l2) as Hmid by set_solver.
    pose proof (layer_fold_height config startY (l1 ++ e :: l2)
                  (mkLayerState ∅ ∅ (viewportPadding config) 0) e Hmid).
    lia.
Qed.

Lemma layer_fold_dimension_keys config y0 (es : list BaseElement) st i :
  is_Some (dimensions (foldl (layoutLayer_step config y0) st es) !! i) ↔
  i ∈ ids es ∨ is_Some (dimensions st !! i).
Proof.
  revert st. induction es as [|e es IH]; intros st; simpl.
  - rewrite elem_of_nil. tauto.
  - rewrite IH, elem_of_cons. simpl. rewrite lookup_insert_is_Some.
    destruct (decide (id e = i)); naive_solver.
Qed.

Lemma layoutLayer_dimension_keys config es y0 i :
  is_Some (ll_dimensions (layoutLayer config es y0) !! i) ↔ i ∈ ids es.
Proof.
  unfold layoutLayer. simpl. rewrite layer_fold_dimension_keys. simpl.
  rewrite lookup_empty. unfold ids. rewrite (sortByType_perm es).
  split; [intros [?|[? ?]]; done | by left].
Qed.

(** *** The loop over the layers *)

Section Loop.
Variable config : LayoutConfiguration.
Variable elements : list BaseElement.

Let step := generateLayout_step config (groupElementsByLayer elements).

(** The elements of layer [l], in input order. *)
Definition layerGroup (l : Layer) : list BaseElement :=
  filter (fun e => layer e = l) elements.

Lemma step_unfold st l :
  step st l =
  if decide (length (layerGroup l) = 0%nat) then st
  else
    let layerLayout := layoutLayer config (layerGroup l) (currentY st) in
    {| st_positions := Map_setAll (ll_positions layerLayout) (st_positions st);
       st_dimensions := Map_setAll (ll_dimensions layerLayout) (st_dimensions st);
       currentY := nextY layerLayout;
       maxWidth := Z.max (maxWidth st) (maxX layerLayout) |}.
Proof.
  unfold step, generateLayout_step, layerGroup.
  by rewrite groupElementsByLayer_lookup.
Qed.

Lemma group_ids l i :
  i ∈ ids (layerGroup l) ↔ ∃ e, e ∈ elements ∧ id e = i ∧ layer e = l.
Proof.
  unfold ids, layerGroup. rewrite list_elem_of_fmap. split.
  - intros (e & -> & [Hl He]%list_elem_of_filter). eauto.
  - intros (e & He & <- & Hl). exists e. split; [done|].
    by apply list_elem_of_filter.
Qed.

Lemma group_nonempty l e :
  e ∈ elements → layer e = l → length (layerGroup l) ≠ 0%nat.
Proof.
  intros He Hl Hlen. apply length_zero_iff_nil in Hlen.
  assert (e ∈ layerGroup l) as Hin by (by apply list_elem_of_filter).
  rewrite Hlen in Hin. by apply elem_of_nil in Hin.
Qed.

Lemma step_domain st l i :
  (is_Some (st_positions (step st l) !! i) ↔
   is_Some (st_positions st !! i) ∨
   ∃ e, e ∈ elements ∧ id e = i ∧ layer e = l) ∧
  (is_Some (st_dimensions (step st l) !! i) ↔
   is_Some (st_dimensions st !! i) ∨
   ∃ e, e ∈ elements ∧ id e = i ∧ layer e = l).
Proof.
  rewrite step_unfold. case_decide as Hlen.
  - assert (¬ ∃ e, e ∈ elements ∧ id e = i ∧ layer e = l) as Hno.
    { intros (e & He & _ & Hl). by eapply group_nonempty. }
    tauto.
  - cbn [st_positions st_dimensions]. rewrite !Map_setAll_lookup.
    rewrite <- group_ids.
    pose proof (layoutLayer_keys config (layerGroup l) (currentY st) i) as Hp.
    pose proof (layoutLayer_dimension_keys config (layerGroup l) (currentY st) i)
      as Hd.
    split.
    + rewrite <- Hp.
      destruct (ll_positions _ !! i), (st_positions st !! i); simpl;
        split; try (intros [Hx|Hx]); eauto; by apply is_Some_None in Hx.
    + rewrite <- Hd.
      destruct (ll_dimensions _ !! i), (st_dimensions st !! i); simpl;
        split; try (intros [Hx|Hx]); eauto; by apply is_Some_None in Hx.
Qed.

Lemma loop_domain ls st i :
  (is_Some (st_positions (foldl step st ls) !! i) ↔
   is_Some (st_positions st !! i) ∨
   ∃ e, e ∈ elements ∧ id e = i ∧ layer e ∈ ls) ∧
  (is_Some (st_dimensions (foldl step st ls) !! i) ↔
   is_Some (st_dimensions st !! i) ∨
   ∃ e, e ∈ elements ∧ id e = i ∧ layer e ∈ ls).
Proof.
  revert st. induction ls as [|l ls IH]; intros st; simpl.
  - split; (split; [by left|]); intros [?|(e & _ & _ & Hl)]; try done;
      by apply elem_of_nil in Hl.
  - destruct (IH (step st l)) as [IHp IHd].
    destruct (step_domain st l i) as [Hp Hd].
    rewrite IHp, IHd, Hp, Hd.
    split; (split;
      [intros [[?|(e & ? & ? & ?)]|(e & ? & ? & ?)];
         [by left | right; exists e; set_solver | right; exists e; set_solver]
      |intros [?|(e & ? & ? & [?|?]%elem_of_cons)];
         [by left; left | left; right; eauto | right; eauto]]).
Qed.

Lemma step_keeps st l i :
  (∀ e, e ∈ elements → id e = i → layer e ≠ l) →
  st_positions (step st l) !! i = st_positions st !! i ∧
  st_dimensions (step st l) !! i = st_dimensions st !! i.
Proof.
  intros Hfresh. rewrite step_unfold. case_decide; [done|].
  cbn [st_positions st_dimensions]. rewrite !Map_setAll_lookup.
  assert (i ∉ ids (layerGroup l)) as Hno.
  { intros (e & He & Hi & Hl)%group_ids. by eapply Hfresh. }
  assert (ll_positions (layoutLayer config (layerGroup l) (currentY st)) !! i
          = None) as ->.
  { apply eq_None_not_Some. by rewrite layoutLayer_keys. }
  assert (ll_dimensions (layoutLayer config (layerGroup l) (currentY st)) !! i
          = None) as ->.
  { apply eq_None_not_Some. by rewrite layoutLayer_dimension_keys. }
  by destruct (st_positions st !! i), (st_dimensions st !! i).
Qed.

Lemma loop_keeps ls st i :
  (∀ e, e ∈ elements → id e = i → layer e ∉ ls) →
  st_positions (foldl step st ls) !! i = st_positions st !! i ∧
  st_dimensions (foldl step st ls) !! i = st_dimensions st !! i.
Proof.
  revert st. induction ls as [|l ls IH]; intros st Hfresh; simpl; [done|].
  destruct (IH (step st l)) as [-> ->].
  { intros e He Hi Hin. apply (Hfresh e He Hi). by right. }
  apply step_keeps. intros e He Hi Hl. apply (Hfresh e He Hi). rewrite Hl.
  by left.
Qed.

Lemma step_grows st l :
  0 ≤ layerVerticalSpacing config →
  currentY st ≤ currentY (step st l) ∧ maxWidth st ≤ maxWidth (step st l).
Proof.
  intros Hsp. rewrite step_unfold. case_decide; [lia|].
  cbn [currentY maxWidth].
  pose proof (layoutLayer_nextY config (layerGroup l) (currentY st)). lia.
Qed.

Lemma loop_grows ls st :
  0 ≤ layerVerticalSpacing config →
  currentY st ≤ currentY (foldl step st ls) ∧
  maxWidth st ≤ maxWidth (foldl step st ls).
Proof.
  intros Hsp. revert st. induction ls as [|l ls IH]; intros st; simpl; [lia|].
  pose proof (step_grows st l Hsp). pose proof (IH (step st l)). lia.
Qed.

(** The layout of one layer survives in the final state: some row [Y] is
    such that every element of the layer has, at the end, the position and
    the dimensions [layoutLayer] gives it in row [Y]. *)
Lemma loop_embeds ls st l :
  NoDup ls → NoDup (ids elements) → l ∈ ls → length (layerGroup l) ≠ 0%nat →
  ∃ Y,
    (∀ e, e ∈ elements → layer e = l →
       st_positions (foldl step st ls) !! id e =
         ll_positions (layoutLayer config (layerGroup l) Y) !! id e ∧
       st_dimensions (foldl step st ls) !! id e =
         ll_dimensions (layoutLayer config (layerGroup l) Y) !! id e) ∧
    (0 ≤ layerVerticalSpacing config →
       currentY st ≤ Y ∧
       nextY (layoutLayer config (layerGroup l) Y) ≤ currentY (foldl step st ls) ∧
       maxX (layoutLayer config (layerGroup l) Y) ≤ maxWidth (foldl step st ls)).
Proof.
  intros Hnd Hids Hl Hlen. revert st.
  induction ls as [|l0 ls IH]; intros st; [by apply elem_of_nil in Hl|].
  apply NoDup_cons in Hnd as [Hfresh Hnd]. cbn [foldl].
  destruct (decide (l0 = l)) as [->|Hne].
  - exists (currentY st). split.
    + intros e He Hle.
      destruct (loop_keeps ls (step st l) (id e)) as [-> ->].
      { intros e' He' Hid.
        rewrite (same_id_same_element elements Hids e' e He' He Hid).
        by rewrite Hle. }
      assert (id e ∈ ids (layerGroup l)) as Hin by (apply group_ids; eauto).
      pose proof (proj2 (layoutLayer_keys config (layerGroup l) (currentY st)
                           (id e)) Hin) as [p Hp].
      pose proof (proj2 (layoutLayer_dimension_keys config (layerGroup l)
                           (currentY st) (id e)) Hin) as [d Hd].
      rewrite step_unfold, decide_False by done. cbv zeta.
      set (LL := layoutLayer config (layerGroup l) (currentY st)) in *.
      cbn [st_positions st_dimensions]. rewrite !Map_setAll_lookup, Hp, Hd.
      by destruct (st_positions st !! id e), (st_dimensions st !! id e).
    + intros Hsp. split; [lia|].
      pose proof (loop_grows ls (step st l) Hsp) as [Hy Hw].
      assert (currentY (step st l) =
                nextY (layoutLayer config (layerGroup l) (currentY st)) ∧
              maxWidth (step st l) =
                Z.max (maxWidth st)
                  (maxX (layoutLayer config (layerGroup l) (currentY st))))
        as [Hy' Hw'] by (by rewrite step_unfold, decide_False by done).
      lia.
  - apply elem_of_cons in Hl as [?|Hl]; [done|].
    destruct (IH Hnd Hl (step st l0)) as (Y & Hmaps & Hbounds).
    exists Y. split; [done|]. intros Hsp.
    pose proof (step_grows st l0 Hsp). specialize (Hbounds Hsp). lia.
Qed.

Lemma loop_skips ls st :
  (∀ e, e ∈ elements → layer e ∉ ls) → foldl step st ls = st.
Proof.
  revert st. induction ls as [|l ls IH]; intros st Hno; simpl; [done|].
  rewrite step_unfold, decide_True.
  - apply IH. intros e He Hin. apply (Hno e He). by right.
  - destruct (layerGroup l) as [|e0 g] eqn:Hg; [done|]. exfalso.
    assert (e0 ∈ layerGroup l) as Hin by (rewrite Hg; by left).
    apply list_elem_of_filter in Hin as [Hl He].
    apply (Hno e0 He). rewrite Hl. by left.
Qed.

Lemma group_NoDup l : NoDup (ids elements) → NoDup (ids (layerGroup l)).
Proof.
  intros Hnd. apply (sublist_NoDup _ (ids elements)); [done|].
  unfold ids, layerGroup. apply fmap_sublist, sublist_filter.
Qed.

End Loop.

(** X1. The layout has a position, and dimensions, for exactly the ids of
    the input elements whose layer occurs in the configured layer order. *)
Theorem layout_covers_elements
    (config : LayoutConfiguration) (elements : list BaseElement)
    (relationships : list Relationship) (i : string) :
  (is_Some (elementPositions (generateLayout config elements relationships) !! i)
   ↔ ∃ e, e ∈ elements ∧ id e = i ∧ layer e ∈ layerOrder config) ∧
  (is_Some (elementDimensions (generateLayout config elements relationships) !! i)
   ↔ ∃ e, e ∈ elements ∧ id e = i ∧ layer e ∈ layerOrder config).
Proof.
  unfold generateLayout. cbn [elementPositions elementDimensions].
  destruct (loop_domain config elements (layerOrder config)
              (mkLayoutState ∅ ∅ (viewportPadding config) 0) i) as [-> ->].
  cbn [st_positions st_dimensions]. rewrite !lookup_empty.
  split; (split; [intros [[? ?]|?]; done | by right]).
Qed.

(** X2. When no input element lies in a configured layer (in particular
    for the empty model) the layout is empty and the viewport is the bare
    padding: [padding] wide and twice [padding] high. *)
Theorem layout_without_placed_elements
    (config : LayoutConfiguration) (elements : list BaseElement)
    (relationships : list Relationship) :
  (∀ e, e ∈ elements → layer e ∉ layerOrder config) →
  generateLayout config elements relationships =
  {| elementPositions := ∅;
     elementDimensions := ∅;
     viewportSize :=
       {| vp_width := 0 + viewportPadding config;
          vp_height := viewportPadding config + viewportPadding config |} |}.
Proof.
  intros Hno. unfold generateLayout. by rewrite loop_skips.
Qed.

(** X3. With distinct ids and a layer order without repetition, the
    dimensions recorded for an element are those [getElementDimensions]
    computes: never below the default size, and at least eight units per
    character for a name longer than fifteen characters. *)
Theorem layout_records_dimensions
    (config : LayoutConfiguration) (elements : list BaseElement)
    (relationships : list Relationship) (e : BaseElement) :
  NoDup (layerOrder config) → NoDup (ids elements) →
  e ∈ elements → layer e ∈ layerOrder config →
  ∃ d,
    elementDimensions (generateLayout config elements relationships) !! id e
      = Some d ∧
    d = getElementDimensions config e ∧
    width (defaultElementSize config) ≤ width d ∧
    height (defaultElementSize config) ≤ height d ∧
    (15 < Z.of_nat (String.length (name e)) →
     Z.of_nat (String.length (name e)) * 8 ≤ width d).
Proof.
  intros Hnd Hids He Hl.
  destruct (loop_embeds config elements (layerOrder config)
              (mkLayoutState ∅ ∅ (viewportPadding config) 0) (layer e)
              Hnd Hids Hl (group_nonempty elements (layer e) e He eq_refl))
    as (Y & Hmaps & _).
  destruct (Hmaps e He eq_refl) as [_ Hd].
  destruct (layoutLayer_at config (layerGroup elements (layer e)) Y e)
    as (l1 & l2 & _ & _ & Hd' & _).
  { by apply group_NoDup. }
  { by apply list_elem_of_filter. }
  exists (getElementDimensions config e).
  unfold generateLayout. cbn [elementDimensions]. rewrite Hd, Hd'.
  split; [done|]. split; [done|]. apply getElementDimensions_bounds.
Qed.



End WithHost.

(** Closed decidable side conditions are settled by evaluation. *)
Ltac by_evaluation := apply (bool_decide_unpack _); vm_compute; exact I.

Lemma layout_without_placed_elements_witness :
  generateLayout (H := Examples.host) (new emptyPartial) [] [Examples.triggers] =
  {| elementPositions := ∅;
     elementDimensions := ∅;
     viewportSize := {| vp_width := 0 + 60; vp_height := 60 + 60 |} |}.
Proof.
  apply (layout_without_placed_elements (H := Examples.host)).
  intros e He. by apply elem_of_nil in He.
Defined.

Lemma layout_records_dimensions_witness :
  ∃ d,
    elementDimensions
      (generateLayout (H := Examples.host) (new emptyPartial)
         [Examples.customer; Examples.orderProcessing; Examples.satisfaction]
         [Examples.triggers]) !! id Examples.satisfaction = Some d ∧
    d = getElementDimensions (new emptyPartial) Examples.satisfaction ∧
    width (defaultElementSize (new emptyPartial)) ≤ width d ∧
    height (defaultElementSize (new emptyPartial)) ≤ height d ∧
    (15 < Z.of_nat (String.length (name Examples.satisfaction)) →
     Z.of_nat (String.length (name Examples.satisfaction)) * 8 ≤ width d).
Proof.
  apply (layout_records_dimensions (H := Examples.host)); by_evaluation.
Defined.



(** *** The connection map *)

Lemma connection_step_lookup (m : gmap string (gset string)) s t a :
  default ∅
    (alter (fun c => {[s]} ∪ c) t
       (alter (fun c => {[t]} ∪ c) s
          (match (match m !! s with
                  | Some _ => m
                  | None => <[s := ∅]> m
                  end) !! t with
           | Some _ => match m !! s with
                       | Some _ => m
                       | None => <[s := ∅]> m
                       end
           | None => <[t := ∅]> (match m !! s with
                                 | Some _ => m
                                 | None => <[s := ∅]> m
                                 end)
           end)) !! a) =
  (if decide (a = t) then {[s]} else ∅) ∪
  (if decide (a = s) then {[t]} else ∅) ∪ default ∅ (m !! a).
Proof.
  set (m1 := match m !! s with Some _ => m | None => <[s := ∅]> m end).
  assert (default ∅ (m1 !! a) = default ∅ (m !! a) ∧ is_Some (m1 !! s))
    as [H1 H1s].
  { unfold m1. destruct (m !! s) as [c|] eqn:Hs; [by rewrite Hs|].
    rewrite lookup_insert_eq. split; [|done].
    destruct (decide (s = a)) as [<-|?];
      [by rewrite lookup_insert_eq, Hs | by rewrite lookup_insert_ne]. }
  set (m2 := match m1 !! t with Some _ => m1 | None => <[t := ∅]> m1 end).
  assert (default ∅ (m2 !! a) = default ∅ (m1 !! a) ∧
          is_Some (m2 !! s) ∧ is_Some (m2 !! t)) as (H2 & H2s & H2t).
  { unfold m2. destruct (m1 !! t) as [c|] eqn:Ht; [by rewrite Ht|].
    rewrite lookup_insert_eq. split; [|split; [|done]].
    - destruct (decide (t = a)) as [<-|?];
        [by rewrite lookup_insert_eq, Ht | by rewrite lookup_insert_ne].
    - rewrite lookup_insert_is_Some. destruct (decide (t = s)); eauto. }
  rewrite !lookup_alter, <- H1, <- H2.
  destruct H2s as [cs Hcs], H2t as [ct Hct].
  repeat case_decide; simplify_eq; rewrite ?Hcs, ?Hct; simpl;
    try (destruct (m2 !! a)); simpl; set_solver.
Qed.

Lemma connection_fold_lookup relationships a b :
  b ∈ default ∅ (buildConnectionMap relationships !! a) ↔
  ∃ r, r ∈ relationships ∧
       ((source r = a ∧ target r = b) ∨ (target r = a ∧ source r = b)).
Proof.
  unfold buildConnectionMap.
  induction relationships as [|r rs IH] using rev_ind.
  - simpl. rewrite lookup_empty. simpl. split; [set_solver|].
    intros (r & Hr & _). by apply elem_of_nil in Hr.
  - rewrite foldl_app. cbn [foldl].
    rewrite connection_step_lookup, !elem_of_union, IH.
    split.
    + intros [[Hb|Hb]|(r' & Hr' & Hcase)].
      * case_decide; [|set_solver]. exists r. set_solver.
      * case_decide; [|set_solver]. exists r. set_solver.
      * exists r'. set_solver.
    + intros (r' & [Hr'|Hr']%elem_of_app & Hcase).
      * right. eauto.
      * apply list_elem_of_singleton in Hr' as ->.
        destruct Hcase as [[<- <-]|[<- <-]].
        -- left. right. rewrite decide_True by done. set_solver.
        -- left. left. rewrite decide_True by done. set_solver.
Qed.

(** X6. The connection map is symmetric and holds exactly the pairs that
    some relationship joins, in either direction. *)
Theorem connection_map_symmetric
    (relationships : list Relationship) (a b : string) :
  (b ∈ default ∅ (buildConnectionMap relationships !! a) ↔
   ∃ r, r ∈ relationships ∧
        ((source r = a ∧ target r = b) ∨ (target r = a ∧ source r = b))) ∧
  (b ∈ default ∅ (buildConnectionMap relationships !! a) ↔
   a ∈ default ∅ (buildConnectionMap relationships !! b)).
Proof.
  split; [apply connection_fold_lookup|].
  rewrite !connection_fold_lookup. split; intros (r & Hr & Hcase);
    exists r; tauto.
Qed.

End LayoutExtra.

(** ** The view generator: shapes, connections and their references *)

Module ViewExtra.

Import LayoutEngine ViewXmlGenerator ViewProofs.

Lemma createVisualElements_ids self elements layoutResult :
  map ve_id (createVisualElements self elements layoutResult) =
  map (fun e => "visual-" +:+ id e) elements.
Proof. unfold createVisualElements. by rewrite map_map. Qed.

Lemma createVisualElements_id_ref self elements layoutResult v :
  v ∈ createVisualElements self elements layoutResult →
  ve_id v = "visual-" +:+ elementRef v.
Proof.
  unfold createVisualElements. intros (e & -> & _)%list_elem_of_fmap. done.
Qed.

Lemma createVisualConnection_Normal elementMap r c :
  createVisualConnection elementMap r = Normal c →
  ∃ s t, elementMap !! source r = Some s ∧ elementMap !! target r = Some t ∧
         relationshipRef c = rel_id r ∧ vc_id c = "connection-" +:+ rel_id r ∧
         vc_source c = ve_id s ∧ vc_target c = ve_id t.
Proof.
  unfold createVisualConnection.
  destruct (elementMap !! source r) as [s|]; [|done].
  destruct (elementMap !! target r) as [t|]; [|done].
  intros [= <-]. exists s, t. done.
Qed.

Lemma connections_succeed_iff self elements layoutResult relationships :
  (∃ cs, createVisualConnections relationships
           (createVisualElements self elements layoutResult) = Normal cs) ↔
  Forall (endsKnown elements) relationships.
Proof.
  destruct (createVisualConnections relationships
              (createVisualElements self elements layoutResult))
    as [cs|e] eqn:Hc.
  - split; [intros _|by eexists].
    apply mapM_Normal in Hc. apply Forall_forall. intros r Hr.
    apply list_elem_of_lookup in Hr as [k Hk].
    destruct (Forall2_lookup_l _ _ _ _ _ Hc Hk) as (c & _ & Hcr).
    destruct (createVisualConnection_cases self elements layoutResult r)
      as [[Hk' _]|[_ Hthrow]]; [done|congruence].
  - split; [by intros [? ?]|]. intros Hall. exfalso.
    apply mapM_Throw in Hc as (before & r & after & -> & _ & Hr).
    apply Forall_app in Hall as [_ Hall]. apply Forall_cons in Hall as [Hk _].
    destruct (createVisualConnection_cases self elements layoutResult r)
      as [[_ [c Hc]]|[Hn _]]; [congruence|done].
Qed.

Lemma connections_refer_to_shapes self elements layoutResult relationships cs :
  createVisualConnections relationships
    (createVisualElements self elements layoutResult) = Normal cs →
  Forall2 (fun r c =>
             relationshipRef c = rel_id r ∧
             vc_source c = "visual-" +:+ source r ∧
             vc_target c = "visual-" +:+ target r ∧
             vc_source c ∈ map ve_id
               (createVisualElements self elements layoutResult) ∧
             vc_target c ∈ map ve_id
               (createVisualElements self elements layoutResult))
          relationships cs.
Proof.
  intros Hc%mapM_Normal. eapply Forall2_impl; [exact Hc|].
  intros r c (s & t & Hs & Ht & Href & _ & Hsrc & Htgt)%createVisualConnection_Normal.
  apply visualElementMap_lookup_Some in Hs as [Hsin Hsref].
  apply visualElementMap_lookup_Some in Ht as [Htin Htref].
  pose proof (createVisualElements_id_ref _ _ _ s Hsin) as Hsid.
  pose proof (createVisualElements_id_ref _ _ _ t Htin) as Htid.
  rewrite Hsref in Hsid. rewrite Htref in Htid.
  split; [done|]. split; [congruence|]. split; [congruence|].
  split; apply list_elem_of_fmap; [exists s | exists t]; done.
Qed.

Section WithHost.
Context `{Host}.

(** X7. [generateView] succeeds exactly when both ends of every
    relationship are ids of input elements.  It then returns one shape per
    element and one connection per relationship, in order, and every
    connection refers to its relationship and to the shapes
    [visual-<source>] and [visual-<target>], which are shapes of the view. *)
Theorem generateView_succeeds_iff
    (self : ViewXmlGenerator.t) (elements : list BaseElement)
    (relationships : list Relationship) :
  ((∃ view, generateView self elements relationships = Normal view) ↔
   Forall (endsKnown elements) relationships) ∧
  (∀ shapes connections,
     generateView self elements relationships = Normal (shapes, connections) →
     map elementRef shapes = ids elements ∧
     Forall2 (fun r c =>
                relationshipRef c = rel_id r ∧
                vc_source c = "visual-" +:+ source r ∧
                vc_target c = "visual-" +:+ target r ∧
                vc_source c ∈ map ve_id shapes ∧
                vc_target c ∈ map ve_id shapes)
             relationships connections).
Proof.
  unfold generateView.
  pose proof (connections_succeed_iff self elements
                (generateLayout (layoutEngine self) elements relationships)
                relationships) as Hiff.
  pose proof (connections_refer_to_shapes self elements
                (generateLayout (layoutEngine self) elements relationships)
                relationships) as Hrefs.
  destruct (createVisualConnections relationships _) as [cs|e]; simpl.
  - split.
    + split; [intros _; apply Hiff; by eexists | by eexists].
    + intros shapes connections [= <- <-].
      split; [apply createVisualElements_refs|]. by apply Hrefs.
  - split; [|done]. split; [by intros [? ?]|].
    intros [cs Hcs]%Hiff. done.
Qed.

(** X8. When the layer of every input element occurs in the configured
    layer order, no shape falls back to the default position or size:
    each shape carries the position and the dimensions the layout stores
    under its element's id. *)
Theorem shapes_follow_layout
    (self : ViewXmlGenerator.t) (elements : list BaseElement)
    (relationships : list Relationship) :
  (∀ e, e ∈ elements → layer e ∈ layerOrder (layoutEngine self)) →
  Forall2 (fun e v =>
             elementPositions
               (generateLayout (layoutEngine self) elements relationships)
               !! id e = Some (mkPosition (ve_x v) (ve_y v)) ∧
             elementDimensions
               (generateLayout (layoutEngine self) elements relationships)
               !! id e = Some (mkDimensions (ve_width v) (ve_height v)))
          elements
          (createVisualElements self elements
             (generateLayout (layoutEngine self) elements relationships)).
Proof.
  intros Hall.
  set (layout := generateLayout (layoutEngine self) elements relationships).
  assert (∀ e, e ∈ elements →
               is_Some (elementPositions layout !! id e) ∧
               is_Some (elementDimensions layout !! id e)) as Hsome.
  { intros e He. unfold layout, generateLayout.
    cbn [elementPositions elementDimensions].
    destruct (LayoutExtra.loop_domain (layoutEngine self) elements
                (layerOrder (layoutEngine self))
                (mkLayoutState ∅ ∅ (viewportPadding (layoutEngine self)) 0)
                (id e)) as [-> ->].
    split; right; exists e; auto. }
  clearbody layout. unfold createVisualElements.
  assert (∀ es, (∀ e, e ∈ es → e ∈ elements) →
    Forall2 (fun e v =>
               elementPositions layout !! id e
                 = Some (mkPosition (ve_x v) (ve_y v)) ∧
               elementDimensions layout !! id e
                 = Some (mkDimensions (ve_width v) (ve_height v)))
      es
      (map (fun element =>
         {| ve_id := "visual-" +:+ id element;
            elementRef := id element;
            ve_x := x (default (mkPosition 100 100)
                         (elementPositions layout !! id element));
            ve_y := y (default (mkPosition 100 100)
                         (elementPositions layout !! id element));
            ve_width := width (default (mkDimensions 120 55)
                                 (elementDimensions layout !! id element));
            ve_height := height (default (mkDimensions 120 55)
                                   (elementDimensions layout !! id element));
            ve_fillColor := ColorTheme.fillColor
              (ColorTheme.getColorsForElement (colorTheme self) (type element));
            ve_lineColor := ColorTheme.lineColor
              (ColorTheme.getColorsForElement (colorTheme self) (type element));
            ve_textColor := ColorTheme.textColor
              (ColorTheme.getColorsForElement (colorTheme self) (type element))
         |}) es)) as Hgen.
  { induction es as [|e es IH]; intros Hsub; simpl; constructor.
    - destruct (Hsome e) as [[[px py] ->] [[dw dh] ->]]; [apply Hsub; by left|].
      done.
    - apply IH. intros e' He'. apply Hsub. by right. }
  by apply Hgen.
Qed.

End WithHost.

(** X9. The centre the view generator computes for a shape is the centre
    [getElementCenter] of the layout engine reports for the element,
    whenever the layout holds a position and dimensions for its id; and
    [getElementCenter] answers [null] exactly when one of the two is
    missing. *)
Theorem centers_agree
    (self : ViewXmlGenerator.t) (elements : list BaseElement)
    (layoutResult : LayoutResult) :
  Forall2 (fun e v =>
             ∀ c, getElementCenter (id e) layoutResult = Some c →
                  c = mkCenter (centerX v) (centerY v))
          elements (createVisualElements self elements layoutResult) ∧
  (∀ i, getElementCenter i layoutResult = None ↔
        elementPositions layoutResult !! i = None ∨
        elementDimensions layoutResult !! i = None).
Proof.
  split.
  - unfold createVisualElements.
    induction elements as [|e es IH]; simpl; constructor; [|done].
    intros c. unfold getElementCenter, centerX, centerY. simpl.
    destruct (elementPositions layoutResult !! id e) as [p|]; [|done].
    destruct (elementDimensions layoutResult !! id e) as [d|]; [|done].
    by intros [= <-].
  - intros i. unfold getElementCenter.
    destruct (elementPositions layoutResult !! i),
             (elementDimensions layoutResult !! i); naive_solver.
Qed.

Lemma shapes_follow_layout_witness :
  Forall2 (fun e v =>
             elementPositions
               (generateLayout (H := Examples.host) (LayoutEngine.new emptyPartial)
                  [Examples.customer; Examples.satisfaction] [Examples.triggers])
               !! id e = Some (mkPosition (ve_x v) (ve_y v)) ∧
             elementDimensions
               (generateLayout (H := Examples.host) (LayoutEngine.new emptyPartial)
                  [Examples.customer; Examples.satisfaction] [Examples.triggers])
               !! id e = Some (mkDimensions (ve_width v) (ve_height v)))
          [Examples.customer; Examples.satisfaction]
          (createVisualElements
             (mkGenerator (LayoutEngine.new emptyPartial)
                ColorTheme.createArchiMateTheme)
             [Examples.customer; Examples.satisfaction]
             (generateLayout (H := Examples.host) (LayoutEngine.new emptyPartial)
                [Examples.customer; Examples.satisfaction] [Examples.triggers])).
Proof.
  apply (shapes_follow_layout (H := Examples.host)
           (mkGenerator (LayoutEngine.new emptyPartial)
              ColorTheme.createArchiMateTheme)).
  intros e He. destruct (layer e); LayoutExtra.by_evaluation.
Defined.

End ViewExtra.

(** ** Escaping in the other generators *)

Module EscapeExtra.

Import Str EscapeProofs.

Lemma decode_escapeChar_apos c rest :
  decodeEntities (escapeChar "&apos;" c +:+ rest) =
  String c (decodeEntities rest).
Proof.
  unfold escapeChar, decodeEntities.
  destruct (Ascii.eqb_spec c "&") as [->|H1]; [reflexivity|].
  destruct (Ascii.eqb_spec c "<") as [->|H2]; [reflexivity|].
  destruct (Ascii.eqb_spec c ">") as [->|H3]; [reflexivity|].
  destruct (Ascii.eqb_spec c "034") as [->|H4]; [reflexivity|].
  destruct (Ascii.eqb_spec c "'") as [->|H5]; [reflexivity|].
  rewrite append_cons, append_nil. simpl.
  by destruct (Ascii.eqb_spec c "&").
Qed.

Lemma noRawMarkup_escapeChar_apos c rest :
  noRawMarkup (escapeChar "&apos;" c +:+ rest) = noRawMarkup rest.
Proof.
  unfold escapeChar.
  destruct (Ascii.eqb_spec c "&") as [->|H1]; [reflexivity|].
  destruct (Ascii.eqb_spec c "<") as [->|H2]; [reflexivity|].
  destruct (Ascii.eqb_spec c ">") as [->|H3]; [reflexivity|].
  destruct (Ascii.eqb_spec c "034") as [->|H4]; [reflexivity|].
  destruct (Ascii.eqb_spec c "'") as [->|H5]; [reflexivity|].
  rewrite append_cons, append_nil. simpl.
  destruct (Ascii.eqb_spec c "<"), (Ascii.eqb_spec c ">"),
    (Ascii.eqb_spec c "034"), (Ascii.eqb_spec c "'"),
    (Ascii.eqb_spec c "&"); done.
Qed.

Lemma escape_numeric_round_trip text :
  noRawMarkup (escapeXmlWith "&#39;" text) = true ∧
  decodeEntities (escapeXmlWith "&#39;" text) = text.
Proof.
  induction text as [|c text [IHraw IHdec]]; [done|].
  rewrite escapeXmlWith_cons, noRawMarkup_escapeChar, decode_escapeChar.
  by rewrite IHdec.
Qed.

Lemma escape_named_round_trip text :
  noRawMarkup (escapeXmlWith "&apos;" text) = true ∧
  decodeEntities (escapeXmlWith "&apos;" text) = text.
Proof.
  induction text as [|c text [IHraw IHdec]]; [done|].
  rewrite escapeXmlWith_cons, noRawMarkup_escapeChar_apos,
    decode_escapeChar_apos.
  by rewrite IHdec.
Qed.

(** X10. The escaping of the relationship generator and that of the view
    generator (which writes the apostrophe as a named entity) round-trip
    as well: the escaped text holds no raw markup character and decodes
    to the original; hence both are injective, and both decode to the same
    text although their outputs differ. *)
Theorem other_escapes_round_trip (text : string) :
  noRawMarkup (RelationshipXmlGenerator.escapeXml text) = true ∧
  decodeEntities (RelationshipXmlGenerator.escapeXml text) = text ∧
  noRawMarkup (ViewXmlGenerator.escapeXml text) = true ∧
  decodeEntities (ViewXmlGenerator.escapeXml text) = text ∧
  (∀ text', RelationshipXmlGenerator.escapeXml text
            = RelationshipXmlGenerator.escapeXml text' → text = text') ∧
  (∀ text', ViewXmlGenerator.escapeXml text
            = ViewXmlGenerator.escapeXml text' → text = text').
Proof.
  unfold RelationshipXmlGenerator.escapeXml, ViewXmlGenerator.escapeXml.
  destruct (escape_numeric_round_trip text) as [Hn1 Hn2].
  destruct (escape_named_round_trip text) as [Ha1 Ha2].
  repeat split; try done.
  - intros text' Heq.
    destruct (escape_numeric_round_trip text') as [_ Hd]. congruence.
  - intros text' Heq.
    destruct (escape_named_round_trip text') as [_ Hd]. congruence.
Qed.

(** Escaping is not idempotent: the ampersand of an entity is escaped
    again. *)
Example escapeXml_twice_example :
  ElementXmlGenerator.escapeXml (ElementXmlGenerator.escapeXml "a&b") =
  "a&amp;amp;b".
Proof. reflexivity. Qed.

End EscapeExtra.

(** ** Reference integrity and uniqueness checks *)

Module IntegrityExtra.

Import RelationshipXmlGenerator XmlExporter RelationshipProofs ExporterProofs.

(** Both ends of [r] are ids of [elements]. *)
Definition wellReferenced (elements : list BaseElement) (r : Relationship)
  : Prop :=
  source r ∈ ids elements ∧ target r ∈ ids elements.

#[global] Instance wellReferenced_dec elements r :
  Decision (wellReferenced elements r).
Proof. unfold wellReferenced. apply _. Defined.

Lemma findOrphanedRelationships_filter relationships elements :
  findOrphanedRelationships relationships elements =
  map rel_id (filter (fun r => ¬ wellReferenced elements r) relationships).
Proof.
  unfold findOrphanedRelationships.
  change (map id elements) with (ids elements).
  assert (∀ acc,
    foldl (fun orphaned relationship =>
             if negb (bool_decide (source relationship ∈ Set_from (ids elements))) ||
                negb (bool_decide (target relationship ∈ Set_from (ids elements)))
             then orphaned ++ [rel_id relationship]
             else orphaned) acc relationships =
    acc ++ map rel_id (filter (fun r => ¬ wellReferenced elements r)
                         relationships)) as Hgen.
  { induction relationships as [|r rs IH]; intros acc; simpl.
    - by rewrite app_nil_r.
    - rewrite IH. destruct (decide (wellReferenced elements r)) as [[Hs Ht]|Hn].
      + rewrite filter_cons_False by (intros Hx; by apply Hx).
        by rewrite !bool_decide_eq_true_2 by (by apply Set_from_elem_of).
      + rewrite filter_cons_True by done.
        assert (negb (bool_decide (source r ∈ Set_from (ids elements))) ||
                negb (bool_decide (target r ∈ Set_from (ids elements))) = true)
          as ->.
        { unfold wellReferenced in Hn.
          repeat case_bool_decide; rewrite ?Set_from_elem_of in *; simpl;
            try done. exfalso. by apply Hn. }
        simpl. by rewrite <- app_assoc. }
  apply (Hgen []).
Qed.

(** X11. [findOrphanedRelationships] returns, in input order, the ids of
    exactly the relationships with an end that is not the id of an
    element; these are the relationships for which
    [validateRelationshipReferences] throws. *)
Theorem orphans_are_the_dangling_relationships
    (relationships : list Relationship) (elements : list BaseElement) :
  findOrphanedRelationships relationships elements =
    map rel_id (filter (fun r => ¬ wellReferenced elements r) relationships) ∧
  (findOrphanedRelationships relationships elements = [] ↔
   Forall (wellReferenced elements) relationships) ∧
  (∀ r, (∃ e, validateRelationshipReferences r elements = Throw e) ↔
        ¬ wellReferenced elements r).
Proof.
  split; [apply findOrphanedRelationships_filter|]. split.
  - rewrite findOrphanedRelationships_filter. split.
    + intros Hnil%fmap_nil_inv. apply Forall_forall. intros r Hr.
      destruct (decide (wellReferenced elements r)) as [?|Hn]; [done|].
      exfalso. eapply (filter_nil_not_elem_of _ _ r Hnil); done.
    + intros Hall. induction relationships as [|r rs IH]; [done|].
      apply Forall_cons in Hall as [Hr Hall].
      rewrite filter_cons_False by tauto. by apply IH.
  - intros r. rewrite validateRelationshipReferences_spec.
    unfold wellReferenced. case_decide; split; try done.
    + by intros [? ?].
    + by eexists.
Qed.

(** *** The duplicate scan *)

Lemma duplicates_fold (l : list string) (seen : gset string) (dups : list string) :
  foldl (fun '(seen, dups) i =>
           if bool_decide (i ∈ (seen : gset string))
           then (seen, dups ++ [i])
           else ({[i]} ∪ seen, dups))
        (seen, dups) l =
  (list_to_set l ∪ seen,
   dups ++ (foldl (fun '(seen, dups) i =>
                     if bool_decide (i ∈ (seen : gset string))
                     then (seen, dups ++ [i])
                     else ({[i]} ∪ seen, dups))
                  (seen, []) l).2).
Proof.
  revert seen dups. induction l as [|i l IH]; intros seen dups; simpl.
  - f_equal; [set_solver | by rewrite app_nil_r].
  - case_bool_decide.
    + rewrite (IH seen (dups ++ [i])), (IH seen [i]). simpl.
      f_equal; [set_solver | by rewrite <- app_assoc].
    + rewrite (IH ({[i]} ∪ seen) dups). simpl. f_equal. set_solver.
Qed.

(** The ids pushed as duplicates when the scan starts with [seen]. *)
Definition duplicatesFrom (seen : gset string) (l : list string) : list string :=
  (foldl (fun '(seen, dups) i =>
            if bool_decide (i ∈ (seen : gset string))
            then (seen, dups ++ [i])
            else ({[i]} ∪ seen, dups))
         (seen, []) l).2.

Lemma duplicatesFrom_cons seen i l :
  duplicatesFrom seen (i :: l) =
  if bool_decide (i ∈ seen) then i :: duplicatesFrom seen l
  else duplicatesFrom ({[i]} ∪ seen) l.
Proof.
  unfold duplicatesFrom. simpl. case_bool_decide; [|done].
  by rewrite duplicates_fold.
Qed.

Lemma duplicatesFrom_elem_of seen l x :
  x ∈ duplicatesFrom seen l ↔
  (x ∈ l ∧ x ∈ seen) ∨ ∃ l1 l2 l3, l = l1 ++ x :: l2 ++ x :: l3.
Proof.
  revert seen. induction l as [|i l IH]; intros seen.
  - unfold duplicatesFrom. simpl. split; [by intros ?%elem_of_nil|].
    intros [[?%elem_of_nil _]|(l1 & l2 & l3 & Heq)]; [done|].
    by destruct l1.
  - rewrite duplicatesFrom_cons. case_bool_decide as Hi.
    + rewrite elem_of_cons, IH. split.
      * intros [->|[[Hx Hs]|(l1 & l2 & l3 & ->)]].
        -- left. split; [by left|done].
        -- left. split; [by right|done].
        -- right. by exists (i :: l1), l2, l3.
      * intros [[[->|Hx]%elem_of_cons Hs]|(l1 & l2 & l3 & Heq)].
        -- by left.
        -- right. left. done.
        -- destruct l1 as [|y l1]; simpl in Heq; injection Heq as -> ->.
           ++ by left.
           ++ right. right. by exists l1, l2, l3.
    + rewrite IH. split.
      * intros [[Hx [->%elem_of_singleton|Hs]%elem_of_union]|(l1 & l2 & l3 & ->)].
        -- right. apply list_elem_of_split in Hx as (l2 & l3 & ->).
           by exists [], l2, l3.
        -- left. split; [by right|done].
        -- right. by exists (i :: l1), l2, l3.
      * intros [[[->|Hx]%elem_of_cons Hs]|(l1 & l2 & l3 & Heq)].
        -- done.
        -- left. split; [done|]. set_solver.
        -- destruct l1 as [|y l1]; simpl in Heq; injection Heq as -> ->.
           ++ left. split; [set_solver|set_solver].
           ++ right. by exists l1, l2, l3.
Qed.

Lemma duplicates_nil_iff (l : list string) : duplicates l = [] ↔ NoDup l.
Proof.
  change (duplicates l) with (duplicatesFrom ∅ l). split.
  - intros Hnil. induction l as [|i l IH] using rev_ind; [constructor|].
    apply NoDup_app. split; [|split; [|apply NoDup_singleton]].
    + apply IH. destruct (duplicatesFrom ∅ l) as [|x d] eqn:Hd; [done|].
      exfalso. assert (x ∈ duplicatesFrom ∅ (l ++ [i])) as Hx.
      { apply duplicatesFrom_elem_of. right.
        assert (x ∈ duplicatesFrom ∅ l) as Hx by (rewrite Hd; by left).
        apply duplicatesFrom_elem_of in Hx as [[_ ?]|(l1 & l2 & l3 & ->)];
          [set_solver|].
        exists l1, l2, (l3 ++ [i]).
        by rewrite <- app_assoc, <- !app_comm_cons, <- app_assoc. }
      rewrite Hnil in Hx. by apply elem_of_nil in Hx.
    + intros x Hx ->%list_elem_of_singleton.
      assert (i ∈ duplicatesFrom ∅ (l ++ [i])) as Hin.
      { apply duplicatesFrom_elem_of. right.
        apply list_elem_of_split in Hx as (l1 & l2 & ->).
        exists l1, l2, []. by rewrite <- app_assoc. }
      rewrite Hnil in Hin. by apply elem_of_nil in Hin.
  - intros Hnd. destruct (duplicatesFrom ∅ l) as [|x d] eqn:Hd; [done|].
    exfalso. assert (x ∈ duplicatesFrom ∅ l) as Hx by (rewrite Hd; by left).
    apply duplicatesFrom_elem_of in Hx as [[_ ?]|(l1 & l2 & l3 & ->)];
      [set_solver|].
    apply NoDup_app in Hnd as (_ & _ & Hnd).
    apply NoDup_cons in Hnd as [Hx _]. apply Hx. set_solver.
Qed.

(** X12. The duplicate scan of the pre-export validation reports an id
    exactly when it occurs at least twice, and reports nothing exactly
    when the ids are pairwise distinct. *)
Theorem duplicates_characterised (l : list string) :
  (∀ x, x ∈ duplicates l ↔ ∃ l1 l2 l3, l = l1 ++ x :: l2 ++ x :: l3) ∧
  (duplicates l = [] ↔ NoDup l).
Proof.
  split; [|apply duplicates_nil_iff].
  intros x. change (duplicates l) with (duplicatesFrom ∅ l).
  rewrite duplicatesFrom_elem_of. split; [|by right].
  intros [[_ ?]|?]; [set_solver|done].
Qed.

(** *** A model without findings *)

Lemma singleton_or_nil_nil {A} (P : Prop) `{Decision P} (x : A) :
  (if decide P then [x] else []) = [] ↔ ¬ P.
Proof. case_decide; split; done. Qed.

Lemma blankNameIssue_nil elements :
  blankNameIssue elements = [] ↔ Forall (fun e => unnamed e = false) elements.
Proof.
  unfold blankNameIssue. rewrite singleton_or_nil_nil. split.
  - intros Hlen. apply Forall_forall. intros e He.
    destruct (unnamed e) eqn:Hu; [|done]. exfalso. apply Hlen.
    assert (e ∈ filter (fun e => unnamed e = true) elements) as Hin
      by (by apply list_elem_of_filter).
    destruct (filter _ elements); [by apply elem_of_nil in Hin|simpl; lia].
  - intros Hall Hlen.
    destruct (filter (fun e => unnamed e = true) elements) as [|e g] eqn:Hf;
      [simpl in Hlen; lia|].
    assert (e ∈ filter (fun e => unnamed e = true) elements) as Hin
      by (rewrite Hf; by left).
    apply list_elem_of_filter in Hin as [Hu He].
    rewrite Forall_forall in Hall. specialize (Hall e He). congruence.
Qed.

Lemma length_pos_iff {A} (l : list A) : ¬ (0 < length l)%nat ↔ l = [].
Proof. destruct l; simpl; split; try done; lia. Qed.

Lemma emptyIssue_nil elements : emptyIssue elements = [] ↔ elements ≠ [].
Proof.
  unfold emptyIssue. rewrite singleton_or_nil_nil.
  destruct elements; simpl; split; done.
Qed.

Lemma orphanIssue_nil elements relationships :
  orphanIssue elements relationships = [] ↔
  Forall (wellReferenced elements) relationships.
Proof.
  unfold orphanIssue. rewrite singleton_or_nil_nil, length_pos_iff.
  rewrite findOrphanedRelationships_filter. split.
  - intros Hnil%fmap_nil_inv. apply Forall_forall. intros r Hr.
    destruct (decide (wellReferenced elements r)) as [?|Hn]; [done|].
    exfalso. by eapply (filter_nil_not_elem_of _ _ r Hnil).
  - intros Hall. induction relationships as [|r rs IH]; [done|].
    apply Forall_cons in Hall as [Hr Hall].
    rewrite filter_cons_False by tauto. by apply IH.
Qed.

Lemma duplicateElementIssue_nil elements :
  duplicateElementIssue elements = [] ↔ NoDup (ids elements).
Proof.
  unfold duplicateElementIssue.
  by rewrite singleton_or_nil_nil, length_pos_iff, duplicates_nil_iff.
Qed.

Lemma duplicateRelationshipIssue_nil relationships :
  duplicateRelationshipIssue relationships = [] ↔
  NoDup (map rel_id relationships).
Proof.
  unfold duplicateRelationshipIssue.
  by rewrite singleton_or_nil_nil, length_pos_iff, duplicates_nil_iff.
Qed.

(** X13. The pre-export validation has nothing to say, in either mode,
    exactly about the models that have at least one element, only
    relationships whose two ends are element ids, pairwise distinct element
    ids, pairwise distinct relationship ids and no blank element name. *)
Theorem no_findings_iff_clean
    (elements : list BaseElement) (relationships : list Relationship)
    (strict : bool) :
  validateModelInputs elements relationships strict = ([], []) ↔
  elements ≠ [] ∧
  Forall (wellReferenced elements) relationships ∧
  NoDup (ids elements) ∧
  NoDup (map rel_id relationships) ∧
  Forall (fun e => unnamed e = false) elements.
Proof.
  rewrite validateModelInputs_classified.
  rewrite <- emptyIssue_nil, <- (orphanIssue_nil elements relationships),
    <- duplicateElementIssue_nil, <- duplicateRelationshipIssue_nil,
    <- blankNameIssue_nil.
  destruct strict; split.
  - intros [= Hw He]. apply app_eq_nil in He as [He1 [He2 He3]%app_eq_nil].
    apply app_eq_nil in He1 as [? ?]. simpl in Hw. done.
  - intros (-> & -> & -> & -> & ->). done.
  - intros [= Hw He]. apply app_eq_nil in Hw as [Hw1 Hw2].
    apply app_eq_nil in Hw1 as [? ?]. simpl in He.
    apply app_eq_nil in He as [? ?]. done.
  - intros (-> & -> & -> & -> & ->). done.
Qed.

(** *** Which element an id denotes *)

Lemma findById_head elements i :
  findById elements i = head (filter (fun e => id e = i) elements).
Proof.
  unfold findById. induction elements as [|e es IH]; [done|]. simpl.
  case_bool_decide.
  - by rewrite filter_cons_True.
  - by rewrite filter_cons_False.
Qed.

Lemma filter_id_short elements i :
  NoDup (ids elements) →
  (length (filter (fun e => id e = i) elements) ≤ 1)%nat.
Proof.
  induction elements as [|e es IH]; simpl; [lia|].
  intros [Hfresh Hnd]%NoDup_cons. specialize (IH Hnd).
  destruct (decide (id e = i)) as [Heq|Hne].
  - rewrite filter_cons_True by done. simpl.
    destruct (filter (fun e => id e = i) es) as [|e' g] eqn:Hf; [simpl; lia|].
    exfalso. apply Hfresh.
    assert (e' ∈ filter (fun e => id e = i) es) as Hin by (rewrite Hf; by left).
    apply list_elem_of_filter in Hin as [Hid Hin].
    unfold ids. apply list_elem_of_fmap. exists e'. split; [congruence|done].
  - by rewrite filter_cons_False.
Qed.

(** X14. Among several elements sharing an id, the relationship name
    generator resolves the id to the first one and the validator to the
    last one; with pairwise distinct ids the two agree. *)
Theorem id_resolution_first_and_last
    (elements : list BaseElement) (i : string) :
  findById elements i = head (filter (fun e => id e = i) elements) ∧
  Validator.elementMap elements !! i =
    last (filter (fun e => id e = i) elements) ∧
  (NoDup (ids elements) →
   findById elements i = Validator.elementMap elements !! i).
Proof.
  split; [apply findById_head|]. split; [apply ValidatorProofs.elementMap_last|].
  intros Hnd. rewrite findById_head, ValidatorProofs.elementMap_last.
  pose proof (filter_id_short elements i Hnd) as Hlen.
  destruct (filter (fun e => id e = i) elements) as [|e [|e' g]];
    simpl in *; try done. lia.
Qed.

Example id_resolution_differs_example :
  findById [Examples.goalX; Examples.actorX] "x" = Some Examples.goalX ∧
  Validator.elementMap [Examples.goalX; Examples.actorX] !! "x" =
    Some Examples.actorX.
Proof. split; by vm_compute. Qed.

End IntegrityExtra.


(** ** Grouping a list by a key *)

Module GroupingFacts.

Section Grouping.
Context {A K : Type} `{EqDecision K}.
Variable key : A → K.

(** The members of [l] taken group by group, the groups in the order of
    [keys], every group in the order of [l]. *)
Definition groupsIn (keys : list K) (l : list A) : list A :=
  concat (map (fun k => filter (fun x => key x = k) l) keys).

Lemma groupsIn_cons k keys l :
  groupsIn (k :: keys) l = filter (fun x => key x = k) l ++ groupsIn keys l.
Proof. reflexivity. Qed.

Lemma groupsIn_without k keys l :
  k ∉ keys →
  groupsIn keys (filter (fun x => key x ≠ k) l) = groupsIn keys l.
Proof.
  intros Hk. unfold groupsIn. f_equal. apply map_ext_in.
  intros k' Hk'. apply list_elem_of_In in Hk'. rewrite list_filter_filter.
  apply list_filter_iff. intros x. split; [tauto|].
  intros Hx. split; [done|]. intros Heq. apply Hk. by rewrite <- Heq, Hx.
Qed.

Lemma groupsIn_perm keys l :
  NoDup keys → (∀ x, x ∈ l → key x ∈ keys) → groupsIn keys l ≡ₚ l.
Proof.
  intros Hnd. revert l. induction Hnd as [|k keys Hk Hnd IH]; intros l Hl.
  - destruct l as [|x l]; [done|].
    specialize (Hl x (list_elem_of_here _ _)). by apply elem_of_nil in Hl.
  - rewrite groupsIn_cons, <- (groupsIn_without k) by done.
    rewrite IH.
    + apply (filter_app_complement (fun x => key x = k)).
    + intros x [Hne Hx]%list_elem_of_filter.
      apply Hl, elem_of_cons in Hx as [?|?]; done.
Qed.

Lemma groupsIn_length keys l :
  length (groupsIn keys l) =
  sum_list (map (fun k => length (filter (fun x => key x = k) l)) keys).
Proof.
  induction keys as [|k keys IH]; [done|].
  rewrite groupsIn_cons, length_app, IH. done.
Qed.

End Grouping.

Lemma find_app {A} (f : A → bool) l1 l2 :
  find f (l1 ++ l2) =
  match find f l1 with Some x => Some x | None => find f l2 end.
Proof. induction l1 as [|x l1 IH]; simpl; [done|]. by destruct (f x). Qed.

Lemma find_none_Forall {A} (f : A → bool) l :
  find f l = None ↔ Forall (fun x => f x = false) l.
Proof.
  induction l as [|x l IH]; simpl; [by split|].
  destruct (f x) eqn:Hf.
  - split; [done|]. intros [? _]%Forall_cons. congruence.
  - rewrite IH, Forall_cons. tauto.
Qed.

End GroupingFacts.

(** ** Generating several relationships *)

Module RelationshipExtra.

Import RelationshipXmlGenerator RelationshipProofs EscapeProofs IntegrityExtra
  GroupingFacts.

(** The element array the references are checked against, if any. *)
Definition checkedAgainst (options : RelationshipGenerationOptions)
    (elements : option (list BaseElement)) : option (list BaseElement) :=
  if validateReferences options then elements else None.

(** The order in which [generateRelationships] generates the fragments. *)
Definition processingOrder (options : RelationshipGenerationOptions)
    (relationships : list Relationship) : list Relationship :=
  if groupByType options
  then groupsIn rel_type typeOrder relationships
  else relationships.

(** The first relationship, in generation order, with an end that is not
    among the checked elements. *)
Definition firstDangling (els : list BaseElement) (rs : list Relationship)
  : option Relationship :=
  find (fun r => bool_decide (¬ wellReferenced els r)) rs.

Lemma typeOrder_complete ty : ty ∈ typeOrder.
Proof. unfold typeOrder. destruct ty; set_solver. Qed.

Lemma typeOrder_NoDup : NoDup typeOrder.
Proof. apply (bool_decide_unpack _). by vm_compute. Qed.

Lemma processingOrder_perm options relationships :
  processingOrder options relationships ≡ₚ relationships.
Proof.
  unfold processingOrder. destruct (groupByType options); [|done].
  apply groupsIn_perm; [apply typeOrder_NoDup|].
  intros. apply typeOrder_complete.
Qed.

Section WithHost.
Context `{Host}.
Variable template : string.
Hypothesis template_read :
  readFileSync "relationship-template.xml" = Normal template.
Variable options : RelationshipGenerationOptions.
Variable elements : option (list BaseElement).

(** The fragment of one relationship: the template with its five
    placeholders replaced. *)
Definition fragment (r : Relationship) : string :=
  Str.replace "{{TARGET_ID}}" (escapeXml (target r))
    (Str.replace "{{SOURCE_ID}}" (escapeXml (source r))
       (Str.replace "{{RELATIONSHIP_ID}}" (escapeXml (rel_id r))
          (Str.replace "{{RELATIONSHIP_NAME}}"
             (escapeXml (generateRelationshipName r options elements))
             (Str.replace "{{RELATIONSHIP_TYPE}}"
                (RelationshipType_value (rel_type r)) template)))).

Definition render (rs : list Relationship) : string :=
  foldr (fun r rest => fragment r +:+ String "010" "" +:+ rest) "" rs.

Definition groupHeader (ty : RelationshipType) : string :=
  String "010" "  <!-- " +:+ Str.toUpperCase (RelationshipType_value ty) +:+
  " RELATIONSHIPS -->" +:+ String "010" "".

Definition renderGroup (ty : RelationshipType) (rs : list Relationship)
  : string :=
  match rs with
  | [] => ""
  | _ => groupHeader ty +:+ render rs
  end.

Definition renderGroups (types : list RelationshipType)
    (groupOf : RelationshipType → list Relationship) : string :=
  foldr (fun ty rest => renderGroup ty (groupOf ty) +:+ rest) "" types.

(** What a successful [generateRelationships] returns. *)
Definition fragments (relationships : list Relationship) : string :=
  match relationships with
  | [] => ""
  | _ =>
      String "010" "  <!-- RELATIONSHIPS -->" +:+ String "010" "" +:+
      (if groupByType options
       then renderGroups typeOrder
              (fun ty => filter (fun r => rel_type r = ty) relationships)
       else render relationships)
  end.

(** The outcome of generating [rs] in this order, appended to [result]. *)
Definition outcome (result : string) (rs : list Relationship)
    (rendered : string) : Completion string :=
  match checkedAgainst options elements with
  | Some els =>
      match firstDangling els rs with
      | Some r => Throw (danglingError r els)
      | None => Normal (result +:+ rendered)
      end
  | None => Normal (result +:+ rendered)
  end.

Lemma generateRelationship_cases r :
  generateRelationship r options elements =
  match checkedAgainst options elements with
  | Some els =>
      if bool_decide (¬ wellReferenced els r)
      then Throw (danglingError r els)
      else Normal (fragment r)
  | None => Normal (fragment r)
  end.
Proof.
  unfold generateRelationship, loadTemplate, checkedAgainst, fragment.
  rewrite template_read. cbn [mbind Completion_bind].
  destruct elements as [els|]; [|by destruct (validateReferences options)].
  destruct (validateReferences options); [|done].
  rewrite validateRelationshipReferences_spec.
  unfold wellReferenced. case_decide; case_bool_decide; done.
Qed.

Lemma appendRelationships_outcome result rs :
  appendRelationships result rs options elements =
  outcome result rs (render rs).
Proof.
  revert result. induction rs as [|r rs IH]; intros result.
  - unfold outcome, firstDangling. simpl. rewrite append_nil_r.
    by destruct (checkedAgainst _ _).
  - cbn [appendRelationships]. rewrite generateRelationship_cases.
    unfold outcome, firstDangling in *. cbn [find render foldr].
    destruct (checkedAgainst options elements) as [els|].
    + destruct (bool_decide (¬ wellReferenced els r)); [done|].
      cbn [mbind Completion_bind]. rewrite IH.
      destruct (find _ rs); [done|].
      by rewrite !string_app_assoc.
    + cbn [mbind Completion_bind]. rewrite IH. by rewrite !string_app_assoc.
Qed.

Lemma appendGroups_outcome result types groups :
  appendGroups result types groups options elements =
  outcome result
    (concat (map (fun ty => default [] (groups !! ty)) types))
    (renderGroups types (fun ty => default [] (groups !! ty))).
Proof.
  revert result. induction types as [|ty types IH]; intros result.
  - unfold outcome, firstDangling. simpl. rewrite append_nil_r.
    by destruct (checkedAgainst _ _).
  - rewrite appendGroups_cons. cbn [map concat renderGroups foldr].
    destruct (groups !! ty) as [[|r rs]|];
      cbn [default from_option Datatypes.id renderGroup];
      try (rewrite IH; by rewrite ?append_nil).
    rewrite appendRelationships_outcome. unfold outcome, firstDangling in *.
    destruct (checkedAgainst options elements) as [els|].
    + rewrite find_app. destruct (find _ (r :: rs)); [done|].
      cbn [mbind Completion_bind]. rewrite IH.
      destruct (find _ (concat _)); [done|].
      unfold groupHeader. by rewrite !string_app_assoc.
    + cbn [mbind Completion_bind]. rewrite IH.
      unfold groupHeader. by rewrite !string_app_assoc.
Qed.

Lemma generateRelationships_outcome relationships :
  generateRelationships relationships options elements =
  outcome "" (processingOrder options relationships) (fragments relationships).
Proof.
  unfold generateRelationships, processingOrder, fragments.
  destruct relationships as [|r0 rs].
  - unfold outcome, firstDangling, groupsIn.
    destruct (groupByType options), (checkedAgainst _ _); done.
  - set (relationships := r0 :: rs). destruct (groupByType options).
    + unfold generateRelationshipsGroupedByType.
      rewrite appendGroups_outcome. unfold groupsIn.
      rewrite (map_ext _ (fun ty => filter (fun r => rel_type r = ty)
                                      relationships))
        by (intros; apply groupRelationshipsByType_lookup).
      unfold outcome. rewrite !append_nil.
      assert (renderGroups typeOrder
                (fun ty => default [] (groupRelationshipsByType relationships !! ty))
              = renderGroups typeOrder
                  (fun ty => filter (fun r => rel_type r = ty) relationships))
        as ->; [|done].
      unfold renderGroups. apply foldr_ext; [|done|done].
      intros ty rest. by rewrite groupRelationshipsByType_lookup.
    + rewrite appendRelationships_outcome. unfold outcome.
      by rewrite !append_nil.
Qed.

End WithHost.

Lemma firstDangling_None els rs rs' :
  rs ≡ₚ rs' →
  firstDangling els rs = None ↔ Forall (wellReferenced els) rs'.
Proof.
  intros Hp. unfold firstDangling. rewrite find_none_Forall, <- Hp.
  apply Forall_proper; [|done]. intros r.
  rewrite bool_decide_eq_false. split; [apply dec_stable | tauto].
Qed.

(** X15. With the references validated against an element array,
    [generateRelationships] generates every relationship once, in the
    given order or, grouped, in the fixed order of the types and the given
    order within a type; it throws the reference error of the first
    relationship in that order with an unknown end, and if there is none
    it returns the comment line followed by the fragments (and group
    comments) in that order. *)
Theorem generation_stops_at_first_dangling `{Host}
    (template : string) (options : RelationshipGenerationOptions)
    (els : list BaseElement) (relationships : list Relationship) :
  readFileSync "relationship-template.xml" = Normal template →
  validateReferences options = true →
  processingOrder options relationships ≡ₚ relationships ∧
  match firstDangling els (processingOrder options relationships) with
  | Some r =>
      r ∈ relationships ∧ ¬ wellReferenced els r ∧
      generateRelationships relationships options (Some els) =
      Throw (danglingError r els)
  | None =>
      Forall (wellReferenced els) relationships ∧
      generateRelationships relationships options (Some els) =
      Normal (fragments template options (Some els) relationships)
  end.
Proof.
  intros Ht Hv. split; [apply processingOrder_perm|].
  rewrite (generateRelationships_outcome template Ht).
  unfold outcome, checkedAgainst. rewrite Hv.
  destruct (firstDangling els _) as [r|] eqn:Hfirst.
  - unfold firstDangling in Hfirst. apply find_some in Hfirst as [Hin Hbad].
    apply list_elem_of_In in Hin. rewrite processingOrder_perm in Hin.
    apply bool_decide_eq_true in Hbad. done.
  - split; [|by rewrite append_nil].
    by apply (firstDangling_None els _ _
                (processingOrder_perm options relationships)).
Qed.

(** X16. [generateRelationships] returns a document exactly when no
    reference check applies (validation off, or no element array) or every
    relationship has both ends among the elements; grouping does not
    change this, and the document is the one described by [fragments]. *)
Theorem relationships_document_iff `{Host}
    (template : string) (options : RelationshipGenerationOptions)
    (elements : option (list BaseElement)) (relationships : list Relationship)
    (xml : string) :
  readFileSync "relationship-template.xml" = Normal template →
  generateRelationships relationships options elements = Normal xml ↔
  xml = fragments template options elements relationships ∧
  (∀ els, validateReferences options = true → elements = Some els →
          Forall (wellReferenced els) relationships).
Proof.
  intros Ht. rewrite (generateRelationships_outcome template Ht).
  unfold outcome, checkedAgainst. rewrite append_nil.
  destruct (validateReferences options); [destruct elements as [els|]|].
  - destruct (firstDangling els _) as [r|] eqn:Hfirst.
    + split; [done|]. intros [_ Hall]. specialize (Hall els eq_refl eq_refl).
      apply (firstDangling_None els _ _ (processingOrder_perm options _)) in Hall.
      congruence.
    + apply (firstDangling_None els _ _ (processingOrder_perm options _))
        in Hfirst.
      split; [intros [= <-]; split; [done|]; by intros ? _ [= <-]|].
      by intros [-> _].
  - split; [intros [= <-]; split; [done|]; by intros ? _ [=]|]. by intros [-> _].
  - split; [intros [= <-]; split; [done|]; by intros ? [=]|]. by intros [-> _].
Qed.

Lemma generation_stops_at_first_dangling_witness :
  processingOrder (mkRelationshipOptions false true true false)
    [Examples.triggers; Examples.dangling] ≡ₚ
  [Examples.triggers; Examples.dangling] ∧
  match firstDangling [Examples.customer; Examples.orderProcessing]
          (processingOrder (mkRelationshipOptions false true true false)
             [Examples.triggers; Examples.dangling]) with
  | Some r =>
      r ∈ [Examples.triggers; Examples.dangling] ∧
      ¬ wellReferenced [Examples.customer; Examples.orderProcessing] r ∧
      generateRelationships (H := Examples.host)
        [Examples.triggers; Examples.dangling]
        (mkRelationshipOptions false true true false)
        (Some [Examples.customer; Examples.orderProcessing]) =
      Throw (danglingError r [Examples.customer; Examples.orderProcessing])
  | None =>
      Forall (wellReferenced [Examples.customer; Examples.orderProcessing])
        [Examples.triggers; Examples.dangling] ∧
      generateRelationships (H := Examples.host)
        [Examples.triggers; Examples.dangling]
        (mkRelationshipOptions false true true false)
        (Some [Examples.customer; Examples.orderProcessing]) =
      Normal (fragments
                "<element xsi:type={{RELATIONSHIP_TYPE}} name={{RELATIONSHIP_NAME}} id={{RELATIONSHIP_ID}} source={{SOURCE_ID}} target={{TARGET_ID}}/>"
                (mkRelationshipOptions false true true false)
                (Some [Examples.customer; Examples.orderProcessing])
                [Examples.triggers; Examples.dangling])
  end.
Proof.
  apply (generation_stops_at_first_dangling (H := Examples.host));
    reflexivity.
Defined.

Lemma relationships_document_iff_witness :
  generateRelationships (H := Examples.host) [Examples.triggers]
    (mkRelationshipOptions false true true false)
    (Some [Examples.customer; Examples.orderProcessing]) =
  Normal (fragments
            "<element xsi:type={{RELATIONSHIP_TYPE}} name={{RELATIONSHIP_NAME}} id={{RELATIONSHIP_ID}} source={{SOURCE_ID}} target={{TARGET_ID}}/>"
            (mkRelationshipOptions false true true false)
            (Some [Examples.customer; Examples.orderProcessing])
            [Examples.triggers]) ↔
  fragments
    "<element xsi:type={{RELATIONSHIP_TYPE}} name={{RELATIONSHIP_NAME}} id={{RELATIONSHIP_ID}} source={{SOURCE_ID}} target={{TARGET_ID}}/>"
    (mkRelationshipOptions false true true false)
    (Some [Examples.customer; Examples.orderProcessing])
    [Examples.triggers] =
  fragments
    "<element xsi:type={{RELATIONSHIP_TYPE}} name={{RELATIONSHIP_NAME}} id={{RELATIONSHIP_ID}} source={{SOURCE_ID}} target={{TARGET_ID}}/>"
    (mkRelationshipOptions false true true false)
    (Some [Examples.customer; Examples.orderProcessing])
    [Examples.triggers] ∧
  (∀ els, validateReferences (mkRelationshipOptions false true true false) = true →
          Some [Examples.customer; Examples.orderProcessing] = Some els →
          Forall (wellReferenced els) [Examples.triggers]).
Proof.
  apply (relationships_document_iff (H := Examples.host)). reflexivity.
Defined.

Example grouped_relationships_example :
  generateRelationships (H := Examples.host)
    [Examples.triggers; mkRelationship "r3" "b" "a" SERVING;
     mkRelationship "r4" "b" "a" TRIGGERING]
    (mkRelationshipOptions false true true false)
    (Some [Examples.customer; Examples.orderProcessing]) =
  Normal
    (String "010" "  <!-- RELATIONSHIPS -->" +:+
     String "010" (String "010" "  <!-- SERVING RELATIONSHIPS -->") +:+
     String "010" "<element xsi:type=Serving name= id=r3 source=b target=a/>" +:+
     String "010" (String "010" "  <!-- TRIGGERING RELATIONSHIPS -->") +:+
     String "010" "<element xsi:type=Triggering name= id=r1 source=a target=b/>" +:+
     String "010" "<element xsi:type=Triggering name= id=r4 source=b target=a/>" +:+
     String "010" "").
Proof. by vm_compute. Qed.

End RelationshipExtra.

(** ** Generating several elements *)

Module ElementExtra.

Import LayoutEngine LayoutProofs ElementXmlGenerator EscapeProofs GroupingFacts.

Lemma layerOrder_complete l : l ∈ layerOrder.
Proof. unfold layerOrder. destruct l; set_solver. Qed.

Lemma layerOrder_NoDup : NoDup layerOrder.
Proof. apply (bool_decide_unpack _). by vm_compute. Qed.

Lemma groupElementsByLayer_filter (elements : list BaseElement) (l : Layer) :
  default [] (groupElementsByLayer elements !! l) =
  filter (fun e => layer e = l) elements.
Proof. apply (groupElementsByLayer_lookup elements l). Qed.

Section WithHost.
Context `{Host}.
Variable options : ElementGenerationOptions.

(** The order in which [generateElements] generates the fragments. *)
Definition processingOrder (elements : list BaseElement) : list BaseElement :=
  if groupByLayer options
  then concat (map (fun l => sortByType (filter (fun e => layer e = l) elements))
                 layerOrder)
  else elements.

Lemma concat_sorted_perm (layers : list Layer) (elements : list BaseElement) :
  concat (map (fun l => sortByType (filter (fun e => layer e = l) elements))
            layers)
  ≡ₚ groupsIn layer layers elements.
Proof.
  induction layers as [|l layers IH]; [done|].
  rewrite groupsIn_cons. cbn [map concat].
  by rewrite sortByType_perm, IH.
Qed.

Lemma elementOrder_perm elements : processingOrder elements ≡ₚ elements.
Proof.
  unfold processingOrder. destruct (groupByLayer options); [|done].
  rewrite concat_sorted_perm.
  apply groupsIn_perm; [apply layerOrder_NoDup|].
  intros. apply layerOrder_complete.
Qed.

(** The fragment of one element: the template with its four placeholders
    replaced. *)
Definition fragment (template : string) (element : BaseElement) : string :=
  Str.replace "{{ELEMENT_DOCUMENTATION}}"
    (escapeXml (generateDocumentation element options))
    (Str.replace "{{ELEMENT_ID}}" (escapeXml (id element))
       (Str.replace "{{ELEMENT_NAME}}" (escapeXml (name element))
          (Str.replace "{{ELEMENT_TYPE}}"
             (ElementType_value (type element)) template))).

Definition render (template : string) (es : list BaseElement) : string :=
  foldr (fun e rest => fragment template e +:+ String "010" "" +:+ rest) "" es.

Definition layerHeader (l : Layer) : string :=
  String "010" "  <!-- " +:+ Str.toUpperCase (Layer_value l) +:+
  " LAYER ELEMENTS -->" +:+ String "010" "".

Definition renderLayer (template : string) (l : Layer) (es : list BaseElement)
  : string :=
  match es with
  | [] => ""
  | _ => layerHeader l +:+ render template es
  end.

Definition renderLayers (template : string) (layers : list Layer)
    (groupOf : Layer → list BaseElement) : string :=
  foldr (fun l rest => renderLayer template l (groupOf l) +:+ rest) "" layers.

(** What a successful [generateElements] returns. *)
Definition fragments (template : string) (elements : list BaseElement)
  : string :=
  match elements with
  | [] => ""
  | _ =>
      String "010" "  <!-- ELEMENTS -->" +:+ String "010" "" +:+
      (if groupByLayer options
       then renderLayers template layerOrder
              (fun l => sortByType (filter (fun e => layer e = l) elements))
       else render template elements)
  end.

Definition loadError (error : Error) : Error :=
  mkError ("Failed to load template element-template.xml: " +:+
           Error_toString error).

(** The outcome of generating [es], appended to [result]: the template is
    read once per element, so that nothing is read for no element. *)
Definition outcome (result : string) (es : list BaseElement)
    (rendered : string → string) : Completion string :=
  match es, readFileSync "element-template.xml" with
  | [], _ => Normal result
  | _, Normal template => Normal (result +:+ rendered template)
  | _, Throw error => Throw (loadError error)
  end.

Lemma appendElements_outcome result es :
  appendElements result es options =
  outcome result es (fun template => render template es).
Proof.
  revert result. induction es as [|e es IH]; intros result; [done|].
  cbn [appendElements]. unfold generateElement, loadTemplate, outcome in *.
  destruct (readFileSync "element-template.xml") as [template|error];
    [|done].
  cbn [mbind Completion_bind]. rewrite IH. cbn [render foldr].
  destruct es; [|by rewrite ?string_app_assoc].
  cbn [render foldr]. by rewrite append_nil_r, ?string_app_assoc.
Qed.

Lemma appendLayers_cons result l layers groups :
  appendLayers result (l :: layers) groups options =
  match groups !! l with
  | Some (e :: es) =>
      result' ← appendElements
                  (result +:+ String "010" "  <!-- " +:+
                   Str.toUpperCase (Layer_value l) +:+
                   " LAYER ELEMENTS -->" +:+ String "010" "")
                  (sortByType (e :: es)) options;
      appendLayers result' layers groups options
  | _ => appendLayers result layers groups options
  end.
Proof. reflexivity. Qed.

Lemma sortByType_nil_inv es : sortByType es = [] → es = [].
Proof.
  intros Hs. apply Permutation_nil_r. by rewrite <- Hs, sortByType_perm.
Qed.

Lemma renderLayers_nil template layers groupOf :
  concat (map groupOf layers) = [] → renderLayers template layers groupOf = "".
Proof.
  induction layers as [|l layers IH]; [done|].
  cbn [map concat renderLayers foldr].
  intros [Hl Hrest]%app_eq_nil. rewrite Hl. cbn [renderLayer].
  rewrite append_nil. by apply IH.
Qed.

Lemma appendLayers_outcome result layers groups :
  appendLayers result layers groups options =
  outcome result
    (concat (map (fun l => sortByType (default [] (groups !! l))) layers))
    (fun template =>
       renderLayers template layers
         (fun l => sortByType (default [] (groups !! l)))).
Proof.
  revert result. induction layers as [|l layers IH]; intros result; [done|].
  rewrite appendLayers_cons. cbn [map concat renderLayers foldr].
  destruct (groups !! l) as [[|e es]|];
    cbn [default from_option Datatypes.id];
    try (rewrite IH; unfold outcome; cbn [sortByType foldr app renderLayer];
         destruct (concat _); [done|];
         destruct (readFileSync _); [by rewrite append_nil | done]).
  rewrite appendElements_outcome.
  destruct (sortByType (e :: es)) as [|e' es'] eqn:Hsorted;
    [by apply sortByType_nil_inv in Hsorted|].
  unfold outcome in *. cbn [app renderLayer].
  destruct (readFileSync "element-template.xml") as [template|error];
    [|done].
  cbn [mbind Completion_bind]. rewrite IH.
  destruct (concat _) eqn:Hrest.
  - fold (renderLayers template layers
            (fun l => sortByType (default [] (groups !! l)))).
    rewrite (renderLayers_nil _ _ _ Hrest), append_nil_r.
    unfold layerHeader. by rewrite !string_app_assoc.
  - unfold layerHeader. by rewrite !string_app_assoc.
Qed.

Lemma generateElements_outcome elements :
  generateElements elements options =
  outcome "" elements (fun template => fragments template elements).
Proof.
  unfold generateElements, fragments.
  destruct elements as [|e0 es]; [done|].
  set (elements := e0 :: es). destruct (groupByLayer options).
  - unfold generateElementsGroupedByLayer.
    rewrite appendLayers_outcome.
    rewrite (map_ext _ (fun l => sortByType (filter (fun e => layer e = l)
                                               elements)))
      by (intros; by rewrite groupElementsByLayer_filter).
    assert (concat (map (fun l => sortByType
                                    (filter (fun e => layer e = l) elements))
                      layerOrder) ≠ []) as Hne.
    { intros Hnil. apply (Permutation_nil_cons (l := es) (x := e0)).
      rewrite <- Hnil, concat_sorted_perm.
      apply (groupsIn_perm layer layerOrder elements);
        [apply layerOrder_NoDup|].
      intros. apply layerOrder_complete. }
    unfold outcome. subst elements.
    destruct (concat _); [done|].
    destruct (readFileSync _); [|done].
    rewrite !append_nil, string_app_assoc. do 3 f_equal.
    unfold renderLayers. apply foldr_ext; [|done|done].
    intros l' rest. by rewrite groupElementsByLayer_filter.
  - rewrite appendElements_outcome. unfold outcome. subst elements.
    destruct (readFileSync _); [|done].
    by rewrite !append_nil, string_app_assoc.
Qed.

End WithHost.

(** X17. [generateElements] returns the empty string for no element,
    without reading the template.  Otherwise it fails exactly when the
    template cannot be read, and else returns the comment line followed by
    one fragment per element: every element once, in the given order or,
    grouped, layer by layer in the fixed order of the layers, the elements
    of a layer sorted by type under a layer comment. *)
Theorem elements_generated_once_in_layer_order `{Host}
    (options : ElementGenerationOptions) (elements : list BaseElement) :
  processingOrder options elements ≡ₚ elements ∧
  generateElements elements options =
  match elements, readFileSync "element-template.xml" with
  | [], _ => Normal ""
  | _, Normal template => Normal (fragments options template elements)
  | _, Throw error =>
      Throw (mkError ("Failed to load template element-template.xml: " +:+
                      Error_toString error))
  end.
Proof.
  split; [apply elementOrder_perm|].
  rewrite generateElements_outcome. unfold outcome.
  destruct elements; [done|].
  destruct (readFileSync _); [|done]. by rewrite append_nil.
Qed.

Example grouped_elements_example :
  generateElements (H := Examples.host)
    [Examples.orderProcessing; Examples.billing; Examples.customer]
    (mkElementOptions false None true) =
  Normal
    (String "010" "  <!-- ELEMENTS -->" +:+
     String "010" (String "010" "  <!-- BUSINESS LAYER ELEMENTS -->") +:+
     String "010" "<element xsi:type=BusinessActor name=Customer id=a>BusinessActor element: Customer</element>" +:+
     String "010" "<element xsi:type=BusinessProcess name=Order Processing id=b>BusinessProcess element: Order Processing</element>" +:+
     String "010" (String "010" "  <!-- APPLICATION LAYER ELEMENTS -->") +:+
     String "010" "<element xsi:type=ApplicationComponent name=Billing id=c>ApplicationComponent element: Billing</element>" +:+
     String "010" "").
Proof. by vm_compute. Qed.

End ElementExtra.

(** ** The order of the elements in a row *)

Module RowOrderExtra.

Import LayoutEngine LayoutProofs LayoutExtra.




Section WithHost.
Context `{Host}.

(** The comparator is consistent: any two strings are comparable, and
    the order is transitive. *)
Hypothesis compare_total :
  ∀ s t, localeCompare s t ≤ 0 ∨ localeCompare t s ≤ 0.
Hypothesis compare_trans :
  ∀ s t u, localeCompare s t ≤ 0 → localeCompare t u ≤ 0 →
           localeCompare s u ≤ 0.









End WithHost.





End RowOrderExtra.

(** ** The exporter: results, themes and the convenience functions *)

Module ExporterExtra.

Import XmlExporter ExporterProofs.

Lemma configureVisualization_unknown_theme self options theme :
  colorTheme options = Some (ThemeName theme) →
  theme ≠ "" → theme ≠ "archimate" → theme ≠ "monochrome" →
  theme ≠ "high-contrast" →
  configureVisualization self options =
  Throw (mkError ("Unknown color theme: " +:+ theme)).
Proof.
  intros Hth H0 H1 H2 H3. unfold configureVisualization. rewrite Hth.
  destruct theme as [|c theme]; [done|].
  unfold setColorTheme. by rewrite !decide_False by done.
Qed.

Section WithHost.
Context `{Host}.
Variable generate :
  list BaseElement → list Relationship → ModelExportOptions → Completion string.

(** X19. A result returned by [exportModel] always carries the complete
    document of the model generator, produced after the visual
    configuration succeeded; it carries statistics exactly when they were
    requested, and the warnings and errors of the validation when that was
    requested (none otherwise). *)
Theorem returned_result_is_complete
    (self : XmlExporter.t) (elements : list BaseElement)
    (relationships : list Relationship) (options : XmlExportOptions)
    (result : XmlExportResult) :
  (exportModel generate self elements relationships options).1 = Normal result →
  ∃ self' document,
    configureVisualization self options = Normal self' ∧
    generate elements relationships (buildModelOptions options) = Normal document ∧
    (exportModel generate self elements relationships options).2 = self' ∧
    xml result = document ∧
    statistics result =
      (if includeStatistics options
       then Some (collectStatistics self' elements relationships options)
       else None) ∧
    (warnings result, errors result) =
      (if validateModel options
       then validateModelInputs elements relationships (strictValidation options)
       else ([], [])).
Proof.
  unfold exportModel, exportModel_try.
  destruct (_ && _ && _); [done|].
  destruct (configureVisualization self options) as [self'|e]; [|done].
  destruct (generate _ _ _) as [document|e]; [|done].
  cbn [fst snd]. intros [= <-]. exists self', document.
  split; [done|]. split; [done|]. split; [done|].
  destruct (includeStatistics options), (validateModel options);
    cbn [xml statistics warnings errors]; repeat split; try done;
    by destruct (validateModelInputs _ _ _).
Qed.

(** X20. An unknown color theme name makes [exportModel] throw
    ["Unknown color theme: <name>"] unless strict validation aborts first,
    that is unless validation is requested in strict mode and records an
    error; this holds whatever the model generator would do, and the
    exporter is left as it was. *)
Theorem unknown_theme_aborts_export
    (self : XmlExporter.t) (elements : list BaseElement)
    (relationships : list Relationship) (options : XmlExportOptions)
    (theme : string) :
  colorTheme options = Some (ThemeName theme) →
  theme ≠ "" → theme ≠ "archimate" → theme ≠ "monochrome" →
  theme ≠ "high-contrast" →
  (validateModel options = true → strictValidation options = true →
   (validateModelInputs elements relationships true).2 = []) →
  exportModel generate self elements relationships options =
  (Throw (mkError ("Unknown color theme: " +:+ theme)), self).
Proof.
  intros Hth H0 H1 H2 H3 Hclean. unfold exportModel, exportModel_try.
  rewrite (configureVisualization_unknown_theme self options theme)
    by done.
  destruct (validateModel options), (strictValidation options);
    cbn [andb]; rewrite ?andb_false_r; try done.
  cbn [errors]. rewrite (Hclean eq_refl eq_refl). done.
Qed.

(** X21. The convenience function is stricter than [exportModel]: when
    the lenient validation records errors (duplicate ids), [exportModel]
    still returns the document, but [exportToXml] throws
    ["Export failed: <errors>"]. *)
Theorem exportToXml_rejects_recorded_errors
    (self self' : XmlExporter.t) (elements : list BaseElement)
    (relationships : list Relationship) (options : XmlExportOptions)
    (document : string) :
  validateModel options = true → strictValidation options = false →
  (validateModelInputs elements relationships false).2 ≠ [] →
  configureVisualization self options = Normal self' →
  generate elements relationships (buildModelOptions options) = Normal document →
  (∃ result,
     (exportModel generate self elements relationships options).1 = Normal result ∧
     xml result = document) ∧
  exportToXml generate self elements relationships options =
  Throw (mkError ("Export failed: " +:+
                  join ", " (validateModelInputs elements relationships false).2)).
Proof.
  intros Hv Hs Herr Hc Hg. unfold exportToXml, exportModel, exportModel_try.
  rewrite Hv, Hs, andb_false_r, Hc, Hg. cbn [fst].
  split.
  - eexists. split; [reflexivity|]. by destruct (includeStatistics options).
  - destruct (includeStatistics options); simpl;
      (rewrite bool_decide_eq_true_2; [done|]);
      destruct (validateModelInputs elements relationships false).2;
      simpl; try done; lia.
Qed.

(** X22. With its default options [exportRelationshipsOnly] validates
    the references: given an element array, one relationship with an
    unknown end makes the call throw; without an element array nothing is
    validated and the call throws only if the template cannot be read. *)
Theorem exportRelationshipsOnly_validates_by_default
    (relationships : list Relationship) (options : PartialRelationshipOptions) :
  (∀ elements r,
     p_validateReferences options = None ∨
     p_validateReferences options = Some true →
     r ∈ relationships →
     source r ∉ ids elements ∨ target r ∉ ids elements →
     ∃ e, exportRelationshipsOnly relationships (Some elements) options
          = Throw e) ∧
  (∀ template,
     readFileSync "relationship-template.xml" = Normal template →
     ∃ fragment, exportRelationshipsOnly relationships None options
                 = Normal fragment).
Proof.
  split.
  - intros elements r Hv Hr Hdangling. unfold exportRelationshipsOnly.
    apply (RelationshipProofs.generateRelationships_throws _ _ _ r);
      [|done|done].
    by destruct Hv as [-> | ->].
  - intros template Ht. unfold exportRelationshipsOnly.
    rewrite (RelationshipExtra.generateRelationships_outcome template Ht).
    unfold RelationshipExtra.outcome, RelationshipExtra.checkedAgainst.
    eexists. by destruct (RelationshipXmlGenerator.validateReferences _).
Qed.

(** X23. Views are generated unless [includeViews] is [false], but view
    statistics are collected only if it is [true]: the document and the
    statistics agree on the views exactly when the option is given. *)
Theorem view_statistics_need_explicit_flag
    (self : XmlExporter.t) (elements : list BaseElement)
    (relationships : list Relationship) (options : XmlExportOptions) :
  (mo_includeViews (buildModelOptions options) = true ↔
   includeViews options ≠ Some false) ∧
  (is_Some (st_views (collectStatistics self elements relationships options)) ↔
   includeViews options = Some true) ∧
  (includeViews options = None →
   mo_includeViews (buildModelOptions options) = true ∧
   st_views (collectStatistics self elements relationships options) = None).
Proof.
  unfold buildModelOptions, collectStatistics. cbn [mo_includeViews st_views].
  destruct (includeViews options) as [[|]|]; cbn [default from_option];
    repeat split; try done; try by intros [? ?].
  all: try by intros [=].
Qed.

End WithHost.

(** X24. [createXmlExporter] ignores which theme a theme name names: every
    non-empty name gives the ArchiMate theme, also the names for which
    [setColorTheme] installs another theme, and the names it rejects. *)
Theorem createXmlExporter_ignores_theme_name
    (theme : string) (layoutConfig : option LayoutEngine.PartialLayoutConfiguration)
    (self : XmlExporter.t) :
  theme ≠ "" →
  exporterTheme
    (createXmlExporter (Some (mkCreateOptions (Some (ThemeName theme))
                                layoutConfig)))
  = ColorTheme.createArchiMateTheme ∧
  (theme = "monochrome" ∨ theme = "high-contrast" →
   ∃ self', setColorTheme self (ThemeName theme) = Normal self' ∧
            exporterTheme self' ≠ ColorTheme.createArchiMateTheme).
Proof.
  intros Hne. split.
  - unfold createXmlExporter. cbn [mbind option_bind co_colorTheme].
    by destruct theme.
  - intros [-> | ->]; eexists; (split; [reflexivity|]);
      cbn [exporterTheme]; intros Heq;
      apply (f_equal (fun th => ColorTheme.fillColor
                        (ColorTheme.getColorsForElement th GOAL))) in Heq;
      vm_compute in Heq; discriminate.
Qed.

(** A model generator that returns the same document for every model. *)
Definition fixedGenerate (elements : list BaseElement)
    (relationships : list Relationship) (options : ModelExportOptions)
  : Completion string :=
  Normal "<model/>".

Lemma returned_result_is_complete_witness :
  ∃ self' document,
    configureVisualization (XmlExporter.new None None)
      (Examples.exportOptions true false) = Normal self' ∧
    fixedGenerate [Examples.customer] []
      (buildModelOptions (Examples.exportOptions true false))
      = Normal document ∧
    (exportModel (H := Examples.host) fixedGenerate (XmlExporter.new None None)
       [Examples.customer] [] (Examples.exportOptions true false)).2 = self' ∧
    xml (mkResult "<model/>" None [] []) = document ∧
    statistics (mkResult "<model/>" None [] []) =
      (if includeStatistics (Examples.exportOptions true false)
       then Some (collectStatistics (H := Examples.host) self'
                    [Examples.customer] []
                    (Examples.exportOptions true false))
       else None) ∧
    (warnings (mkResult "<model/>" None [] []),
     errors (mkResult "<model/>" None [] [])) =
      (if validateModel (Examples.exportOptions true false)
       then validateModelInputs [Examples.customer] []
              (strictValidation (Examples.exportOptions true false))
       else ([], [])).
Proof.
  apply (returned_result_is_complete (H := Examples.host)).
  vm_compute. reflexivity.
Defined.

(** Strict validation of a clean model does not abort: the theme error
    is what the caller gets. *)
Lemma unknown_theme_aborts_export_witness :
  exportModel (H := Examples.host) fixedGenerate (XmlExporter.new None None)
    [Examples.customer] []
    (mkExportOptions None None None None None (Some (ThemeName "sepia")) None
       true true false) =
  (Throw (mkError ("Unknown color theme: " +:+ "sepia")),
   XmlExporter.new None None).
Proof.
  apply (unknown_theme_aborts_export (H := Examples.host)); done.
Defined.

Lemma exportToXml_rejects_recorded_errors_witness :
  (∃ result,
     (exportModel (H := Examples.host) fixedGenerate (XmlExporter.new None None)
        [Examples.goalX; Examples.actorX] []
        (Examples.exportOptions true false)).1 = Normal result ∧
     xml result = "<model/>") ∧
  exportToXml (H := Examples.host) fixedGenerate (XmlExporter.new None None)
    [Examples.goalX; Examples.actorX] [] (Examples.exportOptions true false) =
  Throw (mkError ("Export failed: " +:+
                  join ", " (validateModelInputs
                               [Examples.goalX; Examples.actorX] [] false).2)).
Proof.
  apply (exportToXml_rejects_recorded_errors (H := Examples.host) fixedGenerate
           (XmlExporter.new None None) (XmlExporter.new None None));
    try reflexivity.
  by vm_compute.
Defined.

Example exportToXml_duplicate_example :
  exportToXml (H := Examples.host) fixedGenerate (XmlExporter.new None None)
    [Examples.goalX; Examples.actorX] [] (Examples.exportOptions true false) =
  Throw (mkError "Export failed: Duplicate element IDs found: x").
Proof. by vm_compute. Qed.

Lemma createXmlExporter_ignores_theme_name_witness :
  exporterTheme
    (createXmlExporter (Some (mkCreateOptions (Some (ThemeName "monochrome"))
                                None)))
  = ColorTheme.createArchiMateTheme ∧
  ("monochrome" = "monochrome" ∨ "monochrome" = "high-contrast" →
   ∃ self', setColorTheme (XmlExporter.new None None) (ThemeName "monochrome")
            = Normal self' ∧
            exporterTheme self' ≠ ColorTheme.createArchiMateTheme).
Proof. by apply createXmlExporter_ignores_theme_name. Defined.

End ExporterExtra.

(** ** Statistics *)

Module StatisticsExtra.

Import ElementXmlGenerator RelationshipXmlGenerator GroupingFacts.

Section Counting.
Context {A K : Type} `{Countable K}.
Variable key : A → K.

(** The counting loop [m.set(k, (m.get(k) || 0) + 1)]. *)
Definition countStep (m : gmap K nat) (x : A) : gmap K nat :=
  <[key x := (default 0 (m !! key x) + 1)%nat]> m.

Definition occurrences (k : K) (l : list A) : nat :=
  length (filter (fun x => key x = k) l).

Lemma count_fold (l : list A) (k : K) :
  foldl countStep ∅ l !! k =
  if decide (occurrences k l = 0%nat) then None else Some (occurrences k l).
Proof.
  unfold occurrences.
  induction l as [|x l IH] using rev_ind; [done|].
  rewrite foldl_app, filter_app, length_app. cbn [foldl]. unfold countStep at 1.
  destruct (decide (key x = k)) as [Heq|Hne].
  - rewrite filter_cons_True, filter_nil by done. subst k.
    rewrite lookup_insert_eq, IH. cbn [length].
    set (n := length (filter _ l)).
    destruct (decide (n = 0%nat)) as [->|?]; [done|].
    rewrite decide_False by lia. done.
  - rewrite filter_cons_False, filter_nil by done.
    rewrite lookup_insert_ne, IH by done. cbn [length].
    by rewrite Nat.add_0_r.
Qed.

Lemma count_fold_default (l : list A) (k : K) :
  default 0%nat (foldl countStep ∅ l !! k) = occurrences k l.
Proof. rewrite count_fold. by case_decide. Qed.

Lemma count_sum (keys : list K) (l : list A) :
  NoDup keys → (∀ x, x ∈ l → key x ∈ keys) →
  sum_list (map (fun k => default 0%nat (foldl countStep ∅ l !! k)) keys) =
  length l.
Proof.
  intros Hnd Hall.
  rewrite (map_ext _ (fun k => occurrences k l))
    by (intros; apply count_fold_default).
  unfold occurrences. rewrite <- groupsIn_length.
  by rewrite (groupsIn_perm key keys l Hnd Hall).
Qed.

End Counting.

Lemma RelationshipType_values_complete (ty : RelationshipType) :
  ty ∈ RelationshipType_values.
Proof. unfold RelationshipType_values. destruct ty; set_solver. Qed.

Lemma RelationshipType_values_NoDup : NoDup RelationshipType_values.
Proof. apply (bool_decide_unpack _). by vm_compute. Qed.

Lemma Layer_values_complete (l : Layer) : l ∈ Layer_values.
Proof. unfold Layer_values. destruct l; set_solver. Qed.

Lemma Layer_values_NoDup : NoDup Layer_values.
Proof. apply (bool_decide_unpack _). by vm_compute. Qed.

Lemma ElementType_values_complete (ty : ElementType) : ty ∈ ElementType_values.
Proof.
  apply (bool_decide_unpack _). destruct ty; by vm_compute.
Qed.

Lemma ElementType_values_NoDup : NoDup ElementType_values.
Proof. apply (bool_decide_unpack _). by vm_compute. Qed.

Lemma relationship_fold (relationships : list Relationship) :
  foldl (fun '(byType, unique) relationship =>
           (<[rel_type relationship :=
                (default 0 (byType !! rel_type relationship) + 1)%nat]> byType,
            ({[target relationship]} ∪ ({[source relationship]} ∪ unique)
             : gset string)))
        (∅, ∅) relationships =
  (foldl (countStep rel_type) ∅ relationships,
   foldl (fun unique r => {[target r]} ∪ ({[source r]} ∪ unique)) ∅
     relationships).
Proof.
  induction relationships as [|r rs IH] using rev_ind; [done|].
  rewrite !foldl_app, IH. done.
Qed.

Lemma unique_fold (relationships : list Relationship) (i : string) :
  i ∈ foldl (fun (unique : gset string) r =>
               {[target r]} ∪ ({[source r]} ∪ unique)) ∅ relationships ↔
  ∃ r, r ∈ relationships ∧ (source r = i ∨ target r = i).
Proof.
  induction relationships as [|r rs IH] using rev_ind.
  - simpl. split; [set_solver|]. intros (r & Hr & _). by apply elem_of_nil in Hr.
  - rewrite foldl_app. cbn [foldl]. rewrite !elem_of_union, !elem_of_singleton, IH.
    split.
    + intros [->|[->|(r' & Hr' & Hi)]].
      * exists r. split; [set_solver|by right].
      * exists r. split; [set_solver|by left].
      * exists r'. split; [set_solver|done].
    + intros (r' & Hr' & Hi). apply elem_of_app in Hr' as [Hr'|Hr'].
      * right. right. by exists r'.
      * apply list_elem_of_singleton in Hr' as ->.
        destruct Hi as [<-|<-]; tauto.
Qed.

(** X25. The relationship statistics count correctly: the total is the
    number of relationships, a type is listed exactly when a relationship
    has it, with the number of such relationships, the counts of all
    types add up to the total, and the unique elements are exactly the
    ids that occur as a source or a target. *)
Theorem relationship_statistics_count (relationships : list Relationship) :
  totalRelationships (getRelationshipStatistics relationships) =
    length relationships ∧
  (∀ ty,
     relationshipsByType (getRelationshipStatistics relationships) !! ty =
     if decide (occurrences rel_type ty relationships = 0%nat) then None
     else Some (occurrences rel_type ty relationships)) ∧
  sum_list
    (map (fun ty =>
            default 0%nat
              (relationshipsByType (getRelationshipStatistics relationships)
                 !! ty))
       RelationshipType_values) = length relationships ∧
  (∀ i, i ∈ uniqueElements (getRelationshipStatistics relationships) ↔
        ∃ r, r ∈ relationships ∧ (source r = i ∨ target r = i)).
Proof.
  unfold getRelationshipStatistics. rewrite relationship_fold.
  cbn [totalRelationships relationshipsByType uniqueElements].
  split; [done|]. split; [apply count_fold|]. split.
  - apply count_sum; [apply RelationshipType_values_NoDup|].
    intros. apply RelationshipType_values_complete.
  - apply unique_fold.
Qed.

Lemma element_fold (elements : list BaseElement) :
  foldl (fun '(byLayer, byType) element =>
           (<[layer element :=
                (default 0 (byLayer !! layer element) + 1)%nat]> byLayer,
            <[type element :=
                (default 0 (byType !! type element) + 1)%nat]> byType))
        (∅, ∅) elements =
  (foldl (countStep layer) ∅ elements, foldl (countStep type) ∅ elements).
Proof.
  induction elements as [|e es IH] using rev_ind; [done|].
  rewrite !foldl_app, IH. done.
Qed.

(** X26. The element statistics count correctly: the total is the number
    of elements; a layer, and a type, is listed exactly when an element
    has it, with the number of such elements; the counts of all layers,
    and those of all types, add up to the total. *)
Theorem element_statistics_count (elements : list BaseElement) :
  totalElements (getElementStatistics elements) = length elements ∧
  (∀ l,
     elementsByLayer (getElementStatistics elements) !! l =
     if decide (occurrences layer l elements = 0%nat) then None
     else Some (occurrences layer l elements)) ∧
  (∀ ty,
     elementsByType (getElementStatistics elements) !! ty =
     if decide (occurrences type ty elements = 0%nat) then None
     else Some (occurrences type ty elements)) ∧
  sum_list
    (map (fun l =>
            default 0%nat (elementsByLayer (getElementStatistics elements) !! l))
       Layer_values) = length elements ∧
  sum_list
    (map (fun ty =>
            default 0%nat (elementsByType (getElementStatistics elements) !! ty))
       ElementType_values) = length elements.
Proof.
  unfold getElementStatistics. rewrite element_fold.
  cbn [totalElements elementsByLayer elementsByType].
  split; [done|]. split; [apply count_fold|]. split; [apply count_fold|].
  split.
  - apply count_sum; [apply Layer_values_NoDup|].
    intros. apply Layer_values_complete.
  - apply count_sum; [apply ElementType_values_NoDup|].
    intros. apply ElementType_values_complete.
Qed.

End StatisticsExtra.

(** ** The model check of the XML validator *)

Module ModelValidatorExtra.

Import XmlValidator IntegrityExtra.

Section Scan.
Context {A : Type}.
Variable key : A → string.
Variable mk : A → ValidationError.
Variable describe : string → string.
Hypothesis mk_message : ∀ x, ve_message (mk x) = describe (key x).

(** The uniqueness loops: [seen] is the [Set] of the ids met so far. *)
Definition scanStep
  : gset string * ValidationResult → A → gset string * ValidationResult :=
  fun '(seen, result) x =>
    if bool_decide (key x ∈ seen)
    then (seen, reject result (mk x))
    else ({[key x]} ∪ seen, result).

Lemma scan_fold (l : list A) (seen : gset string) (result : ValidationResult) :
  (∀ i, i ∈ (foldl scanStep (seen, result) l).1 ↔ i ∈ map key l ∨ i ∈ seen) ∧
  warnings (foldl scanStep (seen, result) l).2 = warnings result ∧
  map ve_message (errors (foldl scanStep (seen, result) l).2) =
    map ve_message (errors result) ++
    map describe (duplicatesFrom seen (map key l)) ∧
  isValid (foldl scanStep (seen, result) l).2 =
    isValid result && bool_decide (duplicatesFrom seen (map key l) = []).
Proof.
  revert seen result. induction l as [|x l IH]; intros seen result.
  - cbn [foldl map fst snd]. unfold duplicatesFrom. cbn [foldl snd map].
    rewrite app_nil_r, andb_true_r. repeat split; try done.
    + intros ?. by right.
    + intros [?%elem_of_nil|?]; done.
  - cbn [foldl map]. rewrite duplicatesFrom_cons. unfold scanStep at 2 4 6 8.
    case_bool_decide as Hseen.
    + destruct (IH seen (reject result (mk x))) as (Hset & Hw & He & Hv).
      rewrite Hw, He, Hv. cbn [reject errors warnings isValid map].
      rewrite map_app, <- app_assoc. cbn [map app]. rewrite mk_message.
      rewrite andb_false_r. repeat split; try done.
      * intros Hi. apply Hset in Hi as [?|?]; [left; by right | by right].
      * intros [[->|?]%elem_of_cons|?]; apply Hset; auto.
    + destruct (IH ({[key x]} ∪ seen) result) as (Hset & Hw & He & Hv).
      rewrite Hw, He, Hv. repeat split; try done.
      * intros Hi. apply Hset in Hi as [?|[->%elem_of_singleton|?]%elem_of_union];
          [left; by right | left; by left | by right].
      * intros [[->|?]%elem_of_cons|?]; apply Hset; set_solver.
Qed.

End Scan.

(** The messages of the reference check for one relationship. *)
Definition danglingMessages (elements : list BaseElement) (r : Relationship)
  : list string :=
  (if decide (source r ∈ ids elements) then []
   else ["Relationship references unknown source element: " +:+ source r]) ++
  (if decide (target r ∈ ids elements) then []
   else ["Relationship references unknown target element: " +:+ target r]).

Definition referenceStep (elementIds : gset string) (result : ValidationResult)
    (relationship : Relationship) : ValidationResult :=
  let result :=
    if negb (bool_decide (source relationship ∈ elementIds)) then
      reject result
        (mkValidationError reference None None
           ("Relationship references unknown source element: " +:+
            source relationship)
           (Some (rel_id relationship)) None)
    else result in
  if negb (bool_decide (target relationship ∈ elementIds)) then
    reject result
      (mkValidationError reference None None
         ("Relationship references unknown target element: " +:+
          target relationship)
         (Some (rel_id relationship)) None)
  else result.

Lemma reference_fold (elements : list BaseElement) (elementIds : gset string)
    (rs : list Relationship) (result : ValidationResult) :
  (∀ i, i ∈ elementIds ↔ i ∈ ids elements) →
  warnings (foldl (referenceStep elementIds) result rs) = warnings result ∧
  map ve_message (errors (foldl (referenceStep elementIds) result rs)) =
    map ve_message (errors result) ++ flat_map (danglingMessages elements) rs ∧
  isValid (foldl (referenceStep elementIds) result rs) =
    isValid result && bool_decide (Forall (wellReferenced elements) rs).
Proof.
  intros Hids. revert result. induction rs as [|r rs IH]; intros result.
  - cbn [foldl flat_map]. rewrite app_nil_r, bool_decide_eq_true_2 by done.
    by rewrite andb_true_r.
  - cbn [foldl flat_map].
    destruct (IH (referenceStep elementIds result r)) as (Hw & He & Hv).
    rewrite Hw, He, Hv. unfold referenceStep, danglingMessages, wellReferenced.
    rewrite (bool_decide_ext _ _ (Hids (source r))),
      (bool_decide_ext _ _ (Hids (target r))).
    rewrite (bool_decide_ext _ _ (Forall_cons _ r rs)).
    destruct (decide (source r ∈ ids elements)) as [Hs|Hs];
      destruct (decide (target r ∈ ids elements)) as [Ht|Ht];
      rewrite ?(bool_decide_eq_true_2 _ Hs), ?(bool_decide_eq_false_2 _ Hs),
        ?(bool_decide_eq_true_2 _ Ht), ?(bool_decide_eq_false_2 _ Ht);
      cbn [negb reject errors warnings isValid app];
      rewrite ?map_app, <- ?app_assoc; cbn [map app];
      (split; [done|]); (split; [done|]);
      rewrite ?andb_false_l, ?andb_false_r.
    + destruct (isValid result); [|done]. cbn [andb].
      apply bool_decide_ext. tauto.
    + symmetry. rewrite andb_false_iff. right.
      apply bool_decide_eq_false. tauto.
    + symmetry. rewrite andb_false_iff. right.
      apply bool_decide_eq_false. tauto.
    + symmetry. rewrite andb_false_iff. right.
      apply bool_decide_eq_false. tauto.
Qed.

Lemma validateModel_unfold elements relationships :
  validateModel elements relationships =
  foldl (referenceStep
           (foldl (scanStep id
                     (fun element =>
                        mkValidationError uniqueness None None
                          ("Duplicate element ID: " +:+ id element)
                          (Some (name element)) None))
              (∅, mkValidationResult true [] []) elements).1)
    (foldl (scanStep rel_id
              (fun relationship =>
                 mkValidationError uniqueness None None
                   ("Duplicate relationship ID: " +:+ rel_id relationship)
                   None None))
       (∅, (foldl (scanStep id
                     (fun element =>
                        mkValidationError uniqueness None None
                          ("Duplicate element ID: " +:+ id element)
                          (Some (name element)) None))
              (∅, mkValidationResult true [] []) elements).2)
       relationships).2
    relationships.
Proof.
  unfold validateModel, scanStep. cbv beta.
  destruct (foldl _ (∅, mkValidationResult true [] []) elements)
    as [elementIds result1].
  cbn [fst snd].
  destruct (foldl _ (∅, result1) relationships) as [relationshipIds result2].
  reflexivity.
Qed.

Lemma danglingMessages_nil elements rs :
  flat_map (danglingMessages elements) rs = [] ↔
  Forall (wellReferenced elements) rs.
Proof.
  induction rs as [|r rs IH]; [by split|].
  cbn [flat_map]. rewrite Forall_cons, <- IH. unfold danglingMessages,
    wellReferenced.
  repeat case_decide; cbn [app]; split; try done; try tauto.
  all: by intros [[? ?] ?].
Qed.

Lemma validateModel_parts elements relationships :
  warnings (validateModel elements relationships) = [] ∧
  map ve_message (errors (validateModel elements relationships)) =
    map (fun i => "Duplicate element ID: " +:+ i)
      (XmlExporter.duplicates (ids elements)) ++
    map (fun i => "Duplicate relationship ID: " +:+ i)
      (XmlExporter.duplicates (map rel_id relationships)) ++
    flat_map (danglingMessages elements) relationships ∧
  isValid (validateModel elements relationships) =
    bool_decide (XmlExporter.duplicates (ids elements) = []) &&
    bool_decide (XmlExporter.duplicates (map rel_id relationships) = []) &&
    bool_decide (Forall (wellReferenced elements) relationships).
Proof.
  rewrite validateModel_unfold.
  destruct (scan_fold id
              (fun element =>
                 mkValidationError uniqueness None None
                   ("Duplicate element ID: " +:+ id element)
                   (Some (name element)) None)
              (fun i => "Duplicate element ID: " +:+ i)
              (fun _ => eq_refl) elements ∅
              (mkValidationResult true [] [])) as (Hset1 & Hw1 & He1 & Hv1).
  destruct (scan_fold rel_id
              (fun relationship =>
                 mkValidationError uniqueness None None
                   ("Duplicate relationship ID: " +:+ rel_id relationship)
                   None None)
              (fun i => "Duplicate relationship ID: " +:+ i)
              (fun _ => eq_refl) relationships ∅
              (foldl (scanStep id
                        (fun element =>
                           mkValidationError uniqueness None None
                             ("Duplicate element ID: " +:+ id element)
                             (Some (name element)) None))
                 (∅, mkValidationResult true [] []) elements).2)
    as (_ & Hw2 & He2 & Hv2).
  edestruct (reference_fold elements) as (Hw3 & He3 & Hv3); last first.
  { rewrite Hw3, He3, Hv3, Hw2, He2, Hv2, Hw1, He1, Hv1.
    cbn [warnings errors isValid map app andb].
    by rewrite <- app_assoc. }
  intros i. rewrite Hset1. unfold ids. set_solver.
Qed.

Lemma validateModel_valid_iff elements relationships :
  isValid (validateModel elements relationships) = true ↔
  NoDup (ids elements) ∧ NoDup (map rel_id relationships) ∧
  Forall (wellReferenced elements) relationships.
Proof.
  destruct (validateModel_parts elements relationships) as (_ & _ & ->).
  rewrite !andb_true_iff, !bool_decide_eq_true, !duplicates_nil_iff. tauto.
Qed.

(** X27. The model check of the XML validator raises no warning; its
    errors are, in this order, one for every repeated occurrence of an
    element id, one for every repeated occurrence of a relationship id,
    and for every relationship one for an unknown source and one for an
    unknown target.  The model is valid exactly when there is no error,
    that is when the element ids are pairwise distinct, the relationship
    ids are pairwise distinct and both ends of every relationship are
    element ids. *)
Theorem validateModel_verdict
    (elements : list BaseElement) (relationships : list Relationship) :
  warnings (validateModel elements relationships) = [] ∧
  map ve_message (errors (validateModel elements relationships)) =
    map (fun i => "Duplicate element ID: " +:+ i)
      (XmlExporter.duplicates (ids elements)) ++
    map (fun i => "Duplicate relationship ID: " +:+ i)
      (XmlExporter.duplicates (map rel_id relationships)) ++
    flat_map (danglingMessages elements) relationships ∧
  (isValid (validateModel elements relationships) = true ↔
   errors (validateModel elements relationships) = []) ∧
  (isValid (validateModel elements relationships) = true ↔
   NoDup (ids elements) ∧ NoDup (map rel_id relationships) ∧
   Forall (wellReferenced elements) relationships).
Proof.
  destruct (validateModel_parts elements relationships) as (Hw & He & Hv).
  split; [done|]. split; [done|]. split; [|apply validateModel_valid_iff].
  rewrite validateModel_valid_iff.
  rewrite <- !duplicates_nil_iff, <- danglingMessages_nil.
  split.
  - intros (H1 & H2 & H3). rewrite H1, H2, H3 in He.
    by apply map_eq_nil in He.
  - intros Hnil. rewrite Hnil in He. symmetry in He.
    apply app_eq_nil in He as (H1%map_eq_nil & He).
    apply app_eq_nil in He as (H2%map_eq_nil & H3). done.
Qed.

(** X28. The strict pre-export validation of the exporter and the model
    check of the XML validator agree except on the empty model, which
    only the exporter rejects: the exporter records no error exactly
    for the non-empty models the validator finds valid. *)
Theorem strict_export_validation_agrees_with_validator
    (elements : list BaseElement) (relationships : list Relationship) :
  (XmlExporter.validateModelInputs elements relationships true).2 = [] ↔
  elements ≠ [] ∧ isValid (validateModel elements relationships) = true.
Proof.
  rewrite validateModel_valid_iff, ExporterProofs.validateModelInputs_classified.
  cbn [snd].
  rewrite <- emptyIssue_nil, <- (orphanIssue_nil elements relationships),
    <- duplicateElementIssue_nil, <- duplicateRelationshipIssue_nil.
  split.
  - intros ([? ?]%app_eq_nil & [? ?]%app_eq_nil)%app_eq_nil. done.
  - intros (-> & -> & -> & ->). done.
Qed.

Example validateModel_example :
  map ve_message
    (errors (validateModel [Examples.goalX; Examples.actorX]
               [Examples.dangling])) =
  ["Duplicate element ID: x";
   "Relationship references unknown source element: a";
   "Relationship references unknown target element: zz"].
Proof. by vm_compute. Qed.

End ModelValidatorExtra.

(** ** Reading type names *)

Module ParseExtra.

Import Server.

Fixpoint hasSeparator (s : string) : bool :=
  match s with
  | EmptyString => false
  | String c s' => isSeparator c || hasSeparator s'
  end.

Lemma lowerChar_separator c : isSeparator (lowerChar c) = isSeparator c.
Proof.
  destruct c as [[] [] [] [] [] [] [] []]; vm_compute; reflexivity.
Qed.

Lemma normalize_no_separator s : hasSeparator (normalize s) = false.
Proof.
  unfold normalize. induction s as [|c s IH]; [done|].
  cbn [removeSeparators]. destruct (isSeparator c) eqn:Hc; [done|].
  cbn [toLowerCase hasSeparator]. by rewrite lowerChar_separator, Hc, IH.
Qed.

Lemma find_unique {A} (f : A → bool) (l : list A) (x : A) :
  (∀ y z, f y = true → f z = true → y = z) →
  find f l = Some x ↔ x ∈ l ∧ f x = true.
Proof.
  intros Huniq. split.
  - intros Hf. apply find_some in Hf as [Hin Hfx].
    split; [by apply list_elem_of_In|done].
  - intros [Hin Hfx]. destruct (find f l) as [y|] eqn:Hfind.
    + apply find_some in Hfind as [_ Hfy]. f_equal. by apply Huniq.
    + apply list_elem_of_In in Hin.
      pose proof (find_none _ _ Hfind x Hin). congruence.
Qed.

Lemma NoDup_map_inj {A B} (f : A → B) (l : list A) (x y : A) :
  NoDup (map f l) → x ∈ l → y ∈ l → f x = f y → x = y.
Proof.
  induction l as [|a l IH]; intros Hnd Hx Hy Hf; [by apply elem_of_nil in Hx|].
  cbn [map] in Hnd. apply NoDup_cons in Hnd as [Ha Hnd].
  apply elem_of_cons in Hx as [->|Hx]; apply elem_of_cons in Hy as [->|Hy];
    try done.
  - exfalso. apply Ha. rewrite Hf. apply list_elem_of_In, in_map.
    by apply list_elem_of_In.
  - exfalso. apply Ha. rewrite <- Hf. apply list_elem_of_In, in_map.
    by apply list_elem_of_In.
  - by apply IH.
Qed.

(** A key without separators spells, in lower case, the normalised value;
    a key with a separator is never equal to a normalised name. *)
Lemma element_key_subsumed ty :
  hasSeparator (toLowerCase (ElementType_key ty)) ||
  String.eqb (toLowerCase (ElementType_key ty))
    (normalize (ElementType_value ty)) = true.
Proof. destruct ty; vm_compute; reflexivity. Qed.

Lemma relationship_key_subsumed ty :
  hasSeparator (toLowerCase (RelationshipType_key ty)) ||
  String.eqb (toLowerCase (RelationshipType_key ty))
    (normalize (RelationshipType_value ty)) = true.
Proof. destruct ty; vm_compute; reflexivity. Qed.

Lemma element_values_distinct :
  NoDup (map (fun ty => normalize (ElementType_value ty)) ElementType_values).
Proof. apply (bool_decide_unpack _). by vm_compute. Qed.

Lemma relationship_values_distinct :
  NoDup (map (fun ty => normalize (RelationshipType_value ty))
           RelationshipType_values).
Proof. apply (bool_decide_unpack _). by vm_compute. Qed.

Section Matching.
Context {T : Type}.
Variables (value key : T → string) (values : list T).
Hypothesis key_subsumed :
  ∀ ty, hasSeparator (toLowerCase (key ty)) ||
        String.eqb (toLowerCase (key ty)) (normalize (value ty)) = true.
Hypothesis values_distinct :
  NoDup (map (fun ty => normalize (value ty)) values).
Hypothesis values_complete : ∀ ty, ty ∈ values.

Definition matches (n : string) (ty : T) : bool :=
  String.eqb (normalize (value ty)) n || String.eqb (toLowerCase (key ty)) n.

Lemma matches_iff n ty :
  hasSeparator n = false →
  matches n ty = true ↔ normalize (value ty) = n.
Proof.
  intros Hn. unfold matches. rewrite orb_true_iff, !String.eqb_eq.
  split; [|by left]. intros [?|Hkey]; [done|].
  pose proof (key_subsumed ty) as Hsub. rewrite Hkey, Hn in Hsub.
  cbn [orb] in Hsub. apply String.eqb_eq in Hsub. congruence.
Qed.

Lemma find_matches type ty :
  find (matches (normalize type)) values = Some ty ↔
  normalize (value ty) = normalize type.
Proof.
  rewrite find_unique.
  - rewrite matches_iff by apply normalize_no_separator.
    split; [by intros [_ ?]|]. by split.
  - intros y z Hy Hz.
    apply matches_iff in Hy, Hz; try apply normalize_no_separator.
    apply (NoDup_map_inj (fun ty => normalize (value ty)) values);
      [done|done|done|congruence].
Qed.

End Matching.

Section Parse.
Variable findSimilarElementTypes : string → list string.
Variable findSimilarRelationshipTypes : string → list string.

Lemma parseElementType_Normal type ty :
  parseElementType findSimilarElementTypes type = Normal ty ↔
  normalize (ElementType_value ty) = normalize type.
Proof.
  pose proof (find_matches ElementType_value ElementType_key
                ElementType_values element_key_subsumed
                element_values_distinct
                StatisticsExtra.ElementType_values_complete type ty) as Hfind.
  unfold parseElementType. unfold matches in Hfind.
  destruct (find _ ElementType_values); split; rewrite <- ?Hfind; congruence.
Qed.

Lemma parseRelationshipType_Normal type ty :
  parseRelationshipType findSimilarRelationshipTypes type = Normal ty ↔
  normalize (RelationshipType_value ty) = normalize type.
Proof.
  pose proof (find_matches RelationshipType_value RelationshipType_key
                RelationshipType_values relationship_key_subsumed
                relationship_values_distinct
                StatisticsExtra.RelationshipType_values_complete type ty)
    as Hfind.
  unfold parseRelationshipType. unfold matches in Hfind.
  destruct (find _ RelationshipType_values); split; rewrite <- ?Hfind;
    congruence.
Qed.

Lemma normalize_key_element ty :
  normalize (ElementType_key ty) = normalize (ElementType_value ty).
Proof. destruct ty; vm_compute; reflexivity. Qed.

Lemma normalize_key_relationship ty :
  normalize (RelationshipType_key ty) = normalize (RelationshipType_value ty).
Proof. destruct ty; vm_compute; reflexivity. Qed.

(** X29. A type name is accepted as an element type (a relationship
    type) exactly when it spells the value of that type up to case,
    underscores, hyphens and white space; no name is read as two types,
    and the value and the key of every type are read as that type. *)
Theorem type_names_read_up_to_spelling :
  (∀ type ty,
     parseElementType findSimilarElementTypes type = Normal ty ↔
     normalize type = normalize (ElementType_value ty)) ∧
  (∀ ty,
     parseElementType findSimilarElementTypes (ElementType_value ty)
       = Normal ty ∧
     parseElementType findSimilarElementTypes (ElementType_key ty)
       = Normal ty) ∧
  (∀ type ty,
     parseRelationshipType findSimilarRelationshipTypes type = Normal ty ↔
     normalize type = normalize (RelationshipType_value ty)) ∧
  (∀ ty,
     parseRelationshipType findSimilarRelationshipTypes
       (RelationshipType_value ty) = Normal ty ∧
     parseRelationshipType findSimilarRelationshipTypes
       (RelationshipType_key ty) = Normal ty).
Proof.
  split; [|split; [|split]].
  - intros type ty. rewrite parseElementType_Normal. split; congruence.
  - intros ty. rewrite !parseElementType_Normal.
    by rewrite normalize_key_element.
  - intros type ty. rewrite parseRelationshipType_Normal. split; congruence.
  - intros ty. rewrite !parseRelationshipType_Normal.
    by rewrite normalize_key_relationship.
Qed.

End Parse.

Example parseElementType_examples :
  parseElementType (fun _ => []) "business-actor" = Normal BUSINESS_ACTOR ∧
  parseElementType (fun _ => []) "Course of Action" = Normal COURSE_OF_ACTION ∧
  parseElementType (fun _ => ["Goal"]) "Goat" =
  Throw (mkError
           ("Unknown element type: " +:+ String "034" "Goat" +:+
            String "034" ". Did you mean: Goal? Use the list_archimate_elements tool to see all 59 available types. Popular types include: Stakeholder, Driver, Assessment, Goal, Outcome...")).
Proof. repeat split; by vm_compute. Qed.

End ParseExtra.

(** ** The edit distance *)

Module LevenshteinExtra.

Import Server.

Section Distance.
Variables a b : string.

Definition cost (i j : nat) : nat :=
  if bool_decide (String.get i a = String.get j b) then 0%nat else 1%nat.

(** The Levenshtein recurrence on the prefix of length [i] of [a] and the
    prefix of length [j] of [b]. *)
Fixpoint lev (i : nat) : nat → nat :=
  match i with
  | O => fun j => j
  | S i' =>
      fix row (j : nat) : nat :=
        match j with
        | O => S i'
        | S j' =>
            Nat.min (lev i' (S j') + 1)
              (Nat.min (row j' + 1) (lev i' j' + cost i' j'))
        end
  end.

Lemma lev_0_l j : lev 0 j = j.
Proof. done. Qed.

Lemma lev_0_r i : lev i 0 = i.
Proof. by destruct i. Qed.

Lemma lev_S i j :
  lev (S i) (S j) =
  Nat.min (lev i (S j) + 1) (Nat.min (lev (S i) j + 1) (lev i j + cost i j)).
Proof. done. Qed.

(** The state of the matrix while it is filled: the rows up to [J] and
    the first [I] cells of row [J + 1] hold the recurrence, and so do the
    first cells of all rows. *)
Definition filled (matrix : gmap (nat * nat) nat) (J I : nat) : Prop :=
  (∀ j i, (j ≤ J)%nat → (i ≤ String.length a)%nat →
          matrix !! (j, i) = Some (lev i j)) ∧
  (∀ i, (S J ≤ String.length b)%nat → (i ≤ I)%nat →
        matrix !! (S J, i) = Some (lev i (S J))) ∧
  (∀ j, (j ≤ String.length b)%nat → matrix !! (j, 0%nat) = Some j).

Definition fillCell (j : nat) (matrix : gmap (nat * nat) nat) (i : nat) : gmap (nat * nat) nat :=
  let cost :=
    if bool_decide (String.get (i - 1) a = String.get (j - 1) b)
    then 0%nat else 1%nat in
  <[(j, i) :=
      Nat.min (cell matrix j (i - 1) + 1)
        (Nat.min (cell matrix (j - 1) i + 1)
           (cell matrix (j - 1) (i - 1) + cost))]> matrix.

Lemma fillCell_filled matrix J I :
  (S J ≤ String.length b)%nat → (S I ≤ String.length a)%nat →
  filled matrix J I → filled (fillCell (S J) matrix (S I)) J (S I).
Proof.
  intros HJ HI (Hrows & Hrow & Hcol). unfold fillCell.
  replace (S I - 1)%nat with I by lia. replace (S J - 1)%nat with J by lia.
  unfold cell. rewrite (Hrow I), (Hrows J (S I)), (Hrows J I) by lia.
  cbn [default from_option Datatypes.id]. fold (cost I J).
  split; [|split].
  - intros j i Hj Hi. rewrite lookup_insert_ne; [by apply Hrows|].
    intros [= ? ?]. lia.
  - intros i _ Hi. destruct (decide (i = S I)) as [->|Hne].
    + rewrite lookup_insert_eq, lev_S. done.
    + rewrite lookup_insert_ne by congruence. apply Hrow; [done|lia].
  - intros j Hj. rewrite lookup_insert_ne; [by apply Hcol|]. congruence.
Qed.

Lemma fillRow_filled matrix J n :
  (S J ≤ String.length b)%nat → (n ≤ String.length a)%nat →
  filled matrix J 0 →
  filled (foldl (fillCell (S J)) matrix (seq 1 n)) J n.
Proof.
  intros HJ. induction n as [|n IH]; intros Hn Hfilled; [done|].
  rewrite seq_S, foldl_app. cbn [foldl Nat.add].
  apply fillCell_filled; [done|lia|]. apply IH; [lia|done].
Qed.

Lemma filled_next matrix J :
  (S J ≤ String.length b)%nat →
  filled matrix J (String.length a) → filled matrix (S J) 0.
Proof.
  intros HJ (Hrows & Hrow & Hcol). split; [|split; [|done]].
  - intros j i Hj Hi. destruct (decide (j = S J)) as [->|Hne].
    + by apply Hrow.
    + apply Hrows; lia.
  - intros i HJ' Hi. replace i with 0%nat by lia. rewrite lev_0_l.
    by apply Hcol.
Qed.

Lemma fillRows_filled matrix m :
  (m ≤ String.length b)%nat → filled matrix 0 0 →
  filled
    (foldl (fun matrix j => foldl (fillCell j) matrix (seq 1 (String.length a)))
       matrix (seq 1 m))
    m 0 ∨ m = 0%nat.
Proof.
  induction m as [|m IH]; intros Hm Hfilled; [by right|]. left.
  rewrite seq_S, foldl_app. cbn [foldl Nat.add].
  apply filled_next; [done|]. apply fillRow_filled; [done|done|].
  destruct IH as [IH| ->]; [lia|done|done|done].
Qed.

Lemma firstRow_lookup n j i :
  foldl (fun (matrix : gmap (nat * nat) nat) i => <[(0%nat, i) := i]> matrix) ∅ (seq 0 n)
    !! (j, i) =
  if decide (j = 0%nat ∧ (i < n)%nat) then Some i else None.
Proof.
  induction n as [|n IH]; [by case_decide as Hd; [destruct Hd; lia|]|].
  rewrite seq_S, foldl_app. cbn [foldl Nat.add].
  destruct (decide ((j, i) = (0%nat, n))) as [[= -> ->]|Hne].
  - rewrite lookup_insert_eq. rewrite decide_True by (split; [done|lia]). done.
  - rewrite lookup_insert_ne, IH by done.
    destruct (decide (j = 0%nat ∧ (i < n)%nat)) as [[Hj Hi]|Hn];
      destruct (decide (j = 0%nat ∧ (i < S n)%nat)) as [[Hj' Hi']|Hn'];
      try done.
    + exfalso. apply Hn'. split; [done|lia].
    + exfalso. apply Hn. split; [done|].
      assert (i ≠ n) by (intros ->; by subst). lia.
Qed.

Lemma firstColumn_lookup (matrix : gmap (nat * nat) nat) n j i :
  foldl (fun (matrix : gmap (nat * nat) nat) j => <[(j, 0%nat) := j]> matrix) matrix (seq 0 n)
    !! (j, i) =
  if decide (i = 0%nat ∧ (j < n)%nat) then Some j else matrix !! (j, i).
Proof.
  induction n as [|n IH]; [by case_decide as Hd; [destruct Hd; lia|]|].
  rewrite seq_S, foldl_app. cbn [foldl Nat.add].
  destruct (decide ((j, i) = (n, 0%nat))) as [[= -> ->]|Hne].
  - rewrite lookup_insert_eq. rewrite decide_True by (split; [done|lia]). done.
  - rewrite lookup_insert_ne, IH by done.
    destruct (decide (i = 0%nat ∧ (j < n)%nat)) as [[Hi Hj]|Hn];
      destruct (decide (i = 0%nat ∧ (j < S n)%nat)) as [[Hi' Hj']|Hn'];
      try done.
    + exfalso. apply Hn'. split; [done|lia].
    + exfalso. apply Hn. split; [done|].
      assert (j ≠ n) by (intros ->; by subst). lia.
Qed.

Lemma levenshteinDistance_lev :
  levenshteinDistance a b = lev (String.length a) (String.length b).
Proof.
  unfold levenshteinDistance.
  set (matrix0 := foldl _ (foldl _ ∅ _) (seq 0 (String.length b + 1))).
  assert (filled matrix0 0 0) as Hinit.
  { subst matrix0. split; [|split].
    - intros j i Hj Hi. replace j with 0%nat by lia.
      rewrite firstColumn_lookup, firstRow_lookup, lev_0_r.
      destruct (decide (i = 0%nat ∧ _)) as [[-> _]|_]; [done|].
      rewrite decide_True by (split; [done|lia]). done.
    - intros i Hb Hi. replace i with 0%nat by lia.
      rewrite firstColumn_lookup.
      rewrite decide_True by (split; [done|lia]). done.
    - intros j Hj. rewrite firstColumn_lookup.
      rewrite decide_True by (split; [done|lia]). done. }
  destruct (fillRows_filled matrix0 (String.length b)) as [Hfilled|Hzero];
    [done|done| |].
  - destruct Hfilled as (Hrows & _ & _). unfold cell.
    change (fun matrix j => foldl _ matrix (seq 1 (String.length a)))
      with (fun matrix j => foldl (fillCell j) matrix (seq 1 (String.length a))).
    by rewrite (Hrows (String.length b) (String.length a)).
  - rewrite Hzero. cbn [seq foldl]. destruct Hinit as (Hrows & _ & _).
    unfold cell. by rewrite (Hrows 0%nat (String.length a)).
Qed.

(** *** Properties of the recurrence *)

Lemma lev_upper i j : (lev i j ≤ Nat.max i j)%nat.
Proof.
  revert j. induction i as [|i IHi]; intros j; [rewrite lev_0_l; lia|].
  induction j as [|j IHj]; [rewrite lev_0_r; lia|].
  rewrite lev_S. pose proof (IHi j). unfold cost. case_bool_decide; lia.
Qed.

Lemma lev_lower i j : (i - j ≤ lev i j ∧ j - i ≤ lev i j)%nat.
Proof.
  revert j. induction i as [|i IHi]; intros j; [rewrite lev_0_l; lia|].
  induction j as [|j IHj]; [rewrite lev_0_r; lia|].
  rewrite lev_S. pose proof (IHi j). pose proof (IHi (S j)). lia.
Qed.

Lemma lev_zero i j :
  lev i j = 0%nat →
  i = j ∧ ∀ k, (k < i)%nat → String.get k a = String.get k b.
Proof.
  revert j. induction i as [|i IHi]; intros j.
  - rewrite lev_0_l. intros ->. split; [done|]. intros; lia.
  - destruct j as [|j]; [by rewrite lev_0_r|].
    rewrite lev_S. intros Hz.
    assert (lev i j = 0%nat ∧ cost i j = 0%nat) as [Hij Hc] by lia.
    destruct (IHi j Hij) as [-> Hget]. split; [done|].
    intros k Hk. destruct (decide (k = j)) as [->|Hne]; [|apply Hget; lia].
    unfold cost in Hc. by case_bool_decide.
Qed.

Lemma lev_diagonal i :
  (∀ k, (k < i)%nat → String.get k a = String.get k b) → lev i i = 0%nat.
Proof.
  induction i as [|i IH]; intros Hget; [done|].
  rewrite lev_S, IH by (intros; apply Hget; lia).
  unfold cost. rewrite bool_decide_eq_true_2 by (apply Hget; lia). lia.
Qed.

End Distance.

Lemma get_beyond (s : string) (k : nat) :
  (String.length s ≤ k)%nat → String.get k s = None.
Proof.
  revert k. induction s as [|c s IH]; intros k Hk; [by destruct k|].
  destruct k as [|k]; simpl in *; [lia|]. apply IH. lia.
Qed.

(** X30. [levenshteinDistance] fills its matrix with the Levenshtein
    recurrence on the prefixes of the two strings and returns its value
    for the whole strings.  The distance therefore lies between the
    difference of the lengths and the greater length, and it is zero
    exactly for equal strings. *)
Theorem levenshteinDistance_is_edit_distance (a b : string) :
  levenshteinDistance a b = lev a b (String.length a) (String.length b) ∧
  (String.length a - String.length b ≤ levenshteinDistance a b)%nat ∧
  (String.length b - String.length a ≤ levenshteinDistance a b)%nat ∧
  (levenshteinDistance a b ≤ Nat.max (String.length a) (String.length b))%nat ∧
  (levenshteinDistance a b = 0%nat ↔ a = b).
Proof.
  rewrite levenshteinDistance_lev.
  pose proof (lev_lower a b (String.length a) (String.length b)) as [? ?].
  pose proof (lev_upper a b (String.length a) (String.length b)).
  repeat split; try done.
  - intros [Hlen Hget]%lev_zero. apply String.get_correct. intros k.
    destruct (decide (k < String.length a)%nat) as [Hk|Hk]; [by apply Hget|].
    rewrite !get_beyond; [done|lia|lia].
  - intros <-. by apply lev_diagonal.
Qed.

Example levenshteinDistance_example :
  levenshteinDistance "kitten" "sitting" = 3%nat ∧
  levenshteinDistance "goal" "Goal" = 1%nat ∧
  levenshteinDistance "" "abc" = 3%nat.
Proof. repeat split; by vm_compute. Qed.

End LevenshteinExtra.
